(** * Ad Copy Assistant: server actions over the campaign / ad-copy /
      performance store (src/actions/index.ts and the table definitions).

    The three tables are lists of rows in storage order.  A handler is a
    computation in a small monad that threads the store, may throw, and records
    every statement it sends to the store.  The clock ([new Date()]) and the id
    generator ([crypto.randomUUID()]) are read from an environment value: each
    handler reads each of them at most once.  The environment also says what
    the client of the store does with each number it is given to carry. *)

From Stdlib Require Import String List ZArith Bool Lia SpecFloat.
Import ListNotations.
Local Open Scope string_scope.
Local Open Scope Z_scope.
Local Open Scope list_scope.

(** ** Rows *)

(** [column.date] values: milliseconds since the epoch. *)
Definition Date := Z.

(** [z.number()] and [column.number] values: the double-precision numbers of
    the language, not-a-number and the two infinities included, in the
    specification format of the standard library (sign, mantissa and
    exponent).  The handlers copy them from the input to the row and never
    compute on them. *)
Definition number := spec_float.

(** The number of an integer literal: the double nearest to it. *)
Definition whole (n : positive) : number :=
  binary_normalize 53 1024 (Z.pos n) 0 false.

(** A value in a [set] payload. *)
Inductive Value :=
| VText (s : string)
| VDate (d : Date).

(** A [set] payload: the keys of the object literal, in the order written. *)
Definition Payload := list (string * Value).

Module Campaign.
Record t := mk {
  id : string;
  userId : string;
  name : string;
  objective : option string;
  productName : option string;
  targetAudience : option string;
  notes : option string;
  createdAt : Date;
  updatedAt : Date }.

(** The effect of one key of a [set] payload on a row. *)
Definition assign (col : string) (v : Value) (r : t) : t :=
  match v with
  | VText s =>
      if String.eqb col "name" then
        mk (id r) (userId r) s (objective r) (productName r)
           (targetAudience r) (notes r) (createdAt r) (updatedAt r)
      else if String.eqb col "objective" then
        mk (id r) (userId r) (name r) (Some s) (productName r)
           (targetAudience r) (notes r) (createdAt r) (updatedAt r)
      else if String.eqb col "productName" then
        mk (id r) (userId r) (name r) (objective r) (Some s)
           (targetAudience r) (notes r) (createdAt r) (updatedAt r)
      else if String.eqb col "targetAudience" then
        mk (id r) (userId r) (name r) (objective r) (productName r)
           (Some s) (notes r) (createdAt r) (updatedAt r)
      else if String.eqb col "notes" then
        mk (id r) (userId r) (name r) (objective r) (productName r)
           (targetAudience r) (Some s) (createdAt r) (updatedAt r)
      else r
  | VDate d =>
      if String.eqb col "updatedAt" then
        mk (id r) (userId r) (name r) (objective r) (productName r)
           (targetAudience r) (notes r) (createdAt r) d
      else r
  end.
End Campaign.

Module AdCopy.
Record t := mk {
  id : string;
  campaignId : string;
  userId : string;
  platform : option string;
  headline : option string;
  primaryText : string;
  description : option string;
  callToAction : option string;
  tone : option string;
  variantLabel : option string;
  url : option string;
  createdAt : Date;
  updatedAt : Date }.

Definition assign (col : string) (v : Value) (r : t) : t :=
  match v with
  | VText s =>
      if String.eqb col "platform" then
        mk (id r) (campaignId r) (userId r) (Some s) (headline r)
           (primaryText r) (description r) (callToAction r) (tone r)
           (variantLabel r) (url r) (createdAt r) (updatedAt r)
      else if String.eqb col "headline" then
        mk (id r) (campaignId r) (userId r) (platform r) (Some s)
           (primaryText r) (description r) (callToAction r) (tone r)
           (variantLabel r) (url r) (createdAt r) (updatedAt r)
      else if String.eqb col "primaryText" then
        mk (id r) (campaignId r) (userId r) (platform r) (headline r)
           s (description r) (callToAction r) (tone r)
           (variantLabel r) (url r) (createdAt r) (updatedAt r)
      else if String.eqb col "description" then
        mk (id r) (campaignId r) (userId r) (platform r) (headline r)
           (primaryText r) (Some s) (callToAction r) (tone r)
           (variantLabel r) (url r) (createdAt r) (updatedAt r)
      else if String.eqb col "callToAction" then
        mk (id r) (campaignId r) (userId r) (platform r) (headline r)
           (primaryText r) (description r) (Some s) (tone r)
           (variantLabel r) (url r) (createdAt r) (updatedAt r)
      else if String.eqb col "tone" then
        mk (id r) (campaignId r) (userId r) (platform r) (headline r)
           (primaryText r) (description r) (callToAction r) (Some s)
           (variantLabel r) (url r) (createdAt r) (updatedAt r)
      else if String.eqb col "variantLabel" then
        mk (id r) (campaignId r) (userId r) (platform r) (headline r)
           (primaryText r) (description r) (callToAction r) (tone r)
           (Some s) (url r) (createdAt r) (updatedAt r)
      else if String.eqb col "url" then
        mk (id r) (campaignId r) (userId r) (platform r) (headline r)
           (primaryText r) (description r) (callToAction r) (tone r)
           (variantLabel r) (Some s) (createdAt r) (updatedAt r)
      else r
  | VDate d =>
      if String.eqb col "updatedAt" then
        mk (id r) (campaignId r) (userId r) (platform r) (headline r)
           (primaryText r) (description r) (callToAction r) (tone r)
           (variantLabel r) (url r) (createdAt r) d
      else r
  end.
End AdCopy.

Module Performance.
Record t := mk {
  id : string;
  adCopyId : string;
  date : option Date;
  impressions : option number;
  clicks : option number;
  conversions : option number;
  spend : option number;
  currency : option string;
  notes : option string }.

(** No action updates a performance record. *)
Definition assign (col : string) (v : Value) (r : t) : t := r.

(** The numbers a record carries, column by column. *)
Definition numbers (r : t) : list number :=
  let column (v : option number) :=
    match v with
    | Some x => [x]
    | None => []
    end in
  column (impressions r) ++ column (clicks r) ++ column (conversions r)
  ++ column (spend r).
End Performance.

(** ** The store *)

Record DB := mkDB {
  AdCampaigns : list Campaign.t;
  AdCopies : list AdCopy.t;
  AdPerformance : list Performance.t }.

Inductive TableName := T_AdCampaigns | T_AdCopies | T_AdPerformance.

(** One entry per statement awaited on [db]. *)
Inductive Statement :=
| SELECT (t : TableName)
| INSERT (t : TableName)
| UPDATE (t : TableName)
| DELETE (t : TableName).

(** What [defineTable] gives the actions: where the rows live, which column
    is the primary key, how a row takes a new column value, and whether a row
    of another table refers to a row through a [references] column. *)
Class Table (R : Type) := {
  tableName : TableName;
  rows : DB -> list R;
  withRows : list R -> DB -> DB;
  primaryKey : R -> string;
  assign : string -> Value -> R -> R;
  referenced : DB -> R -> bool }.

#[global] Instance CampaignTable : Table Campaign.t := {|
  tableName := T_AdCampaigns;
  rows := AdCampaigns;
  withRows := fun l d => mkDB l (AdCopies d) (AdPerformance d);
  primaryKey := Campaign.id;
  assign := Campaign.assign;
  (* AdCopies.campaignId references AdCampaigns.id *)
  referenced := fun d c =>
    existsb (fun a => String.eqb (AdCopy.campaignId a) (Campaign.id c))
            (AdCopies d) |}.

#[global] Instance AdCopyTable : Table AdCopy.t := {|
  tableName := T_AdCopies;
  rows := AdCopies;
  withRows := fun l d => mkDB (AdCampaigns d) l (AdPerformance d);
  primaryKey := AdCopy.id;
  assign := AdCopy.assign;
  (* AdPerformance.adCopyId references AdCopies.id *)
  referenced := fun d a =>
    existsb (fun p => String.eqb (Performance.adCopyId p) (AdCopy.id a))
            (AdPerformance d) |}.

#[global] Instance PerformanceTable : Table Performance.t := {|
  tableName := T_AdPerformance;
  rows := AdPerformance;
  withRows := fun l d => mkDB (AdCampaigns d) (AdCopies d) l;
  primaryKey := Performance.id;
  assign := Performance.assign;
  referenced := fun _ _ => false |}.

(** ** Errors *)

Inductive ErrorCode := UNAUTHORIZED | NOT_FOUND.

(** A schema issue: a [min(1)] string check that failed on a field, the
    message of a [refine] that returned false, or a field whose value is not
    of the type the schema expects (not-a-number where a number is). *)
Inductive Issue :=
| too_small (field : string)
| custom (message : string)
| invalid_type (field : string).

(** What a call can throw: an error of a handler, the issues of a rejected
    input, a constraint of the store that refused a statement, or the range
    error of the store's client on a number it does not carry. *)
Inductive Failure :=
| ActionError (code : ErrorCode) (message : string)
| InputError (issues : list Issue)
| StoreError (t : TableName)
| ClientError.

(** ** The handler monad *)

Record Outcome (A : Type) := mkOutcome {
  result : Failure + A;
  store : DB;
  log : list Statement }.
Arguments mkOutcome {A}.
Arguments result {A}.
Arguments store {A}.
Arguments log {A}.

Definition M (A : Type) := DB -> Outcome A.

Definition ret {A} (a : A) : M A := fun d => mkOutcome (inr a) d [].

Definition throw {A} (e : Failure) : M A := fun d => mkOutcome (inl e) d [].

Definition bind {A B} (m : M A) (k : A -> M B) : M B :=
  fun d =>
    let o := m d in
    match result o with
    | inl e => mkOutcome (inl e) (store o) (log o)
    | inr a =>
        let o' := k a (store o) in
        mkOutcome (result o') (store o') (log o ++ log o')
    end.

Declare Scope action_scope.
Delimit Scope action_scope with action.
Notation "x <- m ;; k" := (bind m (fun x => k))
  (at level 100, m at next level, right associativity) : action_scope.
Notation "m ;;; k" := (bind m (fun _ => k))
  (at level 100, right associativity) : action_scope.
Local Open Scope action_scope.

(** ** Statements

    The store is taken at the level of the statements the actions send it:
    a filtered select, an insert and an update that return their rows, and a
    filtered delete that reports how many rows it affected.  The primary key
    is enforced on insert, and a delete is refused, nothing being removed,
    when a row of another table refers to a row it would remove.  The
    references of an inserted row are not checked: each insert of the actions
    comes after a guard that has found the row it refers to. *)

Section Statements.
Context {R : Type} `{Table R}.

(** [db.select().from(T).where(p)] *)
Definition db_select (p : R -> bool) : M (list R) :=
  fun d => mkOutcome (inr (filter p (rows d))) d [SELECT tableName].

(** [db.insert(T).values(r).returning()]: the primary key rejects a row whose
    id is already stored; the error is the store's own. *)
Definition db_insert (r : R) : M (list R) :=
  fun d =>
    if existsb (fun r' => String.eqb (primaryKey r') (primaryKey r)) (rows d)
    then mkOutcome (inl (StoreError tableName)) d [INSERT tableName]
    else mkOutcome (inr [r]) (withRows (rows d ++ [r]) d) [INSERT tableName].

(** The keys of a payload are assigned in order. *)
Definition applySet (s : Payload) (r : R) : R :=
  fold_left (fun acc kv => assign (fst kv) (snd kv) acc) s r.

(** [db.update(T).set(s).where(p).returning()] *)
Definition db_update (s : Payload) (p : R -> bool) : M (list R) :=
  fun d =>
    mkOutcome (inr (map (applySet s) (filter p (rows d))))
              (withRows (map (fun r => if p r then applySet s r else r)
                             (rows d)) d)
              [UPDATE tableName].

(** [db.delete(T).where(p)]: the result is [rowsAffected]; the error of a
    refused delete is the store's own. *)
Definition db_delete (p : R -> bool) : M nat :=
  fun d =>
    if existsb (referenced d) (filter p (rows d))
    then mkOutcome (inl (StoreError tableName)) d [DELETE tableName]
    else mkOutcome (inr (length (filter p (rows d))))
                   (withRows (filter (fun r => negb (p r)) (rows d)) d)
                   [DELETE tableName].

(** A statement whose arguments the client may refuse to send: nothing
    reaches the store then. *)
Definition sending {A} (sent : bool) (m : M A) : M A :=
  if sent then m else throw ClientError.

(** A statement whose rows the client may fail to hand back: the statement
    has run by then. *)
Definition reading (handedBack : R -> bool) (m : M (list R)) : M (list R) :=
  found <- m ;;
  if forallb handedBack found then ret found else throw ClientError.
End Statements.

(** [const [x] = ...]: the first element, or undefined. *)
Definition first {A} (l : list A) : option A :=
  match l with
  | [] => None
  | x :: _ => Some x
  end.

(** ** Request context *)

Module User.
Record t := mk { id : string }.
End User.

Record Locals := mkLocals { user : option User.t }.
Record ActionAPIContext := mkContext { locals : option Locals }.

(** What the client of the store does with a number it is given to carry:
    it sends it and hands it back when the row is read; or it sends it, so
    that it is stored, but throws when the row is read; or it refuses to send
    it.  The client is not part of the repository. *)
Inductive Carriage := round_trips | stored_unreadable | not_sent.

(** What a handler meets outside the store; [carriage] is a parameter of the
    model, one for every number. *)
Record Env := environment {
  now : Date;                       (* new Date() *)
  randomUUID : string;              (* crypto.randomUUID() *)
  carriage : number -> Carriage }.

(** The client sends a record: none of its numbers is refused. *)
Definition sendable (env : Env) (r : Performance.t) : bool :=
  forallb (fun x => match carriage env x with
                    | not_sent => false
                    | _ => true
                    end) (Performance.numbers r).

(** The client hands a stored record back: each of its numbers is one it
    reads. *)
Definition readable (env : Env) (r : Performance.t) : bool :=
  forallb (fun x => match carriage env x with
                    | round_trips => true
                    | _ => false
                    end) (Performance.numbers r).

(** [context.locals?.user] *)
Definition currentUser (context : ActionAPIContext) : option User.t :=
  match locals context with
  | Some l => user l
  | None => None
  end.

Definition requireUser (context : ActionAPIContext) : M User.t :=
  match currentUser context with
  | None =>
      throw (ActionError UNAUTHORIZED
               "You must be signed in to perform this action.")
  | Some user => ret user
  end.

Definition getOwnedCampaign (campaignId userId : string) : M Campaign.t :=
  found <- db_select (fun c =>
             String.eqb (Campaign.id c) campaignId
             && String.eqb (Campaign.userId c) userId) ;;
  match first found with
  | Some campaign => ret campaign
  | None => throw (ActionError NOT_FOUND "Campaign not found.")
  end.

Definition getOwnedAdCopy (adCopyId userId : string) : M AdCopy.t :=
  found <- db_select (fun a =>
             String.eqb (AdCopy.id a) adCopyId
             && String.eqb (AdCopy.userId a) userId) ;;
  match first found with
  | Some adCopy => ret adCopy
  | None => throw (ActionError NOT_FOUND "Ad copy not found.")
  end.

(** ** Input schemas *)

(** [z.string().min(1)] on a value already known to be a string. *)
Definition min1 (field : string) (s : string) : list Issue :=
  if (String.length s <? 1)%nat then [too_small field] else [].

(** [z.string().min(1).optional()] *)
Definition min1_optional (field : string) (s : option string) : list Issue :=
  match s with
  | Some v => min1 field v
  | None => []
  end.

(** [z.number().optional()]: not-a-number is not a number. *)
Definition number_optional (field : string) (v : option number) : list Issue :=
  match v with
  | Some S754_nan => [invalid_type field]
  | _ => []
  end.

(** [.refine(check, { message })] *)
Definition refine (check : bool) (message : string) : list Issue :=
  if check then [] else [custom message].

(** [v !== undefined] *)
Definition defined {A} (v : option A) : bool :=
  match v with
  | Some _ => true
  | None => false
  end.

(** [...(v !== undefined ? { key: v } : {})] *)
Definition spread (key : string) (v : option string) : Payload :=
  match v with
  | Some s => [(key, VText s)]
  | None => []
  end.

Module CreateCampaign.
Record t := mk {
  name : string;
  objective : option string;
  productName : option string;
  targetAudience : option string;
  notes : option string }.

Definition input (i : t) : list Issue := min1 "name" (name i).
End CreateCampaign.

Module UpdateCampaign.
Record t := mk {
  id : string;
  name : option string;
  objective : option string;
  productName : option string;
  targetAudience : option string;
  notes : option string }.

Definition input (i : t) : list Issue :=
  min1 "id" (id i) ++ min1_optional "name" (name i)
  ++ refine (defined (name i) || defined (objective i)
             || defined (productName i) || defined (targetAudience i)
             || defined (notes i))
            "At least one field must be provided to update.".
End UpdateCampaign.

Module CreateAdCopy.
Record t := mk {
  campaignId : string;
  platform : option string;
  headline : option string;
  primaryText : string;
  description : option string;
  callToAction : option string;
  tone : option string;
  variantLabel : option string;
  url : option string }.

Definition input (i : t) : list Issue :=
  min1 "campaignId" (campaignId i) ++ min1 "primaryText" (primaryText i).
End CreateAdCopy.

Module UpdateAdCopy.
Record t := mk {
  id : string;
  campaignId : string;
  platform : option string;
  headline : option string;
  primaryText : option string;
  description : option string;
  callToAction : option string;
  tone : option string;
  variantLabel : option string;
  url : option string }.

Definition input (i : t) : list Issue :=
  min1 "id" (id i) ++ min1 "campaignId" (campaignId i)
  ++ refine (defined (platform i) || defined (headline i)
             || defined (primaryText i) || defined (description i)
             || defined (callToAction i) || defined (tone i)
             || defined (variantLabel i) || defined (url i))
            "At least one field must be provided to update.".
End UpdateAdCopy.

Module DeleteAdCopy.
Record t := mk { id : string; campaignId : string }.

Definition input (i : t) : list Issue :=
  min1 "id" (id i) ++ min1 "campaignId" (campaignId i).
End DeleteAdCopy.

Module ListAdCopies.
Record t := mk { campaignId : string }.

Definition input (i : t) : list Issue := min1 "campaignId" (campaignId i).
End ListAdCopies.

Module LogAdPerformance.
Record t := mk {
  adCopyId : string;
  date : option Date;
  impressions : option number;
  clicks : option number;
  conversions : option number;
  spend : option number;
  currency : option string;
  notes : option string }.

Definition input (i : t) : list Issue :=
  min1 "adCopyId" (adCopyId i)
  ++ number_optional "impressions" (impressions i)
  ++ number_optional "clicks" (clicks i)
  ++ number_optional "conversions" (conversions i)
  ++ number_optional "spend" (spend i).
End LogAdPerformance.

Module ListAdPerformance.
Record t := mk { adCopyId : string }.

Definition input (i : t) : list Issue := min1 "adCopyId" (adCopyId i).
End ListAdPerformance.

(** ** Result envelopes: [{ success: true, data: ... }] *)

Inductive Data :=
| data_campaign (campaign : option Campaign.t)
| data_adCopy (adCopy : option AdCopy.t)
| data_performance (performance : option Performance.t)
| data_campaigns (items : list Campaign.t) (total : nat)
| data_adCopies (items : list AdCopy.t) (total : nat)
| data_performances (items : list Performance.t) (total : nat)
| no_data.

(** [defineAction({ input, handler })]: the input is parsed against the schema
    and the handler runs on an accepted input only; a rejected input is thrown
    back with its issues. *)
Definition defineAction {I} (input : I -> list Issue)
    (handler : I -> ActionAPIContext -> Env -> M Data)
    : I -> ActionAPIContext -> Env -> M Data :=
  fun i context env =>
    match input i with
    | [] => handler i context env
    | issues => throw (InputError issues)
    end.

(** ** The actions *)

Module server.

Definition createCampaign :=
  defineAction CreateCampaign.input (fun input context env =>
    user <- requireUser context ;;
    let now := now env in
    inserted <- db_insert
      (Campaign.mk (randomUUID env) (User.id user)
         (CreateCampaign.name input) (CreateCampaign.objective input)
         (CreateCampaign.productName input)
         (CreateCampaign.targetAudience input)
         (CreateCampaign.notes input) now now) ;;
    ret (data_campaign (first inserted))).

Definition updateCampaign :=
  defineAction UpdateCampaign.input (fun input context env =>
    user <- requireUser context ;;
    (getOwnedCampaign (UpdateCampaign.id input) (User.id user)) ;;;
    updated <- db_update
      (spread "name" (UpdateCampaign.name input)
       ++ spread "objective" (UpdateCampaign.objective input)
       ++ spread "productName" (UpdateCampaign.productName input)
       ++ spread "targetAudience" (UpdateCampaign.targetAudience input)
       ++ spread "notes" (UpdateCampaign.notes input)
       ++ [("updatedAt", VDate (now env))])
      (fun c => String.eqb (Campaign.id c) (UpdateCampaign.id input)) ;;
    ret (data_campaign (first updated))).

Definition listCampaigns :=
  defineAction (fun _ : option unit => []) (fun _input context env =>
    user <- requireUser context ;;
    campaigns <- db_select
      (fun c => String.eqb (Campaign.userId c) (User.id user)) ;;
    ret (data_campaigns campaigns (length campaigns))).

Definition createAdCopy :=
  defineAction CreateAdCopy.input (fun input context env =>
    user <- requireUser context ;;
    (getOwnedCampaign (CreateAdCopy.campaignId input) (User.id user)) ;;;
    let now := now env in
    inserted <- db_insert
      (AdCopy.mk (randomUUID env) (CreateAdCopy.campaignId input)
         (User.id user) (CreateAdCopy.platform input)
         (CreateAdCopy.headline input) (CreateAdCopy.primaryText input)
         (CreateAdCopy.description input) (CreateAdCopy.callToAction input)
         (CreateAdCopy.tone input) (CreateAdCopy.variantLabel input)
         (CreateAdCopy.url input) now now) ;;
    ret (data_adCopy (first inserted))).

Definition updateAdCopy :=
  defineAction UpdateAdCopy.input (fun input context env =>
    user <- requireUser context ;;
    (getOwnedCampaign (UpdateAdCopy.campaignId input) (User.id user)) ;;;
    found <- db_select (fun a =>
               String.eqb (AdCopy.id a) (UpdateAdCopy.id input)
               && String.eqb (AdCopy.campaignId a)
                             (UpdateAdCopy.campaignId input)
               && String.eqb (AdCopy.userId a) (User.id user)) ;;
    match first found with
    | None => throw (ActionError NOT_FOUND "Ad copy not found.")
    | Some existing =>
        updated <- db_update
          (spread "platform" (UpdateAdCopy.platform input)
           ++ spread "headline" (UpdateAdCopy.headline input)
           ++ spread "primaryText" (UpdateAdCopy.primaryText input)
           ++ spread "description" (UpdateAdCopy.description input)
           ++ spread "callToAction" (UpdateAdCopy.callToAction input)
           ++ spread "tone" (UpdateAdCopy.tone input)
           ++ spread "variantLabel" (UpdateAdCopy.variantLabel input)
           ++ spread "url" (UpdateAdCopy.url input)
           ++ [("updatedAt", VDate (now env))])
          (fun a => String.eqb (AdCopy.id a) (UpdateAdCopy.id input)) ;;
        ret (data_adCopy (first updated))
    end).

Definition deleteAdCopy :=
  defineAction DeleteAdCopy.input (fun input context env =>
    user <- requireUser context ;;
    (getOwnedCampaign (DeleteAdCopy.campaignId input) (User.id user)) ;;;
    rowsAffected <- db_delete (fun a : AdCopy.t =>
                      String.eqb (AdCopy.id a) (DeleteAdCopy.id input)
                      && String.eqb (AdCopy.campaignId a)
                                    (DeleteAdCopy.campaignId input)
                      && String.eqb (AdCopy.userId a) (User.id user)) ;;
    if Nat.eqb rowsAffected 0
    then throw (ActionError NOT_FOUND "Ad copy not found.")
    else ret no_data).

Definition listAdCopies :=
  defineAction ListAdCopies.input (fun input context env =>
    user <- requireUser context ;;
    (getOwnedCampaign (ListAdCopies.campaignId input) (User.id user)) ;;;
    copies <- db_select (fun a =>
                String.eqb (AdCopy.campaignId a)
                           (ListAdCopies.campaignId input)
                && String.eqb (AdCopy.userId a) (User.id user)) ;;
    ret (data_adCopies copies (length copies))).

Definition logAdPerformance :=
  defineAction LogAdPerformance.input (fun input context env =>
    user <- requireUser context ;;
    adCopy <- getOwnedAdCopy (LogAdPerformance.adCopyId input)
                             (User.id user) ;;
    (getOwnedCampaign (AdCopy.campaignId adCopy) (User.id user)) ;;;
    let values :=
      Performance.mk (randomUUID env) (LogAdPerformance.adCopyId input)
        (Some match LogAdPerformance.date input with
              | Some d => d
              | None => now env
              end)
        (LogAdPerformance.impressions input)
        (LogAdPerformance.clicks input)
        (LogAdPerformance.conversions input)
        (LogAdPerformance.spend input)
        (LogAdPerformance.currency input)
        (LogAdPerformance.notes input) in
    inserted <- sending (sendable env values)
                  (reading (readable env) (db_insert values)) ;;
    ret (data_performance (first inserted))).

Definition listAdPerformance :=
  defineAction ListAdPerformance.input (fun input context env =>
    user <- requireUser context ;;
    adCopy <- getOwnedAdCopy (ListAdPerformance.adCopyId input)
                             (User.id user) ;;
    (getOwnedCampaign (AdCopy.campaignId adCopy) (User.id user)) ;;;
    performances <- reading (readable env)
                      (db_select (fun p =>
                         String.eqb (Performance.adCopyId p)
                                    (ListAdPerformance.adCopyId input))) ;;
    ret (data_performances performances (length performances))).

End server.

(** A call of one of the nine actions with its input. *)
Inductive Call :=
| call_createCampaign (input : CreateCampaign.t)
| call_updateCampaign (input : UpdateCampaign.t)
| call_listCampaigns (input : option unit)
| call_createAdCopy (input : CreateAdCopy.t)
| call_updateAdCopy (input : UpdateAdCopy.t)
| call_deleteAdCopy (input : DeleteAdCopy.t)
| call_listAdCopies (input : ListAdCopies.t)
| call_logAdPerformance (input : LogAdPerformance.t)
| call_listAdPerformance (input : ListAdPerformance.t).

Definition invoke (c : Call) : ActionAPIContext -> Env -> M Data :=
  match c with
  | call_createCampaign i => server.createCampaign i
  | call_updateCampaign i => server.updateCampaign i
  | call_listCampaigns i => server.listCampaigns i
  | call_createAdCopy i => server.createAdCopy i
  | call_updateAdCopy i => server.updateAdCopy i
  | call_deleteAdCopy i => server.deleteAdCopy i
  | call_listAdCopies i => server.listAdCopies i
  | call_logAdPerformance i => server.logAdPerformance i
  | call_listAdPerformance i => server.listAdPerformance i
  end.

(** The issues the schema of the called action raises on its input. *)
Definition issues (c : Call) : list Issue :=
  match c with
  | call_createCampaign i => CreateCampaign.input i
  | call_updateCampaign i => UpdateCampaign.input i
  | call_listCampaigns _ => []
  | call_createAdCopy i => CreateAdCopy.input i
  | call_updateAdCopy i => UpdateAdCopy.input i
  | call_deleteAdCopy i => DeleteAdCopy.input i
  | call_listAdCopies i => ListAdCopies.input i
  | call_logAdPerformance i => LogAdPerformance.input i
  | call_listAdPerformance i => ListAdPerformance.input i
  end.

(** The context of a request signed in as [u], and of an anonymous one. *)
Definition signedIn (u : string) : ActionAPIContext :=
  mkContext (Some (mkLocals (Some (User.mk u)))).

Definition anonymous : ActionAPIContext := mkContext (Some (mkLocals None)).

(** * Vocabulary of the properties *)

(** ** Observations *)

(** The code of the [ActionError] an outcome carries, if it carries one. *)
Definition errorCode {A} (o : Outcome A) : option ErrorCode :=
  match result o with
  | inl (ActionError code _) => Some code
  | _ => None
  end.

(** The messages an outcome shows its caller: the message of a thrown
    [ActionError], or the messages of the [refine] issues of a rejected
    input. *)
Definition messages {A} (o : Outcome A) : list string :=
  match result o with
  | inl (ActionError _ m) => [m]
  | inl (InputError l) =>
      flat_map (fun i => match i with custom m => [m] | _ => [] end) l
  | _ => []
  end.

(** The table a statement was sent to. *)
Definition tableOf (s : Statement) : TableName :=
  match s with
  | SELECT t | INSERT t | UPDATE t | DELETE t => t
  end.

(** The table the first statement of a run was sent to. *)
Definition firstTable {A} (o : Outcome A) : option TableName :=
  match log o with
  | [] => None
  | s :: _ => Some (tableOf s)
  end.

(** ** Store invariants *)

Fixpoint distinct (l : list string) : bool :=
  match l with
  | [] => true
  | x :: t => negb (existsb (String.eqb x) t) && distinct t
  end.

(** Every table's primary key is unique. *)
Definition primaryKeysOk (d : DB) : bool :=
  distinct (map Campaign.id (AdCampaigns d))
  && distinct (map AdCopy.id (AdCopies d))
  && distinct (map Performance.id (AdPerformance d)).

(** No stored timestamp is later than [n]. *)
Definition stampsUpTo (n : Date) (d : DB) : bool :=
  forallb (fun c => (Campaign.createdAt c <=? n) && (Campaign.updatedAt c <=? n))
          (AdCampaigns d)
  && forallb (fun a => (AdCopy.createdAt a <=? n) && (AdCopy.updatedAt a <=? n))
             (AdCopies d).

(** A computation keeps an invariant of the store. *)
Definition keeps (Inv : DB -> Prop) {A} (m : M A) : Prop :=
  forall d, Inv d -> Inv (store (m d)).

(** Some stored campaign has this id and this owner. *)
Definition ownsCampaign (d : DB) (campaignId userId : string) : bool :=
  existsb (fun c => String.eqb (Campaign.id c) campaignId
                    && String.eqb (Campaign.userId c) userId)
          (AdCampaigns d).

(** Some stored ad copy has this id and this owner. *)
Definition ownsAdCopy (d : DB) (adCopyId userId : string) : bool :=
  existsb (fun a => String.eqb (AdCopy.id a) adCopyId
                    && String.eqb (AdCopy.userId a) userId)
          (AdCopies d).

(** The stored resources a mutating call is aimed at, each with its table and
    id: the row to change and, where the caller supplies it, the campaign it
    is to be found under.  createCampaign has no target and the list actions
    mutate nothing. *)
Definition targets (c : Call) : list (TableName * string) :=
  match c with
  | call_updateCampaign i => [(T_AdCampaigns, UpdateCampaign.id i)]
  | call_createAdCopy i => [(T_AdCampaigns, CreateAdCopy.campaignId i)]
  | call_updateAdCopy i =>
      [(T_AdCopies, UpdateAdCopy.id i);
       (T_AdCampaigns, UpdateAdCopy.campaignId i)]
  | call_deleteAdCopy i =>
      [(T_AdCopies, DeleteAdCopy.id i);
       (T_AdCampaigns, DeleteAdCopy.campaignId i)]
  | call_logAdPerformance i => [(T_AdCopies, LogAdPerformance.adCopyId i)]
  | _ => []
  end.

(** The owner column of the stored row with that id, if there is one. *)
Definition owner (d : DB) (t : TableName * string) : option string :=
  match fst t with
  | T_AdCampaigns =>
      option_map Campaign.userId
        (find (fun c => String.eqb (Campaign.id c) (snd t)) (AdCampaigns d))
  | T_AdCopies =>
      option_map AdCopy.userId
        (find (fun a => String.eqb (AdCopy.id a) (snd t)) (AdCopies d))
  | T_AdPerformance => None
  end.

(** The predicate updateAdCopy selects on and deleteAdCopy deletes on: id,
    campaign and owner together. *)
Definition matchesAdCopy (id campaignId userId : string) (a : AdCopy.t) : bool :=
  String.eqb (AdCopy.id a) id
  && String.eqb (AdCopy.campaignId a) campaignId
  && String.eqb (AdCopy.userId a) userId.


(** The id and campaign id an updateAdCopy or deleteAdCopy call supplies. *)
Definition adCopyKeys (c : Call) : option (string * string) :=
  match c with
  | call_updateAdCopy i => Some (UpdateAdCopy.id i, UpdateAdCopy.campaignId i)
  | call_deleteAdCopy i => Some (DeleteAdCopy.id i, DeleteAdCopy.campaignId i)
  | _ => None
  end.

(** The ad-copy id a logAdPerformance or listAdPerformance call supplies. *)
Definition performanceKey (c : Call) : option string :=
  match c with
  | call_logAdPerformance i => Some (LogAdPerformance.adCopyId i)
  | call_listAdPerformance i => Some (ListAdPerformance.adCopyId i)
  | _ => None
  end.

(** The row [getOwnedAdCopy] hands back: the first stored ad copy with this
    id and this owner. *)
Definition ownedAdCopy (d : DB) (adCopyId userId : string) : option AdCopy.t :=
  find (fun a => String.eqb (AdCopy.id a) adCopyId
                 && String.eqb (AdCopy.userId a) userId)
       (AdCopies d).

(** The first statement of the run was sent to the ad-copy table: the ad copy
    was looked up before anything else. *)
Definition adCopyCheckedFirst {A} (o : Outcome A) : Prop :=
  firstTable o = Some T_AdCopies.

(** A required column after a sparse update: the supplied value, or else the
    stored one. *)
Definition orElse {A} (supplied : option A) (stored : A) : A :=
  match supplied with
  | Some v => v
  | None => stored
  end.

(** An optional column after a sparse update. *)
Definition orKeep {A} (supplied : option A) (stored : option A) : option A :=
  match supplied with
  | Some v => Some v
  | None => stored
  end.

(** ** A small store for the examples

    User u1 owns campaign c1 with ad copy a1; user u2 owns campaign c2 with ad
    copy a2.  No performance has been logged. *)

Definition sampleCampaigns : list Campaign.t :=
  [ Campaign.mk "c1" "u1" "Spring Sale" None None None (Some "draft") 10 10;
    Campaign.mk "c2" "u2" "Winter Sale" (Some "sales") None None None 20 25 ].

Definition sampleAdCopies : list AdCopy.t :=
  [ AdCopy.mk "a1" "c1" "u1" None (Some "Hello") "Save big" None None None
      None None 11 11;
    AdCopy.mk "a2" "c2" "u2" (Some "google") None "Buy now" None None None
      None None 21 21 ].

Definition sampleStore : DB := mkDB sampleCampaigns sampleAdCopies [].

(** A client that carries every finite number, except that it cannot read
    back a whole number of 2^53 or more (and below 2^63), and that sends
    neither an infinity nor not-a-number. *)
Definition sampleCarriage (x : number) : Carriage :=
  match x with
  | S754_zero _ => round_trips
  | S754_infinity _ | S754_nan => not_sent
  | S754_finite _ m e =>
      let large v := (2 ^ 53 <=? v) && (v <? 2 ^ 63) in
      if 0 <=? e then
        if large (Z.pos m * 2 ^ e) then stored_unreadable else round_trips
      else if (Z.pos m mod 2 ^ (- e) =? 0) && large (Z.pos m / 2 ^ (- e))
           then stored_unreadable else round_trips
  end.

(** An environment with the client of the examples. *)
Definition mkEnv (now : Date) (randomUUID : string) : Env :=
  environment now randomUUID sampleCarriage.

Definition sampleEnv : Env := mkEnv 30 "fresh-id".

(** ** What a successful call writes *)

(** The row createCampaign inserts for user [u]. *)
Definition createdCampaign (i : CreateCampaign.t) (u : string) (env : Env)
    : Campaign.t :=
  Campaign.mk (randomUUID env) u (CreateCampaign.name i)
    (CreateCampaign.objective i) (CreateCampaign.productName i)
    (CreateCampaign.targetAudience i) (CreateCampaign.notes i)
    (now env) (now env).

(** What the payload of updateCampaign makes of a stored row. *)
Definition updatedCampaign (i : UpdateCampaign.t) (env : Env) (c : Campaign.t)
    : Campaign.t :=
  Campaign.mk (Campaign.id c) (Campaign.userId c)
    (orElse (UpdateCampaign.name i) (Campaign.name c))
    (orKeep (UpdateCampaign.objective i) (Campaign.objective c))
    (orKeep (UpdateCampaign.productName i) (Campaign.productName c))
    (orKeep (UpdateCampaign.targetAudience i) (Campaign.targetAudience c))
    (orKeep (UpdateCampaign.notes i) (Campaign.notes c))
    (Campaign.createdAt c) (now env).

(** The row createAdCopy inserts for user [u]. *)
Definition createdAdCopy (i : CreateAdCopy.t) (u : string) (env : Env)
    : AdCopy.t :=
  AdCopy.mk (randomUUID env) (CreateAdCopy.campaignId i) u
    (CreateAdCopy.platform i) (CreateAdCopy.headline i)
    (CreateAdCopy.primaryText i) (CreateAdCopy.description i)
    (CreateAdCopy.callToAction i) (CreateAdCopy.tone i)
    (CreateAdCopy.variantLabel i) (CreateAdCopy.url i)
    (now env) (now env).

(** What the payload of updateAdCopy makes of a stored row. *)
Definition updatedAdCopy (i : UpdateAdCopy.t) (env : Env) (a : AdCopy.t)
    : AdCopy.t :=
  AdCopy.mk (AdCopy.id a) (AdCopy.campaignId a) (AdCopy.userId a)
    (orKeep (UpdateAdCopy.platform i) (AdCopy.platform a))
    (orKeep (UpdateAdCopy.headline i) (AdCopy.headline a))
    (orElse (UpdateAdCopy.primaryText i) (AdCopy.primaryText a))
    (orKeep (UpdateAdCopy.description i) (AdCopy.description a))
    (orKeep (UpdateAdCopy.callToAction i) (AdCopy.callToAction a))
    (orKeep (UpdateAdCopy.tone i) (AdCopy.tone a))
    (orKeep (UpdateAdCopy.variantLabel i) (AdCopy.variantLabel a))
    (orKeep (UpdateAdCopy.url i) (AdCopy.url a))
    (AdCopy.createdAt a) (now env).

(** The row logAdPerformance inserts. *)
Definition loggedPerformance (i : LogAdPerformance.t) (env : Env)
    : Performance.t :=
  Performance.mk (randomUUID env) (LogAdPerformance.adCopyId i)
    (Some (orElse (LogAdPerformance.date i) (now env)))
    (LogAdPerformance.impressions i) (LogAdPerformance.clicks i)
    (LogAdPerformance.conversions i) (LogAdPerformance.spend i)
    (LogAdPerformance.currency i) (LogAdPerformance.notes i).

(** The store transitions of the six writing actions, called by user [u] at
    environment [env], each with the conditions under which the action
    reaches its write. *)
Inductive Write (u : string) (env : Env) (d : DB) : DB -> Prop :=
| W_createCampaign (i : CreateCampaign.t) :
    CreateCampaign.input i = [] ->
    existsb (fun r => String.eqb (Campaign.id r) (randomUUID env))
            (AdCampaigns d) = false ->
    Write u env d
      (mkDB (AdCampaigns d ++ [createdCampaign i u env]) (AdCopies d)
            (AdPerformance d))
| W_updateCampaign (i : UpdateCampaign.t) :
    UpdateCampaign.input i = [] ->
    ownsCampaign d (UpdateCampaign.id i) u = true ->
    Write u env d
      (mkDB (map (fun r => if String.eqb (Campaign.id r) (UpdateCampaign.id i)
                           then updatedCampaign i env r else r)
                 (AdCampaigns d))
            (AdCopies d) (AdPerformance d))
| W_createAdCopy (i : CreateAdCopy.t) :
    CreateAdCopy.input i = [] ->
    ownsCampaign d (CreateAdCopy.campaignId i) u = true ->
    existsb (fun r => String.eqb (AdCopy.id r) (randomUUID env))
            (AdCopies d) = false ->
    Write u env d
      (mkDB (AdCampaigns d) (AdCopies d ++ [createdAdCopy i u env])
            (AdPerformance d))
| W_updateAdCopy (i : UpdateAdCopy.t) :
    UpdateAdCopy.input i = [] ->
    ownsCampaign d (UpdateAdCopy.campaignId i) u = true ->
    existsb (matchesAdCopy (UpdateAdCopy.id i) (UpdateAdCopy.campaignId i) u)
            (AdCopies d) = true ->
    Write u env d
      (mkDB (AdCampaigns d)
            (map (fun r => if String.eqb (AdCopy.id r) (UpdateAdCopy.id i)
                           then updatedAdCopy i env r else r)
                 (AdCopies d))
            (AdPerformance d))
| W_deleteAdCopy (i : DeleteAdCopy.t) :
    DeleteAdCopy.input i = [] ->
    ownsCampaign d (DeleteAdCopy.campaignId i) u = true ->
    existsb (matchesAdCopy (DeleteAdCopy.id i) (DeleteAdCopy.campaignId i) u)
            (AdCopies d) = true ->
    Write u env d
      (mkDB (AdCampaigns d)
            (filter (fun r => negb (matchesAdCopy (DeleteAdCopy.id i)
                                      (DeleteAdCopy.campaignId i) u r))
                    (AdCopies d))
            (AdPerformance d))
| W_logAdPerformance (i : LogAdPerformance.t) (a : AdCopy.t) :
    LogAdPerformance.input i = [] ->
    ownedAdCopy d (LogAdPerformance.adCopyId i) u = Some a ->
    ownsCampaign d (AdCopy.campaignId a) u = true ->
    existsb (fun r => String.eqb (Performance.id r) (randomUUID env))
            (AdPerformance d) = false ->
    Write u env d
      (mkDB (AdCampaigns d) (AdCopies d)
            (AdPerformance d ++ [loggedPerformance i env])).

(** A statement that only reads. *)
Definition isSelect (s : Statement) : bool :=
  match s with
  | SELECT _ => true
  | _ => false
  end.

(** The statements of one call: at most three, and none but the last is
    anything other than a select. *)
Definition wellShaped (l : list Statement) : bool :=
  (length l <=? 3)%nat && forallb isSelect (removelast l).

(** What one call by user [u] does: its statements are well shaped, and the
    store is either left as it was or, the call succeeding, taken through one
    write. *)
Definition Effect (u : string) (env : Env) (d : DB) (o : Outcome Data)
    : Prop :=
  wellShaped (log o) = true
  /\ (store o = d
      \/ ((exists x, result o = inr x) /\ Write u env d (store o))).

(** The one way a call fails after its write: a logAdPerformance whose
    record is stored and which the client then cannot hand back. *)
Definition storedUnread (env : Env) (d : DB) (c : Call) (o : Outcome Data)
    : Prop :=
  exists i,
    c = call_logAdPerformance i
    /\ result o = inl ClientError
    /\ readable env (loggedPerformance i env) = false
    /\ store o = mkDB (AdCampaigns d) (AdCopies d)
                      (AdPerformance d ++ [loggedPerformance i env]).

(** Every ad copy sits under a stored campaign of its own owner. *)
Definition chainOk (d : DB) : bool :=
  forallb (fun a => ownsCampaign d (AdCopy.campaignId a) (AdCopy.userId a))
          (AdCopies d).

(** Every campaign has a name of at least one character. *)
Definition namesOk (d : DB) : bool :=
  forallb (fun c => (1 <=? String.length (Campaign.name c))%nat)
          (AdCampaigns d).

(** No row was updated before it was created. *)
Definition stampsOrdered (d : DB) : bool :=
  forallb (fun c => Campaign.createdAt c <=? Campaign.updatedAt c)
          (AdCampaigns d)
  && forallb (fun a => AdCopy.createdAt a <=? AdCopy.updatedAt a)
             (AdCopies d).

(** The stores the actions can produce, starting from empty tables: any
    sequence of calls, by any callers, with any inputs, clock readings and
    generated ids. *)
Inductive reachable : DB -> Prop :=
| reachable_empty : reachable (mkDB [] [] [])
| reachable_call d c context env :
    reachable d -> reachable (store (invoke c context env d)).

(** The three list actions. *)
Definition isList (c : Call) : bool :=
  match c with
  | call_listCampaigns _ | call_listAdCopies _ | call_listAdPerformance _ =>
      true
  | _ => false
  end.

(** The columns of a campaign that identify it and its owner. *)
Definition campaignIdentity (c : Campaign.t) : string * string * Date :=
  (Campaign.id c, Campaign.userId c, Campaign.createdAt c).

(** The resources a mutating call depends on in store [d], each with its
    table and id: those the caller supplies and, for logAdPerformance, the
    campaign of every stored ad copy with the supplied id. *)
Definition chain (d : DB) (c : Call) : list (TableName * string) :=
  match c with
  | call_logAdPerformance i =>
      (T_AdCopies, LogAdPerformance.adCopyId i)
      :: map (fun a => (T_AdCampaigns, AdCopy.campaignId a))
             (filter (fun a => String.eqb (AdCopy.id a)
                                          (LogAdPerformance.adCopyId i))
                     (AdCopies d))
  | _ => targets c
  end.

(** Some stored performance record refers to this ad-copy id. *)
Definition hasPerformance (d : DB) (adCopyId : string) : bool :=
  existsb (fun p => String.eqb (Performance.adCopyId p) adCopyId)
          (AdPerformance d).

(** A store in which one performance record has been logged for ad copy
    a1. *)
Definition sampleLogged : DB :=
  mkDB sampleCampaigns sampleAdCopies
       [Performance.mk "p1" "a1" (Some 15) (Some (whole 100)) None None None
          None None].
(** * Properties of the actions *)

(** ** Lists as tables *)

Section Rows.
Context {A : Type}.
Variable key : A -> string.

Lemma first_filter_find (p : A -> bool) (l : list A) :
  first (filter p l) = find p l.
Proof.
  induction l as [|x l IH]; simpl; [reflexivity|].
  destruct (p x); simpl; auto.
Qed.

Lemma filter_existsb_false (p : A -> bool) (l : list A) :
  existsb p l = false -> filter p l = [].
Proof.
  induction l as [|x l IH]; simpl; [reflexivity|].
  destruct (p x); simpl; [discriminate|auto].
Qed.

Lemma existsb_false_In (p : A -> bool) (l : list A) (x : A) :
  existsb p l = false -> In x l -> p x = false.
Proof.
  intros E I. destruct (p x) eqn:P; [|reflexivity].
  assert (existsb p l = true) by (apply existsb_exists; eauto).
  congruence.
Qed.

Lemma existsb_weaken (p q : A -> bool) (l : list A) :
  (forall x, q x = true -> p x = true) ->
  existsb p l = false -> existsb q l = false.
Proof.
  intros W E. destruct (existsb q l) eqn:Q; [|reflexivity].
  apply existsb_exists in Q. destruct Q as (x & I & Qx).
  specialize (W x Qx). rewrite (existsb_false_In p l x E I) in W.
  discriminate.
Qed.

Lemma map_if_unmatched (p : A -> bool) (f : A -> A) (l : list A) :
  existsb p l = false -> map (fun r => if p r then f r else r) l = l.
Proof.
  induction l as [|x l IH]; simpl; [reflexivity|].
  destruct (p x); simpl; [discriminate|].
  intros E. now rewrite IH.
Qed.

Lemma filter_negb_unmatched (p : A -> bool) (l : list A) :
  existsb p l = false -> filter (fun r => negb (p r)) l = l.
Proof.
  induction l as [|x l IH]; simpl; [reflexivity|].
  destruct (p x); simpl; [discriminate|].
  intros E. now rewrite IH.
Qed.

Lemma distinct_head_fresh (x : A) (l : list A) (y : A) :
  existsb (String.eqb (key x)) (map key l) = false ->
  In y l -> key y <> key x.
Proof.
  intros E I K.
  assert (existsb (String.eqb (key x)) (map key l) = true); [|congruence].
  apply existsb_exists. exists (key y). split.
  - now apply in_map.
  - rewrite K. apply String.eqb_refl.
Qed.

(** Under a unique key, a predicate that pins the key selects one row. *)
Lemma filter_by_key (p : A -> bool) (l : list A) (x : A) :
  distinct (map key l) = true ->
  In x l -> p x = true ->
  (forall y, p y = true -> key y = key x) ->
  filter p l = [x].
Proof.
  intros D I P K. induction l as [|a l IH]; [contradiction|].
  simpl in D. apply andb_prop in D. destruct D as [F D].
  apply negb_true_iff in F. simpl. destruct I as [->|I].
  - rewrite P. f_equal. apply filter_existsb_false.
    destruct (existsb p l) eqn:E; [|reflexivity].
    apply existsb_exists in E. destruct E as (y & Iy & Py).
    exfalso. exact (distinct_head_fresh x l y F Iy (K y Py)).
  - destruct (p a) eqn:Pa.
    + exfalso. apply (distinct_head_fresh a l x F I). symmetry. now apply K.
    + now apply IH.
Qed.

(** Under a unique key, rows with another value of the key are not
    selected. *)
Lemma existsb_by_key (p : A -> bool) (l : list A) (x : A) :
  distinct (map key l) = true ->
  In x l -> p x = false ->
  (forall y, p y = true -> key y = key x) ->
  existsb p l = false.
Proof.
  intros D I P K. destruct (existsb p l) eqn:E; [|reflexivity].
  apply existsb_exists in E. destruct E as (y & Iy & Py).
  induction l as [|a l IH]; [contradiction|].
  simpl in D. apply andb_prop in D. destruct D as [F D].
  apply negb_true_iff in F.
  destruct I as [->|I], Iy as [->|Iy].
  - congruence.
  - exfalso. exact (distinct_head_fresh x l y F Iy (K y Py)).
  - exfalso. apply (distinct_head_fresh y l x F I). symmetry. now apply K.
  - now apply IH.
Qed.
End Rows.

(** ** The ownership guards *)

Lemma getOwnedCampaign_miss (d : DB) (campaignId userId : string) :
  ownsCampaign d campaignId userId = false ->
  getOwnedCampaign campaignId userId d
  = mkOutcome (inl (ActionError NOT_FOUND "Campaign not found.")) d
              [SELECT T_AdCampaigns].
Proof.
  intros E. unfold getOwnedCampaign, bind, db_select. simpl.
  unfold ownsCampaign in E. now rewrite (filter_existsb_false _ _ E).
Qed.

Lemma getOwnedCampaign_hit (d : DB) (campaignId userId : string) :
  ownsCampaign d campaignId userId = true ->
  exists c,
    getOwnedCampaign campaignId userId d
    = mkOutcome (inr c) d [SELECT T_AdCampaigns]
    /\ In c (AdCampaigns d)
    /\ Campaign.id c = campaignId /\ Campaign.userId c = userId.
Proof.
  intros E. unfold getOwnedCampaign, bind, db_select. simpl.
  rewrite first_filter_find. unfold ownsCampaign in E.
  destruct (find _ (AdCampaigns d)) as [c|] eqn:F.
  - exists c. apply find_some in F. destruct F as [I P].
    apply andb_prop in P. destruct P as [P1 P2].
    apply String.eqb_eq in P1, P2. simpl. auto.
  - apply existsb_exists in E. destruct E as (x & I & P).
    now rewrite (find_none _ _ F x I) in P.
Qed.

Lemma getOwnedAdCopy_miss (d : DB) (adCopyId userId : string) :
  ownsAdCopy d adCopyId userId = false ->
  getOwnedAdCopy adCopyId userId d
  = mkOutcome (inl (ActionError NOT_FOUND "Ad copy not found.")) d
              [SELECT T_AdCopies].
Proof.
  intros E. unfold getOwnedAdCopy, bind, db_select. simpl.
  unfold ownsAdCopy in E. now rewrite (filter_existsb_false _ _ E).
Qed.

Lemma getOwnedAdCopy_hit (d : DB) (adCopyId userId : string) :
  ownsAdCopy d adCopyId userId = true ->
  exists a,
    getOwnedAdCopy adCopyId userId d
    = mkOutcome (inr a) d [SELECT T_AdCopies]
    /\ In a (AdCopies d)
    /\ AdCopy.id a = adCopyId /\ AdCopy.userId a = userId.
Proof.
  intros E. unfold getOwnedAdCopy, bind, db_select. simpl.
  rewrite first_filter_find. unfold ownsAdCopy in E.
  destruct (find _ (AdCopies d)) as [a|] eqn:F.
  - exists a. apply find_some in F. destruct F as [I P].
    apply andb_prop in P. destruct P as [P1 P2].
    apply String.eqb_eq in P1, P2. simpl. auto.
  - apply existsb_exists in E. destruct E as (x & I & P).
    now rewrite (find_none _ _ F x I) in P.
Qed.

(** ** Running a handler step by step *)

Lemma bind_ret {A B} (a : A) (k : A -> M B) (d : DB) :
  bind (ret a) k d = k a d.
Proof. unfold bind, ret. simpl. now destruct (k a d). Qed.

Lemma bind_thrown {A B} (m : M A) (k : A -> M B) (d d' : DB) e l :
  m d = mkOutcome (inl e) d' l ->
  bind m k d = mkOutcome (inl e) d' l.
Proof. intros E. unfold bind. now rewrite E. Qed.

Lemma bind_returned {A B} (m : M A) (k : A -> M B) (d d' : DB) a l :
  m d = mkOutcome (inr a) d' l ->
  bind m k d
  = mkOutcome (result (k a d')) (store (k a d')) (l ++ log (k a d')).
Proof. intros E. unfold bind. now rewrite E. Qed.

Lemma bind_select {R B} `{Table R} (p : R -> bool) (k : list R -> M B)
    (d : DB) :
  bind (db_select p) k d
  = let o := k (filter p (rows d)) d in
    mkOutcome (result o) (store o) (SELECT tableName :: log o).
Proof. reflexivity. Qed.

Lemma bind_update {R B} `{Table R} (s : Payload) (p : R -> bool)
    (k : list R -> M B) (d : DB) :
  bind (db_update s p) k d
  = let o := k (map (applySet s) (filter p (rows d)))
               (withRows (map (fun r => if p r then applySet s r else r)
                              (rows d)) d) in
    mkOutcome (result o) (store o) (UPDATE tableName :: log o).
Proof. reflexivity. Qed.

Lemma bind_delete {R B} `{Table R} (p : R -> bool) (k : nat -> M B)
    (d : DB) :
  existsb (referenced d) (filter p (rows d)) = false ->
  bind (db_delete p) k d
  = let o := k (length (filter p (rows d)))
               (withRows (filter (fun r => negb (p r)) (rows d)) d) in
    mkOutcome (result o) (store o) (DELETE tableName :: log o).
Proof. intros E. unfold bind, db_delete. now rewrite E. Qed.

Lemma bind_delete_refused {R B} `{Table R} (p : R -> bool) (k : nat -> M B)
    (d : DB) :
  existsb (referenced d) (filter p (rows d)) = true ->
  bind (db_delete p) k d
  = mkOutcome (inl (StoreError tableName)) d [DELETE tableName].
Proof. intros E. unfold bind, db_delete. now rewrite E. Qed.

Lemma bind_insert_fresh {R B} `{Table R} (r : R) (k : list R -> M B)
    (d : DB) :
  existsb (fun r' => String.eqb (primaryKey r') (primaryKey r)) (rows d)
  = false ->
  bind (db_insert r) k d
  = let o := k [r] (withRows (rows d ++ [r]) d) in
    mkOutcome (result o) (store o) (INSERT tableName :: log o).
Proof. intros E. unfold bind, db_insert. now rewrite E. Qed.

Lemma bind_insert_taken {R B} `{Table R} (r : R) (k : list R -> M B)
    (d : DB) :
  existsb (fun r' => String.eqb (primaryKey r') (primaryKey r)) (rows d)
  = true ->
  bind (db_insert r) k d
  = mkOutcome (inl (StoreError tableName)) d [INSERT tableName].
Proof. intros E. unfold bind, db_insert. now rewrite E. Qed.

Lemma requireUser_signedIn (u : string) :
  requireUser (signedIn u) = ret (User.mk u).
Proof. reflexivity. Qed.

Lemma withRows_same (d : DB) :
  withRows (AdCampaigns d) d = d
  /\ withRows (AdCopies d) d = d
  /\ withRows (AdPerformance d) d = d.
Proof. destruct d. repeat split. Qed.

(** Unfolds an action on an input its schema accepts, called by a signed-in
    user. *)
Ltac enter V :=
  unfold server.createCampaign, server.updateCampaign, server.listCampaigns,
    server.createAdCopy, server.updateAdCopy, server.deleteAdCopy,
    server.listAdCopies, server.logAdPerformance, server.listAdPerformance,
    defineAction;
  try rewrite V;
  try (rewrite requireUser_signedIn, bind_ret).

(** ** Identity comes first *)

(** With no user in the context, no action reaches the store, whatever its
    input. *)
Lemma anonymous_call_touches_nothing (c : Call) (context : ActionAPIContext)
    (env : Env) (d : DB) :
  currentUser context = None ->
  log (invoke c context env d) = []
  /\ store (invoke c context env d) = d
  /\ exists e, result (invoke c context env d) = inl e.
Proof.
  intros N.
  destruct c; simpl; enter N; unfold requireUser, bind; rewrite N;
    try (simpl; eauto; fail);
    match goal with
    | |- context [match ?s with [] => _ | _ :: _ => _ end] =>
        destruct s; simpl; eauto
    end.
Qed.

(** C8 (the schema comes first): a call whose context carries no user fails
    with UNAUTHORIZED when its input is one the schema accepts, and with the
    validation error of the schema when it is not; in both cases it sends no
    statement to the store and leaves the store as it was.  This holds for
    each of the nine actions. *)
Theorem anonymous_call_unauthorized (c : Call) (context : ActionAPIContext)
    (env : Env) (d : DB) :
  currentUser context = None ->
  invoke c context env d
  = mkOutcome
      (inl match issues c with
           | [] => ActionError UNAUTHORIZED
                     "You must be signed in to perform this action."
           | rejected => InputError rejected
           end)
      d [].
Proof.
  intros N.
  destruct c; simpl;
    unfold server.createCampaign, server.updateCampaign, server.listCampaigns,
      server.createAdCopy, server.updateAdCopy, server.deleteAdCopy,
      server.listAdCopies, server.logAdPerformance, server.listAdPerformance,
      defineAction;
    try match goal with
        | |- context [match ?s with [] => _ | _ :: _ => _ end] =>
            destruct s; [|reflexivity]
        end;
    unfold requireUser, bind; rewrite N; reflexivity.
Qed.

Lemma anonymous_call_unauthorized_witness :
  invoke (call_deleteAdCopy (DeleteAdCopy.mk "a1" "c1")) anonymous
         (mkEnv 5 "x") (mkDB [] [] [])
  = mkOutcome
      (inl (ActionError UNAUTHORIZED
              "You must be signed in to perform this action."))
      (mkDB [] [] []) [].
Proof.
  apply (anonymous_call_unauthorized
           (call_deleteAdCopy (DeleteAdCopy.mk "a1" "c1")) anonymous
           (mkEnv 5 "x") (mkDB [] [] [])); reflexivity.
Defined.

(** An anonymous createCampaign with an empty name is answered by the
    validation error of the schema, not by UNAUTHORIZED. *)
Lemma anonymous_rejected_input_is_not_unauthorized :
  let o := server.createCampaign (CreateCampaign.mk "" None None None None)
             anonymous sampleEnv sampleStore in
  errorCode o <> Some UNAUTHORIZED
  /\ result o = inl (InputError [too_small "name"]).
Proof.
  split; [|reflexivity]. vm_compute. discriminate.
Qed.

(** ** An update must name a field *)

(** C3 (message as the code has it): an updateCampaign or updateAdCopy call
    that supplies none of the optional fields is rejected by the schema with
    the message "At least one field must be provided to update." (the full
    stop is part of it); no statement is sent to the store and no row
    changes. *)
Theorem update_without_fields_rejected (id campaignId : string)
    (context : ActionAPIContext) (env : Env) (d : DB) :
  let oc := server.updateCampaign
              (UpdateCampaign.mk id None None None None None) context env d in
  let oa := server.updateAdCopy
              (UpdateAdCopy.mk id campaignId None None None None None None
                 None None) context env d in
  ((exists l, result oc = inl (InputError l))
   /\ messages oc = ["At least one field must be provided to update."]
   /\ log oc = [] /\ store oc = d)
  /\ ((exists l, result oa = inl (InputError l))
      /\ messages oa = ["At least one field must be provided to update."]
      /\ log oa = [] /\ store oa = d).
Proof.
  unfold server.updateCampaign, server.updateAdCopy, defineAction,
    UpdateCampaign.input, UpdateAdCopy.input, min1.
  simpl.
  destruct (String.length id <? 1)%nat, (String.length campaignId <? 1)%nat;
    simpl; repeat split; eauto.
Qed.

(** The message of the rejection is not the one without the full stop. *)
Lemma update_without_fields_message_differs :
  ~ In "At least one field must be provided to update"
       (messages (server.updateCampaign
                    (UpdateCampaign.mk "c1" None None None None None)
                    (signedIn "u1") (mkEnv 0 "x") (mkDB [] [] []))).
Proof.
  vm_compute. intros [H|[]]. discriminate H.
Qed.

(** ** The ownership guard on mutations *)

Lemma primaryKeysOk_parts (d : DB) :
  primaryKeysOk d = true ->
  distinct (map Campaign.id (AdCampaigns d)) = true
  /\ distinct (map AdCopy.id (AdCopies d)) = true
  /\ distinct (map Performance.id (AdPerformance d)) = true.
Proof.
  unfold primaryKeysOk. intros H.
  apply andb_prop in H. destruct H as [H H3].
  apply andb_prop in H. destruct H as [H1 H2]. auto.
Qed.

Lemma absent_no_campaign (d : DB) (id u : string) :
  owner d (T_AdCampaigns, id) = None ->
  ownsCampaign d id u = false.
Proof.
  unfold owner, ownsCampaign. simpl. intros O.
  destruct (find _ (AdCampaigns d)) as [c|] eqn:F; [discriminate|].
  apply (existsb_weaken (fun c => String.eqb (Campaign.id c) id)).
  - intros x P. apply andb_prop in P. tauto.
  - destruct (existsb _ (AdCampaigns d)) eqn:X; [|reflexivity].
    apply existsb_exists in X. destruct X as (x & I & P).
    now rewrite (find_none _ _ F x I) in P.
Qed.

Lemma foreign_no_campaign (d : DB) (id u1 u2 : string) :
  primaryKeysOk d = true ->
  owner d (T_AdCampaigns, id) = Some u1 ->
  u1 <> u2 ->
  ownsCampaign d id u2 = false.
Proof.
  unfold owner, ownsCampaign. simpl. intros K O N.
  destruct (find _ (AdCampaigns d)) as [c|] eqn:F; [|discriminate].
  simpl in O. apply find_some in F. destruct F as [I E].
  apply String.eqb_eq in E.
  apply (existsb_by_key Campaign.id _ _ c);
    [apply (primaryKeysOk_parts d K) | exact I | |].
  - apply andb_false_iff. right. apply String.eqb_neq. congruence.
  - intros y P. apply andb_prop in P. destruct P as [P _].
    apply String.eqb_eq in P. congruence.
Qed.

Lemma absent_no_adCopy (d : DB) (id u : string) :
  owner d (T_AdCopies, id) = None ->
  ownsAdCopy d id u = false.
Proof.
  unfold owner, ownsAdCopy. simpl. intros O.
  destruct (find _ (AdCopies d)) as [a|] eqn:F; [discriminate|].
  apply (existsb_weaken (fun a => String.eqb (AdCopy.id a) id)).
  - intros x P. apply andb_prop in P. tauto.
  - destruct (existsb _ (AdCopies d)) eqn:X; [|reflexivity].
    apply existsb_exists in X. destruct X as (x & I & P).
    now rewrite (find_none _ _ F x I) in P.
Qed.

Lemma foreign_no_adCopy (d : DB) (id u1 u2 : string) :
  primaryKeysOk d = true ->
  owner d (T_AdCopies, id) = Some u1 ->
  u1 <> u2 ->
  ownsAdCopy d id u2 = false.
Proof.
  unfold owner, ownsAdCopy. simpl. intros K O N.
  destruct (find _ (AdCopies d)) as [a|] eqn:F; [|discriminate].
  simpl in O. apply find_some in F. destruct F as [I E].
  apply String.eqb_eq in E.
  apply (existsb_by_key AdCopy.id _ _ a);
    [apply (primaryKeysOk_parts d K) | exact I | |].
  - apply andb_false_iff. right. apply String.eqb_neq. congruence.
  - intros y P. apply andb_prop in P. destruct P as [P _].
    apply String.eqb_eq in P. congruence.
Qed.

(** The three actions whose first guard is on the target itself. *)

Lemma updateCampaign_not_owned i u env d :
  UpdateCampaign.input i = [] ->
  ownsCampaign d (UpdateCampaign.id i) u = false ->
  server.updateCampaign i (signedIn u) env d
  = mkOutcome (inl (ActionError NOT_FOUND "Campaign not found.")) d
              [SELECT T_AdCampaigns].
Proof.
  intros V O. enter V.
  apply bind_thrown. now apply getOwnedCampaign_miss.
Qed.

Lemma createAdCopy_not_owned i u env d :
  CreateAdCopy.input i = [] ->
  ownsCampaign d (CreateAdCopy.campaignId i) u = false ->
  server.createAdCopy i (signedIn u) env d
  = mkOutcome (inl (ActionError NOT_FOUND "Campaign not found.")) d
              [SELECT T_AdCampaigns].
Proof.
  intros V O. enter V.
  apply bind_thrown. now apply getOwnedCampaign_miss.
Qed.

Lemma logAdPerformance_not_owned i u env d :
  LogAdPerformance.input i = [] ->
  ownsAdCopy d (LogAdPerformance.adCopyId i) u = false ->
  server.logAdPerformance i (signedIn u) env d
  = mkOutcome (inl (ActionError NOT_FOUND "Ad copy not found.")) d
              [SELECT T_AdCopies].
Proof.
  intros V O. enter V.
  apply bind_thrown. now apply getOwnedAdCopy_miss.
Qed.

(** updateAdCopy and deleteAdCopy look the supplied campaign up first and
    then match the ad copy on id, campaign and owner together. *)

Lemma updateAdCopy_campaign_missing i u env d :
  UpdateAdCopy.input i = [] ->
  ownsCampaign d (UpdateAdCopy.campaignId i) u = false ->
  server.updateAdCopy i (signedIn u) env d
  = mkOutcome (inl (ActionError NOT_FOUND "Campaign not found.")) d
              [SELECT T_AdCampaigns].
Proof.
  intros V O. enter V.
  apply bind_thrown. now apply getOwnedCampaign_miss.
Qed.

Lemma updateAdCopy_adCopy_missing i u env d :
  UpdateAdCopy.input i = [] ->
  ownsCampaign d (UpdateAdCopy.campaignId i) u = true ->
  existsb (matchesAdCopy (UpdateAdCopy.id i) (UpdateAdCopy.campaignId i) u)
          (AdCopies d) = false ->
  server.updateAdCopy i (signedIn u) env d
  = mkOutcome (inl (ActionError NOT_FOUND "Ad copy not found.")) d
              [SELECT T_AdCampaigns; SELECT T_AdCopies].
Proof.
  intros V O X. enter V.
  destruct (getOwnedCampaign_hit d _ _ O) as (c & G & _).
  rewrite (bind_returned _ _ _ _ _ _ G).
  unfold bind, db_select. simpl.
  unfold matchesAdCopy in X. now rewrite (filter_existsb_false _ _ X).
Qed.

Lemma deleteAdCopy_campaign_missing i u env d :
  DeleteAdCopy.input i = [] ->
  ownsCampaign d (DeleteAdCopy.campaignId i) u = false ->
  server.deleteAdCopy i (signedIn u) env d
  = mkOutcome (inl (ActionError NOT_FOUND "Campaign not found.")) d
              [SELECT T_AdCampaigns].
Proof.
  intros V O. enter V.
  apply bind_thrown. now apply getOwnedCampaign_miss.
Qed.

Lemma deleteAdCopy_adCopy_missing i u env d :
  DeleteAdCopy.input i = [] ->
  ownsCampaign d (DeleteAdCopy.campaignId i) u = true ->
  existsb (matchesAdCopy (DeleteAdCopy.id i) (DeleteAdCopy.campaignId i) u)
          (AdCopies d) = false ->
  server.deleteAdCopy i (signedIn u) env d
  = mkOutcome (inl (ActionError NOT_FOUND "Ad copy not found.")) d
              [SELECT T_AdCampaigns; DELETE T_AdCopies].
Proof.
  intros V O X. enter V.
  destruct (getOwnedCampaign_hit d _ _ O) as (c & G & _).
  rewrite (bind_returned _ _ _ _ _ _ G).
  unfold matchesAdCopy in X.
  rewrite bind_delete; cbn [rows withRows tableName AdCopyTable User.id];
    rewrite (filter_existsb_false _ _ X); [|reflexivity].
  rewrite (filter_negb_unmatched _ _ X).
  simpl. now destruct d.
Qed.

Lemma matchesAdCopy_owned (d : DB) (id campaignId u : string) :
  ownsAdCopy d id u = false ->
  existsb (matchesAdCopy id campaignId u) (AdCopies d) = false.
Proof.
  intros O. unfold ownsAdCopy in O. revert O. apply existsb_weaken.
  intros a P. unfold matchesAdCopy in P.
  apply andb_prop in P. destruct P as [P P3].
  apply andb_prop in P. destruct P as [P1 P2].
  now rewrite P1, P3.
Qed.

Lemma updateAdCopy_not_owned i u env d :
  UpdateAdCopy.input i = [] ->
  ownsAdCopy d (UpdateAdCopy.id i) u = false ->
  errorCode (server.updateAdCopy i (signedIn u) env d) = Some NOT_FOUND
  /\ store (server.updateAdCopy i (signedIn u) env d) = d.
Proof.
  intros V O.
  destruct (ownsCampaign d (UpdateAdCopy.campaignId i) u) eqn:C.
  - rewrite (updateAdCopy_adCopy_missing i u env d V C); [split; reflexivity|].
    now apply matchesAdCopy_owned.
  - rewrite (updateAdCopy_campaign_missing i u env d V C). split; reflexivity.
Qed.

Lemma deleteAdCopy_not_owned i u env d :
  DeleteAdCopy.input i = [] ->
  ownsAdCopy d (DeleteAdCopy.id i) u = false ->
  errorCode (server.deleteAdCopy i (signedIn u) env d) = Some NOT_FOUND
  /\ store (server.deleteAdCopy i (signedIn u) env d) = d.
Proof.
  intros V O.
  destruct (ownsCampaign d (DeleteAdCopy.campaignId i) u) eqn:C.
  - rewrite (deleteAdCopy_adCopy_missing i u env d V C); [split; reflexivity|].
    now apply matchesAdCopy_owned.
  - rewrite (deleteAdCopy_campaign_missing i u env d V C). split; reflexivity.
Qed.

(** A mutation aimed at a resource that no stored row gives to the caller is
    answered NOT_FOUND and changes nothing. *)
Lemma unowned_target_not_found (c : Call) (t : TableName * string)
    (u : string) (env : Env) (d : DB) :
  issues c = [] ->
  In t (targets c) ->
  match fst t with
  | T_AdCampaigns => ownsCampaign d (snd t) u = false
  | T_AdCopies => ownsAdCopy d (snd t) u = false
  | T_AdPerformance => False
  end ->
  errorCode (invoke c (signedIn u) env d) = Some NOT_FOUND
  /\ store (invoke c (signedIn u) env d) = d.
Proof.
  intros V T O.
  destruct c; simpl in *;
    repeat match goal with
           | H : _ \/ _ |- _ => destruct H as [<-|H]
           | H : False |- _ => contradiction
           end; simpl in O.
  - now rewrite updateCampaign_not_owned.
  - now rewrite createAdCopy_not_owned.
  - now apply updateAdCopy_not_owned.
  - now rewrite updateAdCopy_campaign_missing.
  - now apply deleteAdCopy_not_owned.
  - now rewrite deleteAdCopy_campaign_missing.
  - now rewrite logAdPerformance_not_owned.
Qed.

(** ** Sparse updates *)

Lemma distinct_key_inj {A} (key : A -> string) (l : list A) (x y : A) :
  distinct (map key l) = true ->
  In x l -> In y l -> key x = key y -> x = y.
Proof.
  induction l as [|a l IH]; [contradiction|].
  simpl. intros D Ix Iy K.
  apply andb_prop in D. destruct D as [F D]. apply negb_true_iff in F.
  destruct Ix as [->|Ix], Iy as [->|Iy]; auto.
  - exfalso. apply (distinct_head_fresh key x l y F Iy). congruence.
  - exfalso. apply (distinct_head_fresh key y l x F Ix). congruence.
Qed.

(** Under a unique key, an update that pins the key rewrites one row. *)
Lemma map_if_by_key {A} (key : A -> string) (p : A -> bool) (f : A -> A)
    (l : list A) (x : A) :
  distinct (map key l) = true ->
  In x l ->
  (forall y, p y = true -> key y = key x) ->
  map (fun r => if p r then f r else r) l
  = map (fun r => if p r then f x else r) l.
Proof.
  intros D I K. apply map_ext_in. intros r Ir.
  destruct (p r) eqn:P; [|reflexivity].
  f_equal. apply (distinct_key_inj key l); auto.
Qed.

Lemma ownsCampaign_of_row (d : DB) (c : Campaign.t) :
  In c (AdCampaigns d) ->
  ownsCampaign d (Campaign.id c) (Campaign.userId c) = true.
Proof.
  intros I. apply existsb_exists. exists c. split; [exact I|].
  now rewrite !String.eqb_refl.
Qed.

(** What the payload of updateCampaign makes of a row. *)
Lemma updateCampaign_payload (n o p t s : option string) (at_ : Date)
    (c : Campaign.t) :
  applySet (spread "name" n ++ spread "objective" o
            ++ spread "productName" p ++ spread "targetAudience" t
            ++ spread "notes" s ++ [("updatedAt", VDate at_)]) c
  = Campaign.mk (Campaign.id c) (Campaign.userId c)
      (orElse n (Campaign.name c))
      (orKeep o (Campaign.objective c))
      (orKeep p (Campaign.productName c))
      (orKeep t (Campaign.targetAudience c))
      (orKeep s (Campaign.notes c))
      (Campaign.createdAt c) at_.
Proof. destruct c, n, o, p, t, s; reflexivity. Qed.

(** What the payload of updateAdCopy makes of a row. *)
Lemma updateAdCopy_payload (p h t de c to v u : option string) (at_ : Date)
    (a : AdCopy.t) :
  applySet (spread "platform" p ++ spread "headline" h
            ++ spread "primaryText" t ++ spread "description" de
            ++ spread "callToAction" c ++ spread "tone" to
            ++ spread "variantLabel" v ++ spread "url" u
            ++ [("updatedAt", VDate at_)]) a
  = AdCopy.mk (AdCopy.id a) (AdCopy.campaignId a) (AdCopy.userId a)
      (orKeep p (AdCopy.platform a))
      (orKeep h (AdCopy.headline a))
      (orElse t (AdCopy.primaryText a))
      (orKeep de (AdCopy.description a))
      (orKeep c (AdCopy.callToAction a))
      (orKeep to (AdCopy.tone a))
      (orKeep v (AdCopy.variantLabel a))
      (orKeep u (AdCopy.url a))
      (AdCopy.createdAt a) at_.
Proof.
  rewrite !app_assoc. unfold applySet. rewrite fold_left_app. simpl.
  set (l := ((((((_ ++ _) ++ _) ++ _) ++ _) ++ _) ++ _) ++ _).
  replace (fold_left _ l a)
    with (AdCopy.mk (AdCopy.id a) (AdCopy.campaignId a) (AdCopy.userId a)
            (orKeep p (AdCopy.platform a))
            (orKeep h (AdCopy.headline a))
            (orElse t (AdCopy.primaryText a))
            (orKeep de (AdCopy.description a))
            (orKeep c (AdCopy.callToAction a))
            (orKeep to (AdCopy.tone a))
            (orKeep v (AdCopy.variantLabel a))
            (orKeep u (AdCopy.url a))
            (AdCopy.createdAt a) (AdCopy.updatedAt a)); [reflexivity|].
  subst l. destruct a, p, h, t, de, c, to, v, u; reflexivity.
Qed.

Lemma updateCampaign_run i u env d c :
  primaryKeysOk d = true ->
  In c (AdCampaigns d) ->
  Campaign.userId c = u ->
  UpdateCampaign.id i = Campaign.id c ->
  UpdateCampaign.input i = [] ->
  let c' := Campaign.mk (Campaign.id c) (Campaign.userId c)
              (orElse (UpdateCampaign.name i) (Campaign.name c))
              (orKeep (UpdateCampaign.objective i) (Campaign.objective c))
              (orKeep (UpdateCampaign.productName i) (Campaign.productName c))
              (orKeep (UpdateCampaign.targetAudience i)
                      (Campaign.targetAudience c))
              (orKeep (UpdateCampaign.notes i) (Campaign.notes c))
              (Campaign.createdAt c) (now env) in
  server.updateCampaign i (signedIn u) env d
  = mkOutcome (inr (data_campaign (Some c')))
      (mkDB (map (fun r => if String.eqb (Campaign.id r) (Campaign.id c)
                           then c' else r) (AdCampaigns d))
            (AdCopies d) (AdPerformance d))
      [SELECT T_AdCampaigns; UPDATE T_AdCampaigns].
Proof.
  intros K I U E V c'. enter V.
  assert (O : ownsCampaign d (UpdateCampaign.id i) u = true)
    by (rewrite E, <- U; now apply ownsCampaign_of_row).
  destruct (getOwnedCampaign_hit d _ _ O) as (c0 & G & _).
  rewrite (bind_returned _ _ _ _ _ _ G).
  assert (P : forall y, String.eqb (Campaign.id y) (UpdateCampaign.id i) = true
                        -> Campaign.id y = Campaign.id c)
    by (intros y H; apply String.eqb_eq in H; congruence).
  destruct (primaryKeysOk_parts d K) as (K1 & _).
  rewrite bind_update.
  cbn [rows withRows tableName CampaignTable].
  rewrite (filter_by_key Campaign.id _ _ c K1 I); auto;
    [|rewrite E; apply String.eqb_refl].
  rewrite (map_if_by_key Campaign.id _ _ _ c K1 I P).
  cbn [map first ret result store log app].
  rewrite updateCampaign_payload, E. reflexivity.
Qed.

Lemma updateAdCopy_run i u env d a :
  primaryKeysOk d = true ->
  In a (AdCopies d) ->
  AdCopy.userId a = u ->
  UpdateAdCopy.id i = AdCopy.id a ->
  UpdateAdCopy.campaignId i = AdCopy.campaignId a ->
  ownsCampaign d (AdCopy.campaignId a) u = true ->
  UpdateAdCopy.input i = [] ->
  let a' := AdCopy.mk (AdCopy.id a) (AdCopy.campaignId a) (AdCopy.userId a)
              (orKeep (UpdateAdCopy.platform i) (AdCopy.platform a))
              (orKeep (UpdateAdCopy.headline i) (AdCopy.headline a))
              (orElse (UpdateAdCopy.primaryText i) (AdCopy.primaryText a))
              (orKeep (UpdateAdCopy.description i) (AdCopy.description a))
              (orKeep (UpdateAdCopy.callToAction i) (AdCopy.callToAction a))
              (orKeep (UpdateAdCopy.tone i) (AdCopy.tone a))
              (orKeep (UpdateAdCopy.variantLabel i) (AdCopy.variantLabel a))
              (orKeep (UpdateAdCopy.url i) (AdCopy.url a))
              (AdCopy.createdAt a) (now env) in
  server.updateAdCopy i (signedIn u) env d
  = mkOutcome (inr (data_adCopy (Some a')))
      (mkDB (AdCampaigns d)
            (map (fun r => if String.eqb (AdCopy.id r) (AdCopy.id a)
                           then a' else r) (AdCopies d))
            (AdPerformance d))
      [SELECT T_AdCampaigns; SELECT T_AdCopies; UPDATE T_AdCopies].
Proof.
  intros K I U E EC O V a'. enter V. rewrite EC.
  destruct (getOwnedCampaign_hit d _ _ O) as (c0 & G & _).
  rewrite (bind_returned _ _ _ _ _ _ G).
  assert (P : forall y, String.eqb (AdCopy.id y) (UpdateAdCopy.id i) = true
                        -> AdCopy.id y = AdCopy.id a)
    by (intros y H; apply String.eqb_eq in H; congruence).
  destruct (primaryKeysOk_parts d K) as (_ & K2 & _).
  rewrite bind_select.
  cbn [rows withRows tableName AdCopyTable].
  rewrite (filter_by_key AdCopy.id _ _ a K2 I).
  - cbn [first]. rewrite bind_update.
    cbn [rows withRows tableName AdCopyTable].
    rewrite (filter_by_key AdCopy.id _ _ a K2 I); auto;
      [|rewrite E; apply String.eqb_refl].
    rewrite (map_if_by_key AdCopy.id _ _ _ a K2 I P).
    cbn [map first ret result store log app].
    rewrite updateAdCopy_payload, E. reflexivity.
  - now rewrite E, U, !String.eqb_refl.
  - intros y H. apply andb_prop in H. destruct H as [H _].
    apply andb_prop in H. destruct H as [H _]. now apply P.
Qed.

(** C2 (updatedAt as the clock reads): an updateCampaign (resp.
    updateAdCopy) call by the owner of a stored campaign (resp. ad copy),
    with an input the schema accepts, returns the stored row in which every
    field the input leaves out keeps its value, every field the input
    supplies has the supplied value, and updatedAt is the clock reading of
    the call, whatever the former value: it is not before the former
    updatedAt exactly when the clock reading is not.  That row replaces the
    former one and no other row changes. *)
Theorem sparse_update_frame :
  (forall i u env d c,
     primaryKeysOk d = true ->
     In c (AdCampaigns d) ->
     Campaign.userId c = u ->
     UpdateCampaign.id i = Campaign.id c ->
     UpdateCampaign.input i = [] ->
     let o := server.updateCampaign i (signedIn u) env d in
     exists c',
       result o = inr (data_campaign (Some c'))
       /\ Campaign.id c' = Campaign.id c
       /\ Campaign.userId c' = Campaign.userId c
       /\ Campaign.createdAt c' = Campaign.createdAt c
       /\ Campaign.name c' = orElse (UpdateCampaign.name i) (Campaign.name c)
       /\ Campaign.objective c'
          = orKeep (UpdateCampaign.objective i) (Campaign.objective c)
       /\ Campaign.productName c'
          = orKeep (UpdateCampaign.productName i) (Campaign.productName c)
       /\ Campaign.targetAudience c'
          = orKeep (UpdateCampaign.targetAudience i)
                   (Campaign.targetAudience c)
       /\ Campaign.notes c'
          = orKeep (UpdateCampaign.notes i) (Campaign.notes c)
       /\ Campaign.updatedAt c' = now env
       /\ (Campaign.updatedAt c <= Campaign.updatedAt c'
           <-> Campaign.updatedAt c <= now env)
       /\ AdCampaigns (store o)
          = map (fun r => if String.eqb (Campaign.id r) (Campaign.id c)
                          then c' else r) (AdCampaigns d)
       /\ AdCopies (store o) = AdCopies d
       /\ AdPerformance (store o) = AdPerformance d)
  /\ (forall i u env d a,
        primaryKeysOk d = true ->
        In a (AdCopies d) ->
        AdCopy.userId a = u ->
        UpdateAdCopy.id i = AdCopy.id a ->
        UpdateAdCopy.campaignId i = AdCopy.campaignId a ->
        ownsCampaign d (AdCopy.campaignId a) u = true ->
        UpdateAdCopy.input i = [] ->
        let o := server.updateAdCopy i (signedIn u) env d in
        exists a',
          result o = inr (data_adCopy (Some a'))
          /\ AdCopy.id a' = AdCopy.id a
          /\ AdCopy.campaignId a' = AdCopy.campaignId a
          /\ AdCopy.userId a' = AdCopy.userId a
          /\ AdCopy.createdAt a' = AdCopy.createdAt a
          /\ AdCopy.platform a'
             = orKeep (UpdateAdCopy.platform i) (AdCopy.platform a)
          /\ AdCopy.headline a'
             = orKeep (UpdateAdCopy.headline i) (AdCopy.headline a)
          /\ AdCopy.primaryText a'
             = orElse (UpdateAdCopy.primaryText i) (AdCopy.primaryText a)
          /\ AdCopy.description a'
             = orKeep (UpdateAdCopy.description i) (AdCopy.description a)
          /\ AdCopy.callToAction a'
             = orKeep (UpdateAdCopy.callToAction i) (AdCopy.callToAction a)
          /\ AdCopy.tone a' = orKeep (UpdateAdCopy.tone i) (AdCopy.tone a)
          /\ AdCopy.variantLabel a'
             = orKeep (UpdateAdCopy.variantLabel i) (AdCopy.variantLabel a)
          /\ AdCopy.url a' = orKeep (UpdateAdCopy.url i) (AdCopy.url a)
          /\ AdCopy.updatedAt a' = now env
          /\ (AdCopy.updatedAt a <= AdCopy.updatedAt a'
              <-> AdCopy.updatedAt a <= now env)
          /\ AdCampaigns (store o) = AdCampaigns d
          /\ AdCopies (store o)
             = map (fun r => if String.eqb (AdCopy.id r) (AdCopy.id a)
                             then a' else r) (AdCopies d)
          /\ AdPerformance (store o) = AdPerformance d).
Proof.
  split.
  - intros i u env d c K I U E V o. subst o.
    rewrite (updateCampaign_run i u env d c K I U E V).
    eexists. split; [reflexivity|]. cbn. repeat split; auto.
  - intros i u env d a K I U E EC O V o. subst o.
    rewrite (updateAdCopy_run i u env d a K I U E EC O V).
    eexists. split; [reflexivity|]. cbn. repeat split; auto.
Qed.

Lemma sparse_update_frame_witness :
  (exists c',
     result (server.updateCampaign
               (UpdateCampaign.mk "c1" None (Some "leads") None None None)
               (signedIn "u1") sampleEnv sampleStore)
     = inr (data_campaign (Some c'))
     /\ Campaign.name c' = "Spring Sale"
     /\ Campaign.objective c' = Some "leads"
     /\ Campaign.notes c' = Some "draft"
     /\ 10 <= Campaign.updatedAt c')
  /\ (exists a',
        result (server.updateAdCopy
                  (UpdateAdCopy.mk "a2" "c2" None None None None
                     (Some "Shop now") None None None)
                  (signedIn "u2") sampleEnv sampleStore)
        = inr (data_adCopy (Some a'))
        /\ AdCopy.platform a' = Some "google"
        /\ AdCopy.primaryText a' = "Buy now"
        /\ AdCopy.callToAction a' = Some "Shop now"
        /\ 21 <= AdCopy.updatedAt a').
Proof.
  split.
  - destruct (proj1 sparse_update_frame
                (UpdateCampaign.mk "c1" None (Some "leads") None None None)
                "u1" sampleEnv sampleStore
                (Campaign.mk "c1" "u1" "Spring Sale" None None None
                   (Some "draft") 10 10))
      as (c' & R & _ & _ & _ & N & O & _ & _ & S & _ & T & _);
      [reflexivity | simpl; auto | reflexivity | reflexivity | reflexivity
      | ].
    exists c'. repeat split; auto. apply T. simpl. lia.
  - destruct (proj2 sparse_update_frame
                (UpdateAdCopy.mk "a2" "c2" None None None None
                   (Some "Shop now") None None None)
                "u2" sampleEnv sampleStore
                (AdCopy.mk "a2" "c2" "u2" (Some "google") None "Buy now" None
                   None None None None 21 21))
      as (a' & R & _ & _ & _ & _ & P & _ & X & _ & C & _ & _ & _ & _ & T & _);
      [reflexivity | simpl; auto | reflexivity | reflexivity | reflexivity
      | reflexivity | reflexivity | ].
    exists a'. repeat split; auto. apply T. simpl. lia.
Defined.

(** An update made at a clock reading earlier than the stored updatedAt
    lowers updatedAt. *)
Lemma update_at_an_earlier_clock_lowers_updatedAt :
  let o := server.updateCampaign
             (UpdateCampaign.mk "c1" None (Some "leads") None None None)
             (signedIn "u1") (mkEnv 5 "x") sampleStore in
  exists c',
    result o = inr (data_campaign (Some c'))
    /\ Campaign.updatedAt c' = 5
    /\ ~ (10 <= Campaign.updatedAt c').
Proof.
  eexists. split; [reflexivity|]. split; [reflexivity|]. simpl. lia.
Qed.

(** ** Listing campaigns *)

Lemma listCampaigns_run (input : option unit) (u : string) (env : Env)
    (d : DB) :
  let items := filter (fun c => String.eqb (Campaign.userId c) u)
                      (AdCampaigns d) in
  server.listCampaigns input (signedIn u) env d
  = mkOutcome (inr (data_campaigns items (length items))) d
              [SELECT T_AdCampaigns].
Proof. reflexivity. Qed.

(** C7: a stored campaign whose owner is u is among the items listCampaigns
    returns to u, the total returned being the number of items; it is not
    among the items returned to any other user. *)
Theorem listCampaigns_scoped_to_owner (input : option unit) (u : string)
    (env : Env) (d : DB) (c : Campaign.t) :
  In c (AdCampaigns d) ->
  Campaign.userId c = u ->
  (exists items,
     result (server.listCampaigns input (signedIn u) env d)
     = inr (data_campaigns items (length items))
     /\ In c items)
  /\ (forall u', u' <> u ->
        exists items,
          result (server.listCampaigns input (signedIn u') env d)
          = inr (data_campaigns items (length items))
          /\ ~ In c items).
Proof.
  intros I U. split.
  - eexists. rewrite listCampaigns_run. split; [reflexivity|].
    apply filter_In. split; [exact I|]. now apply String.eqb_eq.
  - intros u' N. eexists. rewrite listCampaigns_run. split; [reflexivity|].
    intros F. apply filter_In in F. destruct F as [_ F].
    apply String.eqb_eq in F. congruence.
Qed.

Lemma listCampaigns_scoped_to_owner_witness :
  (exists items,
     result (server.listCampaigns None (signedIn "u1") sampleEnv sampleStore)
     = inr (data_campaigns items (length items))
     /\ In (Campaign.mk "c1" "u1" "Spring Sale" None None None (Some "draft")
              10 10) items)
  /\ (forall u', u' <> "u1" ->
        exists items,
          result (server.listCampaigns None (signedIn u') sampleEnv
                    sampleStore)
          = inr (data_campaigns items (length items))
          /\ ~ In (Campaign.mk "c1" "u1" "Spring Sale" None None None
                     (Some "draft") 10 10) items).
Proof.
  apply (listCampaigns_scoped_to_owner None "u1" sampleEnv sampleStore
           (Campaign.mk "c1" "u1" "Spring Sale" None None None (Some "draft")
              10 10)).
  - simpl. auto.
  - reflexivity.
Defined.

(** ** Creating rows *)

Lemma createCampaign_run i u env d :
  CreateCampaign.input i = [] ->
  existsb (fun r => String.eqb (Campaign.id r) (randomUUID env))
          (AdCampaigns d) = false ->
  let c := Campaign.mk (randomUUID env) u (CreateCampaign.name i)
             (CreateCampaign.objective i) (CreateCampaign.productName i)
             (CreateCampaign.targetAudience i) (CreateCampaign.notes i)
             (now env) (now env) in
  server.createCampaign i (signedIn u) env d
  = mkOutcome (inr (data_campaign (Some c)))
      (mkDB (AdCampaigns d ++ [c]) (AdCopies d) (AdPerformance d))
      [INSERT T_AdCampaigns].
Proof.
  intros V F c. enter V.
  rewrite bind_insert_fresh; [reflexivity | exact F].
Qed.

Lemma createAdCopy_run i u env d :
  CreateAdCopy.input i = [] ->
  ownsCampaign d (CreateAdCopy.campaignId i) u = true ->
  existsb (fun r => String.eqb (AdCopy.id r) (randomUUID env))
          (AdCopies d) = false ->
  let a := AdCopy.mk (randomUUID env) (CreateAdCopy.campaignId i) u
             (CreateAdCopy.platform i) (CreateAdCopy.headline i)
             (CreateAdCopy.primaryText i) (CreateAdCopy.description i)
             (CreateAdCopy.callToAction i) (CreateAdCopy.tone i)
             (CreateAdCopy.variantLabel i) (CreateAdCopy.url i)
             (now env) (now env) in
  server.createAdCopy i (signedIn u) env d
  = mkOutcome (inr (data_adCopy (Some a)))
      (mkDB (AdCampaigns d) (AdCopies d ++ [a]) (AdPerformance d))
      [SELECT T_AdCampaigns; INSERT T_AdCopies].
Proof.
  intros V O F a. enter V.
  destruct (getOwnedCampaign_hit d _ _ O) as (c0 & G & _).
  rewrite (bind_returned _ _ _ _ _ _ G).
  rewrite bind_insert_fresh; [reflexivity | exact F].
Qed.

Lemma signedIn_of_currentUser (context : ActionAPIContext) (u : User.t) :
  currentUser context = Some u -> context = signedIn (User.id u).
Proof.
  destruct context as [[[o]|]]; unfold currentUser; simpl; try discriminate.
  intros ->. now destruct u.
Qed.

Lemma fresh_key {A} (key : A -> string) (k : string) (l : list A) :
  existsb (fun r => String.eqb (key r) k) l = false ->
  forall r, In r l -> key r <> k.
Proof.
  intros E r I. apply String.eqb_neq.
  exact (existsb_false_In (fun r => String.eqb (key r) k) l r E I).
Qed.

(** C9: whenever createCampaign (resp. createAdCopy) succeeds, the row it
    returns has the id the generator produced, which no stored row of the
    table had; its createdAt and updatedAt are both the time of the call;
    and the table afterwards is the former table followed by that very row,
    the other tables being unchanged. *)
Theorem create_returns_inserted_row :
  (forall i context env d data,
     let o := server.createCampaign i context env d in
     result o = inr data ->
     exists c,
       data = data_campaign (Some c)
       /\ Campaign.id c = randomUUID env
       /\ (forall r, In r (AdCampaigns d) -> Campaign.id r <> Campaign.id c)
       /\ Campaign.createdAt c = now env
       /\ Campaign.updatedAt c = now env
       /\ Campaign.createdAt c = Campaign.updatedAt c
       /\ AdCampaigns (store o) = AdCampaigns d ++ [c]
       /\ AdCopies (store o) = AdCopies d
       /\ AdPerformance (store o) = AdPerformance d)
  /\ (forall i context env d data,
        let o := server.createAdCopy i context env d in
        result o = inr data ->
        exists a,
          data = data_adCopy (Some a)
          /\ AdCopy.id a = randomUUID env
          /\ (forall r, In r (AdCopies d) -> AdCopy.id r <> AdCopy.id a)
          /\ AdCopy.createdAt a = now env
          /\ AdCopy.updatedAt a = now env
          /\ AdCopy.createdAt a = AdCopy.updatedAt a
          /\ AdCampaigns (store o) = AdCampaigns d
          /\ AdCopies (store o) = AdCopies d ++ [a]
          /\ AdPerformance (store o) = AdPerformance d).
Proof.
  split; intros i context env d data o R; subst o.
  - destruct (CreateCampaign.input i) as [|x l] eqn:V;
      [|unfold server.createCampaign, defineAction in R; rewrite V in R;
        discriminate].
    destruct (currentUser context) as [u|] eqn:U;
      [|destruct (anonymous_call_touches_nothing (call_createCampaign i)
                    context env d U) as (_ & _ & e & E);
        simpl in E; congruence].
    rewrite (signedIn_of_currentUser _ _ U) in *.
    destruct (existsb (fun r => String.eqb (Campaign.id r) (randomUUID env))
                      (AdCampaigns d)) eqn:F.
    + revert R. enter V. rewrite bind_insert_taken by exact F. discriminate.
    + rewrite (createCampaign_run i _ env d V F) in *.
      injection R as <-. eexists. split; [reflexivity|].
      cbn. repeat split; auto. now apply fresh_key.
  - destruct (CreateAdCopy.input i) as [|x l] eqn:V;
      [|unfold server.createAdCopy, defineAction in R; rewrite V in R;
        discriminate].
    destruct (currentUser context) as [u|] eqn:U;
      [|destruct (anonymous_call_touches_nothing (call_createAdCopy i)
                    context env d U) as (_ & _ & e & E);
        simpl in E; congruence].
    rewrite (signedIn_of_currentUser _ _ U) in *.
    destruct (ownsCampaign d (CreateAdCopy.campaignId i) (User.id u)) eqn:O;
      [|rewrite (createAdCopy_not_owned i _ env d V O) in R; discriminate].
    destruct (existsb (fun r => String.eqb (AdCopy.id r) (randomUUID env))
                      (AdCopies d)) eqn:F.
    + revert R. enter V.
      destruct (getOwnedCampaign_hit d _ _ O) as (c0 & G & _).
      rewrite (bind_returned _ _ _ _ _ _ G).
      rewrite bind_insert_taken by exact F. discriminate.
    + rewrite (createAdCopy_run i _ env d V O F) in *.
      injection R as <-. eexists. split; [reflexivity|].
      cbn. repeat split; auto. now apply fresh_key.
Qed.

Lemma create_returns_inserted_row_witness :
  (exists c,
     Campaign.id c = "fresh-id"
     /\ Campaign.createdAt c = Campaign.updatedAt c
     /\ AdCampaigns
          (store (server.createCampaign
                    (CreateCampaign.mk "Spring Sale" None None None None)
                    (signedIn "u1") sampleEnv sampleStore))
        = sampleCampaigns ++ [c])
  /\ (exists a,
        AdCopy.id a = "fresh-id"
        /\ AdCopy.createdAt a = AdCopy.updatedAt a
        /\ AdCopies
             (store (server.createAdCopy
                       (CreateAdCopy.mk "c1" None None "Save big" None None
                          None None None)
                       (signedIn "u1") sampleEnv sampleStore))
           = sampleAdCopies ++ [a]).
Proof.
  split.
  - destruct (proj1 create_returns_inserted_row
                (CreateCampaign.mk "Spring Sale" None None None None)
                (signedIn "u1") sampleEnv sampleStore
                (data_campaign
                   (Some (Campaign.mk "fresh-id" "u1" "Spring Sale" None None
                            None None 30 30))))
      as (c & _ & I & _ & _ & _ & T & S & _); [reflexivity|].
    exists c. auto.
  - destruct (proj2 create_returns_inserted_row
                (CreateAdCopy.mk "c1" None None "Save big" None None None None
                   None)
                (signedIn "u1") sampleEnv sampleStore
                (data_adCopy
                   (Some (AdCopy.mk "fresh-id" "c1" "u1" None None "Save big"
                            None None None None None 30 30))))
      as (a & _ & I & _ & _ & _ & T & _ & S & _); [reflexivity|].
    exists a. auto.
Defined.

(** ** Deleting an ad copy *)

Lemma filter_nil_existsb {A} (p : A -> bool) (l : list A) :
  filter p l = [] -> existsb p l = false.
Proof.
  induction l as [|x l IH]; simpl; [reflexivity|].
  destruct (p x); [discriminate|auto].
Qed.

(** Removing the one row a predicate selects takes one row off every
    selection that contained it. *)
Lemma length_filter_without {A} (p q : A -> bool) (l : list A) (a : A) :
  filter p l = [a] ->
  q a = true ->
  length (filter q l)
  = S (length (filter q (filter (fun r => negb (p r)) l))).
Proof.
  induction l as [|x l IH]; simpl; [discriminate|].
  intros F Q. destruct (p x) eqn:P; simpl.
  - injection F as -> F.
    rewrite (filter_negb_unmatched p l (filter_nil_existsb p l F)).
    now rewrite Q.
  - destruct (q x); simpl; rewrite (IH F Q); reflexivity.
Qed.

Lemma listAdCopies_run i u env d :
  ListAdCopies.input i = [] ->
  ownsCampaign d (ListAdCopies.campaignId i) u = true ->
  let items := filter (fun a =>
                 String.eqb (AdCopy.campaignId a) (ListAdCopies.campaignId i)
                 && String.eqb (AdCopy.userId a) u) (AdCopies d) in
  server.listAdCopies i (signedIn u) env d
  = mkOutcome (inr (data_adCopies items (length items))) d
              [SELECT T_AdCampaigns; SELECT T_AdCopies].
Proof.
  intros V O items. enter V.
  destruct (getOwnedCampaign_hit d _ _ O) as (c0 & G & _).
  rewrite (bind_returned _ _ _ _ _ _ G). reflexivity.
Qed.

Lemma matchesAdCopy_row (a : AdCopy.t) :
  matchesAdCopy (AdCopy.id a) (AdCopy.campaignId a) (AdCopy.userId a) a = true.
Proof. unfold matchesAdCopy. now rewrite !String.eqb_refl. Qed.

Lemma matchesAdCopy_id (id campaignId u : string) (a : AdCopy.t) :
  matchesAdCopy id campaignId u a = true -> AdCopy.id a = id.
Proof.
  unfold matchesAdCopy. intros P.
  apply andb_prop in P. destruct P as [P _].
  apply andb_prop in P. destruct P as [P _]. now apply String.eqb_eq.
Qed.

Lemma deleteAdCopy_selects i u d a :
  primaryKeysOk d = true ->
  In a (AdCopies d) ->
  AdCopy.id a = DeleteAdCopy.id i ->
  AdCopy.campaignId a = DeleteAdCopy.campaignId i ->
  AdCopy.userId a = u ->
  filter (matchesAdCopy (DeleteAdCopy.id i) (DeleteAdCopy.campaignId i) u)
         (AdCopies d) = [a].
Proof.
  intros K I E EC U. destruct (primaryKeysOk_parts d K) as (_ & K2 & _).
  rewrite <- E, <- EC, <- U.
  apply (filter_by_key AdCopy.id); auto using matchesAdCopy_row.
  intros y. apply matchesAdCopy_id.
Qed.

Lemma deleteAdCopy_run i u env d a :
  primaryKeysOk d = true ->
  In a (AdCopies d) ->
  AdCopy.id a = DeleteAdCopy.id i ->
  AdCopy.campaignId a = DeleteAdCopy.campaignId i ->
  AdCopy.userId a = u ->
  ownsCampaign d (DeleteAdCopy.campaignId i) u = true ->
  DeleteAdCopy.input i = [] ->
  hasPerformance d (DeleteAdCopy.id i) = false ->
  server.deleteAdCopy i (signedIn u) env d
  = mkOutcome (inr no_data)
      (mkDB (AdCampaigns d)
            (filter (fun r => negb (matchesAdCopy (AdCopy.id a)
                                      (AdCopy.campaignId a) (AdCopy.userId a)
                                      r)) (AdCopies d))
            (AdPerformance d))
      [SELECT T_AdCampaigns; DELETE T_AdCopies]
  /\ filter (matchesAdCopy (AdCopy.id a) (AdCopy.campaignId a)
               (AdCopy.userId a)) (AdCopies d) = [a].
Proof.
  intros K I E EC U O V P.
  pose proof (deleteAdCopy_selects i u d a K I E EC U) as F.
  split; [|now rewrite E, EC, U]. enter V.
  destruct (getOwnedCampaign_hit d _ _ O) as (c0 & G & _).
  rewrite (bind_returned _ _ _ _ _ _ G).
  rewrite bind_delete;
    cbn [rows withRows tableName referenced AdCopyTable User.id];
    fold (matchesAdCopy (DeleteAdCopy.id i) (DeleteAdCopy.campaignId i) u);
    change (fun a0 : AdCopy.t =>
              String.eqb (AdCopy.id a0) (DeleteAdCopy.id i)
              && String.eqb (AdCopy.campaignId a0) (DeleteAdCopy.campaignId i)
              && String.eqb (AdCopy.userId a0) u)
      with (matchesAdCopy (DeleteAdCopy.id i) (DeleteAdCopy.campaignId i) u);
    rewrite F.
  - rewrite E, EC, U. reflexivity.
  - cbn [existsb]. unfold hasPerformance in P. now rewrite E, P.
Qed.

(** The store refuses to delete an ad copy that a performance record refers
    to. *)
Lemma deleteAdCopy_refused i u env d a :
  primaryKeysOk d = true ->
  In a (AdCopies d) ->
  AdCopy.id a = DeleteAdCopy.id i ->
  AdCopy.campaignId a = DeleteAdCopy.campaignId i ->
  AdCopy.userId a = u ->
  ownsCampaign d (DeleteAdCopy.campaignId i) u = true ->
  DeleteAdCopy.input i = [] ->
  hasPerformance d (DeleteAdCopy.id i) = true ->
  server.deleteAdCopy i (signedIn u) env d
  = mkOutcome (inl (StoreError T_AdCopies)) d
              [SELECT T_AdCampaigns; DELETE T_AdCopies].
Proof.
  intros K I E EC U O V P.
  pose proof (deleteAdCopy_selects i u d a K I E EC U) as F.
  enter V.
  destruct (getOwnedCampaign_hit d _ _ O) as (c0 & G & _).
  rewrite (bind_returned _ _ _ _ _ _ G).
  rewrite bind_delete_refused; [reflexivity|].
  cbn [rows withRows tableName referenced AdCopyTable User.id].
  change (fun a0 : AdCopy.t =>
            String.eqb (AdCopy.id a0) (DeleteAdCopy.id i)
            && String.eqb (AdCopy.campaignId a0) (DeleteAdCopy.campaignId i)
            && String.eqb (AdCopy.userId a0) u)
    with (matchesAdCopy (DeleteAdCopy.id i) (DeleteAdCopy.campaignId i) u).
  rewrite F. cbn [existsb]. unfold hasPerformance in P. now rewrite E, P.
Qed.

(** Once the supplied campaign is found, the outcome of deleteAdCopy is the
    outcome of its delete statement: NOT_FOUND when it affected no row, the
    store's error when a performance record refers to a row it would
    remove, success otherwise. *)
Lemma deleteAdCopy_by_rowsAffected i u env d :
  DeleteAdCopy.input i = [] ->
  ownsCampaign d (DeleteAdCopy.campaignId i) u = true ->
  result (server.deleteAdCopy i (signedIn u) env d)
  = if existsb (matchesAdCopy (DeleteAdCopy.id i)
                  (DeleteAdCopy.campaignId i) u) (AdCopies d)
    then if existsb (fun a => hasPerformance d (AdCopy.id a))
              (filter (matchesAdCopy (DeleteAdCopy.id i)
                         (DeleteAdCopy.campaignId i) u) (AdCopies d))
         then inl (StoreError T_AdCopies)
         else inr no_data
    else inl (ActionError NOT_FOUND "Ad copy not found.").
Proof.
  intros V O.
  destruct (existsb (matchesAdCopy (DeleteAdCopy.id i)
                       (DeleteAdCopy.campaignId i) u) (AdCopies d)) eqn:X;
    [|now rewrite deleteAdCopy_adCopy_missing].
  enter V.
  destruct (getOwnedCampaign_hit d _ _ O) as (c0 & G & _).
  rewrite (bind_returned _ _ _ _ _ _ G).
  unfold bind, db_delete.
  cbn [rows withRows tableName referenced AdCopyTable User.id].
  change (fun a0 : AdCopy.t =>
            String.eqb (AdCopy.id a0) (DeleteAdCopy.id i)
            && String.eqb (AdCopy.campaignId a0) (DeleteAdCopy.campaignId i)
            && String.eqb (AdCopy.userId a0) u)
    with (matchesAdCopy (DeleteAdCopy.id i) (DeleteAdCopy.campaignId i) u).
  change (fun a0 : AdCopy.t =>
            existsb (fun p => String.eqb (Performance.adCopyId p)
                                         (AdCopy.id a0)) (AdPerformance d))
    with (fun a0 => hasPerformance d (AdCopy.id a0)).
  destruct (existsb _ (filter _ (AdCopies d))); [reflexivity|].
  cbn [result store].
  destruct (filter _ (AdCopies d)) eqn:F; [|reflexivity].
  apply filter_nil_existsb in F. congruence.
Qed.

(** deleteAdCopy, called by a signed-in user with an accepted input, ends in
    success, in NOT_FOUND, or in the store's refusal of the delete. *)
Lemma deleteAdCopy_outcomes i u env d :
  DeleteAdCopy.input i = [] ->
  result (server.deleteAdCopy i (signedIn u) env d) = inr no_data
  \/ errorCode (server.deleteAdCopy i (signedIn u) env d) = Some NOT_FOUND
  \/ result (server.deleteAdCopy i (signedIn u) env d)
     = inl (StoreError T_AdCopies).
Proof.
  intros V.
  destruct (ownsCampaign d (DeleteAdCopy.campaignId i) u) eqn:O;
    [|right; left; now rewrite deleteAdCopy_campaign_missing].
  unfold errorCode. rewrite (deleteAdCopy_by_rowsAffected i u env d V O).
  destruct (existsb _ (AdCopies d)); auto.
  destruct (existsb _ (filter _ (AdCopies d))); auto.
Qed.

(** C6 (with the reference from the performance records): deleteAdCopy
    (input accepted by the schema, caller signed in) fails with NOT_FOUND
    and changes nothing when no ad copy has the id, and also when the ad
    copy with the id belongs to another user.  It ends in success, in
    NOT_FOUND or in the store's refusal of the delete, and once the supplied
    campaign is found it is the delete affecting no row that makes it
    NOT_FOUND.  When the caller owns both the supplied campaign and the ad
    copy stored under it and no performance record refers to the ad copy,
    it succeeds, removes that row and no other, and listAdCopies for the
    campaign then returns a total one less than before.  When a performance
    record refers to the ad copy, the store refuses the delete and nothing
    is removed. *)
Theorem deleteAdCopy_contract :
  (forall i u env d,
     DeleteAdCopy.input i = [] ->
     owner d (T_AdCopies, DeleteAdCopy.id i) = None ->
     errorCode (server.deleteAdCopy i (signedIn u) env d) = Some NOT_FOUND
     /\ store (server.deleteAdCopy i (signedIn u) env d) = d)
  /\ (forall i u1 u2 env d,
        primaryKeysOk d = true ->
        DeleteAdCopy.input i = [] ->
        owner d (T_AdCopies, DeleteAdCopy.id i) = Some u1 ->
        u1 <> u2 ->
        errorCode (server.deleteAdCopy i (signedIn u2) env d) = Some NOT_FOUND
        /\ store (server.deleteAdCopy i (signedIn u2) env d) = d)
  /\ (forall i u env d,
        DeleteAdCopy.input i = [] ->
        (result (server.deleteAdCopy i (signedIn u) env d) = inr no_data
         \/ errorCode (server.deleteAdCopy i (signedIn u) env d)
            = Some NOT_FOUND
         \/ result (server.deleteAdCopy i (signedIn u) env d)
            = inl (StoreError T_AdCopies))
        /\ (ownsCampaign d (DeleteAdCopy.campaignId i) u = true ->
            result (server.deleteAdCopy i (signedIn u) env d)
            = if existsb (matchesAdCopy (DeleteAdCopy.id i)
                            (DeleteAdCopy.campaignId i) u) (AdCopies d)
              then if existsb (fun a => hasPerformance d (AdCopy.id a))
                        (filter (matchesAdCopy (DeleteAdCopy.id i)
                                   (DeleteAdCopy.campaignId i) u)
                                (AdCopies d))
                   then inl (StoreError T_AdCopies)
                   else inr no_data
              else inl (ActionError NOT_FOUND "Ad copy not found.")))
  /\ (forall i u env env' d a,
        primaryKeysOk d = true ->
        DeleteAdCopy.input i = [] ->
        In a (AdCopies d) ->
        AdCopy.id a = DeleteAdCopy.id i ->
        AdCopy.campaignId a = DeleteAdCopy.campaignId i ->
        AdCopy.userId a = u ->
        ownsCampaign d (DeleteAdCopy.campaignId i) u = true ->
        hasPerformance d (DeleteAdCopy.id i) = false ->
        let o := server.deleteAdCopy i (signedIn u) env d in
        let list := server.listAdCopies
                      (ListAdCopies.mk (DeleteAdCopy.campaignId i))
                      (signedIn u) env' in
        result o = inr no_data
        /\ ~ In a (AdCopies (store o))
        /\ (forall r, In r (AdCopies (store o)) <-> In r (AdCopies d) /\ r <> a)
        /\ length (AdCopies d) = S (length (AdCopies (store o)))
        /\ AdCampaigns (store o) = AdCampaigns d
        /\ AdPerformance (store o) = AdPerformance d
        /\ exists before after,
             result (list d) = inr (data_adCopies before (length before))
             /\ result (list (store o))
                = inr (data_adCopies after (length after))
             /\ length before = S (length after))
  /\ (forall i u env d a,
        primaryKeysOk d = true ->
        DeleteAdCopy.input i = [] ->
        In a (AdCopies d) ->
        AdCopy.id a = DeleteAdCopy.id i ->
        AdCopy.campaignId a = DeleteAdCopy.campaignId i ->
        AdCopy.userId a = u ->
        ownsCampaign d (DeleteAdCopy.campaignId i) u = true ->
        hasPerformance d (DeleteAdCopy.id i) = true ->
        result (server.deleteAdCopy i (signedIn u) env d)
        = inl (StoreError T_AdCopies)
        /\ store (server.deleteAdCopy i (signedIn u) env d) = d).
Proof.
  split; [|split; [|split; [|split]]].
  - intros. apply deleteAdCopy_not_owned; auto using absent_no_adCopy.
  - intros. apply deleteAdCopy_not_owned; eauto using foreign_no_adCopy.
  - intros. split; [now apply deleteAdCopy_outcomes|].
    now apply deleteAdCopy_by_rowsAffected.
  - intros i u env env' d a K V I E EC U O P o list.
    destruct (deleteAdCopy_run i u env d a K I E EC U O V P) as [R F].
    destruct (primaryKeysOk_parts d K) as (_ & K2 & _).
    assert (W : forall r, In r (AdCopies (store o))
                          <-> In r (AdCopies d) /\ r <> a).
    { intros r. subst o. rewrite R. cbn [store AdCopies]. rewrite filter_In.
      split; intros [Ir N]; split; auto.
      - intros ->. now rewrite matchesAdCopy_row in N.
      - destruct (matchesAdCopy _ _ _ r) eqn:M; [|reflexivity].
        exfalso. apply N. apply (distinct_key_inj AdCopy.id (AdCopies d)); auto.
        now apply matchesAdCopy_id in M. }
    assert (VL : ListAdCopies.input
                   (ListAdCopies.mk (DeleteAdCopy.campaignId i)) = []).
    { unfold DeleteAdCopy.input in V. apply app_eq_nil in V. tauto. }
    split; [subst o; now rewrite R|].
    split; [intros J; apply W in J; tauto|].
    split; [exact W|].
    split.
    { subst o. rewrite R. cbn [store AdCopies].
      rewrite <- (filter_length (matchesAdCopy (AdCopy.id a)
                                   (AdCopy.campaignId a) (AdCopy.userId a))
                                (AdCopies d)).
      now rewrite F. }
    split; [subst o; now rewrite R|].
    split; [subst o; now rewrite R|].
    subst list o. rewrite R. cbn [store].
    pose proof (listAdCopies_run _ u env' d VL O) as L1.
    pose proof (listAdCopies_run _ u env'
                  (mkDB (AdCampaigns d)
                        (filter (fun r => negb (matchesAdCopy (AdCopy.id a)
                                   (AdCopy.campaignId a) (AdCopy.userId a) r))
                                (AdCopies d))
                        (AdPerformance d)) VL O) as L2.
    cbv zeta in L1, L2. rewrite L1, L2.
    do 2 eexists.
    split; [reflexivity|]. split; [reflexivity|].
    cbn [AdCopies ListAdCopies.campaignId].
    apply (length_filter_without _ _ _ a F).
    now rewrite EC, U, !String.eqb_refl.
  - intros i u env d a K V I E EC U O P.
    rewrite (deleteAdCopy_refused i u env d a K I E EC U O V P).
    split; reflexivity.
Qed.

Lemma deleteAdCopy_contract_witness :
  (errorCode (server.deleteAdCopy (DeleteAdCopy.mk "zz" "c1") (signedIn "u1")
                sampleEnv sampleStore) = Some NOT_FOUND)
  /\ (errorCode (server.deleteAdCopy (DeleteAdCopy.mk "a1" "c2")
                   (signedIn "u2") sampleEnv sampleStore) = Some NOT_FOUND)
  /\ (result (server.deleteAdCopy (DeleteAdCopy.mk "a1" "c1") (signedIn "u1")
                sampleEnv sampleStore) = inr no_data
      /\ length sampleAdCopies
         = S (length (AdCopies
                        (store (server.deleteAdCopy
                                  (DeleteAdCopy.mk "a1" "c1") (signedIn "u1")
                                  sampleEnv sampleStore)))))
  /\ (result (server.deleteAdCopy (DeleteAdCopy.mk "a1" "c1") (signedIn "u1")
                sampleEnv sampleLogged) = inl (StoreError T_AdCopies)).
Proof.
  destruct deleteAdCopy_contract as (A & F & _ & O & X).
  split; [|split; [|split]].
  - apply (A (DeleteAdCopy.mk "zz" "c1") "u1" sampleEnv sampleStore);
      reflexivity.
  - apply (F (DeleteAdCopy.mk "a1" "c2") "u1" "u2" sampleEnv sampleStore);
      try reflexivity.
    discriminate.
  - destruct (O (DeleteAdCopy.mk "a1" "c1") "u1" sampleEnv sampleEnv
                sampleStore
                (AdCopy.mk "a1" "c1" "u1" None (Some "Hello") "Save big" None
                   None None None None 11 11))
      as (R & _ & _ & L & _); try reflexivity.
    + simpl. auto.
    + split; [exact R | exact L].
  - apply (X (DeleteAdCopy.mk "a1" "c1") "u1" sampleEnv sampleLogged
             (AdCopy.mk "a1" "c1" "u1" None (Some "Hello") "Save big" None
                None None None None 11 11)); try reflexivity.
    simpl. auto.
Defined.

(** The owner's deleteAdCopy of an ad copy for which performance has been
    logged does not succeed: the store refuses the delete and the ad copy
    stays. *)
Lemma owned_adCopy_with_performance_is_not_deleted :
  let o := server.deleteAdCopy (DeleteAdCopy.mk "a1" "c1") (signedIn "u1")
             sampleEnv sampleLogged in
  result o <> inr no_data
  /\ result o = inl (StoreError T_AdCopies)
  /\ AdCopies (store o) = sampleAdCopies.
Proof.
  split; [|split]; [|reflexivity|reflexivity].
  vm_compute. discriminate.
Qed.

(** ** The ad copy must sit under the supplied campaign *)

(** C10: when the caller owns the supplied campaign and owns the ad copy with
    the supplied id, but that ad copy is stored under another campaign,
    updateAdCopy and deleteAdCopy fail with NOT_FOUND ("Ad copy not found.")
    and leave the store as it was. *)
Theorem adCopy_must_match_campaign (c : Call) (id campaignId u : string)
    (env : Env) (d : DB) (a : AdCopy.t) :
  primaryKeysOk d = true ->
  issues c = [] ->
  adCopyKeys c = Some (id, campaignId) ->
  ownsCampaign d campaignId u = true ->
  In a (AdCopies d) ->
  AdCopy.id a = id ->
  AdCopy.userId a = u ->
  AdCopy.campaignId a <> campaignId ->
  result (invoke c (signedIn u) env d)
  = inl (ActionError NOT_FOUND "Ad copy not found.")
  /\ store (invoke c (signedIn u) env d) = d.
Proof.
  intros K V T O I E U N.
  destruct (primaryKeysOk_parts d K) as (_ & K2 & _).
  assert (X : existsb (matchesAdCopy id campaignId u) (AdCopies d) = false).
  { apply (existsb_by_key AdCopy.id _ _ a); auto.
    - unfold matchesAdCopy. apply andb_false_iff. left.
      apply andb_false_iff. right. now apply String.eqb_neq.
    - intros y P. apply matchesAdCopy_id in P. congruence. }
  destruct c; simpl in *; try discriminate; injection T as <- <-.
  - now rewrite updateAdCopy_adCopy_missing.
  - now rewrite deleteAdCopy_adCopy_missing.
Qed.

Lemma adCopy_must_match_campaign_witness :
  result (invoke (call_deleteAdCopy (DeleteAdCopy.mk "a1" "c3"))
                 (signedIn "u1") sampleEnv
                 (mkDB (Campaign.mk "c3" "u1" "Other" None None None None 12 12
                        :: sampleCampaigns) sampleAdCopies []))
  = inl (ActionError NOT_FOUND "Ad copy not found.")
  /\ store (invoke (call_deleteAdCopy (DeleteAdCopy.mk "a1" "c3"))
                   (signedIn "u1") sampleEnv
                   (mkDB (Campaign.mk "c3" "u1" "Other" None None None None
                            12 12 :: sampleCampaigns) sampleAdCopies []))
     = mkDB (Campaign.mk "c3" "u1" "Other" None None None None 12 12
             :: sampleCampaigns) sampleAdCopies [].
Proof.
  apply (adCopy_must_match_campaign
           (call_deleteAdCopy (DeleteAdCopy.mk "a1" "c3")) "a1" "c3" "u1"
           sampleEnv
           (mkDB (Campaign.mk "c3" "u1" "Other" None None None None 12 12
                  :: sampleCampaigns) sampleAdCopies [])
           (AdCopy.mk "a1" "c1" "u1" None (Some "Hello") "Save big" None None
              None None None 11 11)); try reflexivity.
  - simpl. auto.
  - discriminate.
Defined.

(** ** The order of the guards *)

Lemma getOwnedAdCopy_found (d : DB) (adCopyId userId : string) (a : AdCopy.t) :
  ownedAdCopy d adCopyId userId = Some a ->
  getOwnedAdCopy adCopyId userId d = mkOutcome (inr a) d [SELECT T_AdCopies].
Proof.
  intros F. unfold getOwnedAdCopy. rewrite bind_select.
  cbn [rows AdCopyTable tableName]. rewrite first_filter_find.
  unfold ownedAdCopy in F. now rewrite F.
Qed.

Lemma listAdPerformance_not_owned i u env d :
  ListAdPerformance.input i = [] ->
  ownsAdCopy d (ListAdPerformance.adCopyId i) u = false ->
  server.listAdPerformance i (signedIn u) env d
  = mkOutcome (inl (ActionError NOT_FOUND "Ad copy not found.")) d
              [SELECT T_AdCopies].
Proof.
  intros V O. enter V.
  apply bind_thrown. now apply getOwnedAdCopy_miss.
Qed.

Lemma logAdPerformance_campaign_missing i u env d a :
  LogAdPerformance.input i = [] ->
  ownedAdCopy d (LogAdPerformance.adCopyId i) u = Some a ->
  ownsCampaign d (AdCopy.campaignId a) u = false ->
  server.logAdPerformance i (signedIn u) env d
  = mkOutcome (inl (ActionError NOT_FOUND "Campaign not found.")) d
              [SELECT T_AdCopies; SELECT T_AdCampaigns].
Proof.
  intros V F O. enter V.
  rewrite (bind_returned _ _ _ _ _ _ (getOwnedAdCopy_found d _ _ a F)).
  rewrite (bind_thrown _ _ _ _ _ _ (getOwnedCampaign_miss d _ _ O)).
  reflexivity.
Qed.

Lemma listAdPerformance_campaign_missing i u env d a :
  ListAdPerformance.input i = [] ->
  ownedAdCopy d (ListAdPerformance.adCopyId i) u = Some a ->
  ownsCampaign d (AdCopy.campaignId a) u = false ->
  server.listAdPerformance i (signedIn u) env d
  = mkOutcome (inl (ActionError NOT_FOUND "Campaign not found.")) d
              [SELECT T_AdCopies; SELECT T_AdCampaigns].
Proof.
  intros V F O. enter V.
  rewrite (bind_returned _ _ _ _ _ _ (getOwnedAdCopy_found d _ _ a F)).
  rewrite (bind_thrown _ _ _ _ _ _ (getOwnedCampaign_miss d _ _ O)).
  reflexivity.
Qed.

(** C5 (order as the code has it): logAdPerformance and listAdPerformance
    look the ad copy up first, by id and owner, and then the campaign that ad
    copy is stored under; updateAdCopy and deleteAdCopy look the supplied
    campaign up first and then match the ad copy on id, campaign and owner
    together.  Each fails with NOT_FOUND at the first of its two checks that
    does not match, and the later check is then not run. *)
Theorem guards_run_in_order (c : Call) (u : string) (env : Env) (d : DB) :
  issues c = [] ->
  (forall adCopyId,
     performanceKey c = Some adCopyId ->
     (ownsAdCopy d adCopyId u = false ->
      invoke c (signedIn u) env d
      = mkOutcome (inl (ActionError NOT_FOUND "Ad copy not found.")) d
                  [SELECT T_AdCopies])
     /\ (forall a,
           ownedAdCopy d adCopyId u = Some a ->
           ownsCampaign d (AdCopy.campaignId a) u = false ->
           invoke c (signedIn u) env d
           = mkOutcome (inl (ActionError NOT_FOUND "Campaign not found.")) d
                       [SELECT T_AdCopies; SELECT T_AdCampaigns]))
  /\ (forall id campaignId,
        adCopyKeys c = Some (id, campaignId) ->
        (ownsCampaign d campaignId u = false ->
         invoke c (signedIn u) env d
         = mkOutcome (inl (ActionError NOT_FOUND "Campaign not found.")) d
                     [SELECT T_AdCampaigns])
        /\ (ownsCampaign d campaignId u = true ->
            existsb (matchesAdCopy id campaignId u) (AdCopies d) = false ->
            result (invoke c (signedIn u) env d)
            = inl (ActionError NOT_FOUND "Ad copy not found.")
            /\ store (invoke c (signedIn u) env d) = d
            /\ map tableOf (log (invoke c (signedIn u) env d))
               = [T_AdCampaigns; T_AdCopies])).
Proof.
  intros V. split.
  - intros k T. destruct c; simpl in *; try discriminate; injection T as <-.
    + split; [intros O | intros a F O].
      * now apply logAdPerformance_not_owned.
      * now apply (logAdPerformance_campaign_missing _ _ _ _ a).
    + split; [intros O | intros a F O].
      * now apply listAdPerformance_not_owned.
      * now apply (listAdPerformance_campaign_missing _ _ _ _ a).
  - intros k1 k2 T.
    destruct c; simpl in *; try discriminate; injection T as <- <-.
    + split; [intros O | intros O X].
      * now apply updateAdCopy_campaign_missing.
      * now rewrite updateAdCopy_adCopy_missing.
    + split; [intros O | intros O X].
      * now apply deleteAdCopy_campaign_missing.
      * now rewrite deleteAdCopy_adCopy_missing.
Qed.

Lemma guards_run_in_order_witness :
  invoke (call_listAdPerformance (ListAdPerformance.mk "a2")) (signedIn "u1")
         sampleEnv sampleStore
  = mkOutcome (inl (ActionError NOT_FOUND "Ad copy not found.")) sampleStore
              [SELECT T_AdCopies]
  /\ invoke (call_updateAdCopy
               (UpdateAdCopy.mk "a1" "c2" None (Some "x") None None None None
                  None None))
            (signedIn "u1") sampleEnv sampleStore
     = mkOutcome (inl (ActionError NOT_FOUND "Campaign not found."))
                 sampleStore [SELECT T_AdCampaigns].
Proof.
  split.
  - apply (proj1 (guards_run_in_order
                    (call_listAdPerformance (ListAdPerformance.mk "a2")) "u1"
                    sampleEnv sampleStore eq_refl) "a2" eq_refl).
    reflexivity.
  - apply (proj2 (guards_run_in_order
                    (call_updateAdCopy
                       (UpdateAdCopy.mk "a1" "c2" None (Some "x") None None
                          None None None None)) "u1"
                    sampleEnv sampleStore eq_refl) "a1" "c2" eq_refl).
    reflexivity.
Defined.

(** updateAdCopy, called with an ad-copy id and a campaign id of which the
    caller owns neither, stops at the campaign: the ad-copy table is never
    consulted, so the ad copy is not what is checked first. *)
Lemma updateAdCopy_checks_campaign_first :
  let o := server.updateAdCopy
             (UpdateAdCopy.mk "no-such-copy" "no-such-campaign" None
                (Some "x") None None None None None None)
             (signedIn "u1") sampleEnv sampleStore in
  ~ adCopyCheckedFirst o
  /\ log o = [SELECT T_AdCampaigns]
  /\ messages o = ["Campaign not found."].
Proof.
  split; [|split]; [|reflexivity|reflexivity].
  unfold adCopyCheckedFirst. vm_compute. discriminate.
Qed.

(** ** The whole chain of a mutation *)

Lemma invoke_rejected (c : Call) (context : ActionAPIContext) (env : Env)
    (d : DB) :
  issues c <> [] ->
  invoke c context env d = mkOutcome (inl (InputError (issues c))) d [].
Proof.
  intros N.
  destruct c; simpl in *; try congruence;
    unfold server.createCampaign, server.updateCampaign,
      server.createAdCopy, server.updateAdCopy, server.deleteAdCopy,
      server.listAdCopies, server.logAdPerformance, server.listAdPerformance,
      defineAction;
    match goal with
    | |- context [match ?s with [] => _ | _ :: _ => _ end] =>
        destruct s; [congruence | reflexivity]
    end.
Qed.

Lemma ownedAdCopy_none (d : DB) (adCopyId u : string) :
  ownedAdCopy d adCopyId u = None -> ownsAdCopy d adCopyId u = false.
Proof.
  unfold ownedAdCopy, ownsAdCopy. intros F.
  destruct (existsb _ (AdCopies d)) eqn:X; [|reflexivity].
  apply existsb_exists in X. destruct X as (x & I & P).
  now rewrite (find_none _ _ F x I) in P.
Qed.

Lemma ownedAdCopy_owns (d : DB) (adCopyId u : string) (a : AdCopy.t) :
  ownedAdCopy d adCopyId u = Some a ->
  ownsAdCopy d adCopyId u = true
  /\ In a (AdCopies d) /\ AdCopy.id a = adCopyId /\ AdCopy.userId a = u.
Proof.
  unfold ownedAdCopy, ownsAdCopy. intros F.
  apply find_some in F. destruct F as [I P]. split.
  - apply existsb_exists. eauto.
  - apply andb_prop in P. destruct P as [P1 P2].
    apply String.eqb_eq in P1, P2. auto.
Qed.

Lemma chain_tables (d : DB) (c : Call) (t : TableName * string) :
  In t (chain d c) -> fst t <> T_AdPerformance.
Proof.
  destruct c; simpl; intros T;
    repeat match goal with
           | H : _ \/ _ |- _ => destruct H as [<-|H]
           | H : False |- _ => contradiction
           end; try discriminate.
  apply in_map_iff in T. destruct T as (a & <- & _). discriminate.
Qed.

(** A mutation one of whose links no stored row gives to the caller is
    answered NOT_FOUND and changes nothing. *)
Lemma unowned_link_not_found (c : Call) (t : TableName * string)
    (u : string) (env : Env) (d : DB) :
  primaryKeysOk d = true ->
  issues c = [] ->
  In t (chain d c) ->
  match fst t with
  | T_AdCampaigns => ownsCampaign d (snd t) u = false
  | T_AdCopies => ownsAdCopy d (snd t) u = false
  | T_AdPerformance => False
  end ->
  errorCode (invoke c (signedIn u) env d) = Some NOT_FOUND
  /\ store (invoke c (signedIn u) env d) = d.
Proof.
  intros K V T O.
  destruct c; try (now apply (unowned_target_not_found _ t)).
  cbn [chain] in T. destruct T as [<-|T].
  - apply (unowned_target_not_found _ (T_AdCopies,
                                       LogAdPerformance.adCopyId input));
      auto. simpl. auto.
  - apply in_map_iff in T. destruct T as (a & <- & I).
    apply filter_In in I. destruct I as [I E]. apply String.eqb_eq in E.
    cbn [fst snd] in O. simpl in V. cbn [invoke].
    destruct (ownedAdCopy d (LogAdPerformance.adCopyId input) u)
      as [a'|] eqn:F.
    + destruct (ownedAdCopy_owns d _ _ a' F) as (_ & I' & E' & _).
      destruct (primaryKeysOk_parts d K) as (_ & K2 & _).
      assert (a' = a)
        by (apply (distinct_key_inj AdCopy.id (AdCopies d)); auto;
            congruence).
      subst a'.
      now rewrite (logAdPerformance_campaign_missing input u env d a).
    + rewrite logAdPerformance_not_owned; auto using ownedAdCopy_none.
Qed.

(** C1 (the whole chain; the schema comes first): when user u2 calls
    updateCampaign, createAdCopy, updateAdCopy, deleteAdCopy or
    logAdPerformance and one of the links of the ownership chain the call
    depends on (a resource it names, or for logAdPerformance the campaign of
    the ad copy it names) is stored with another owner u1, the store is left
    exactly as it was; the call fails with NOT_FOUND when its input is one
    the schema accepts, and with the validation error of the schema when it
    is not.  The same call with an accepted input on a store where that link
    is absent fails with NOT_FOUND as well. *)
Theorem foreign_target_not_found (c : Call) (t : TableName * string)
    (u1 u2 : string) (env : Env) (d : DB) :
  primaryKeysOk d = true ->
  In t (chain d c) ->
  owner d t = Some u1 ->
  u1 <> u2 ->
  store (invoke c (signedIn u2) env d) = d
  /\ (issues c = [] ->
      errorCode (invoke c (signedIn u2) env d) = Some NOT_FOUND)
  /\ (issues c <> [] ->
      result (invoke c (signedIn u2) env d) = inl (InputError (issues c)))
  /\ (forall d0 t0,
        primaryKeysOk d0 = true ->
        issues c = [] ->
        In t0 (chain d0 c) ->
        owner d0 t0 = None ->
        errorCode (invoke c (signedIn u2) env d0) = Some NOT_FOUND
        /\ store (invoke c (signedIn u2) env d0) = d0).
Proof.
  intros K T O N.
  assert (L : issues c = [] ->
              errorCode (invoke c (signedIn u2) env d) = Some NOT_FOUND
              /\ store (invoke c (signedIn u2) env d) = d).
  { intros V. apply (unowned_link_not_found c t); auto.
    destruct t as [[| |] id]; simpl;
      eauto using foreign_no_campaign, foreign_no_adCopy.
    discriminate O. }
  split; [|split; [|split]].
  - destruct (issues c) as [|x l] eqn:V; [now apply L|].
    rewrite invoke_rejected; [reflexivity|]. rewrite V. discriminate.
  - intros V. now apply L.
  - intros V. now rewrite invoke_rejected.
  - intros d0 t0 K0 V T0 O0. apply (unowned_link_not_found c t0); auto.
    pose proof (chain_tables d0 c t0 T0) as P.
    destruct t0 as [[| |] id]; simpl in *;
      eauto using absent_no_campaign, absent_no_adCopy.
Qed.

Lemma foreign_target_not_found_witness :
  (errorCode (invoke (call_updateAdCopy
                        (UpdateAdCopy.mk "a1" "c2" None (Some "Mine now") None
                           None None None None None))
                     (signedIn "u2") sampleEnv sampleStore) = Some NOT_FOUND
   /\ store (invoke (call_updateAdCopy
                       (UpdateAdCopy.mk "a1" "c2" None (Some "Mine now") None
                          None None None None None))
                    (signedIn "u2") sampleEnv sampleStore) = sampleStore)
  /\ errorCode
       (invoke (call_logAdPerformance
                  (LogAdPerformance.mk "a3" None (Some (whole 100)) None None
                     None None None))
               (signedIn "u2") sampleEnv
               (mkDB sampleCampaigns
                     (AdCopy.mk "a3" "c1" "u2" None None "Theirs" None None
                        None None None 12 12 :: sampleAdCopies) []))
     = Some NOT_FOUND.
Proof.
  split.
  - destruct (foreign_target_not_found
                (call_updateAdCopy
                   (UpdateAdCopy.mk "a1" "c2" None (Some "Mine now") None None
                      None None None None))
                (T_AdCopies, "a1") "u1" "u2" sampleEnv sampleStore
                eq_refl (or_introl eq_refl) eq_refl ltac:(discriminate))
      as (S & N & _).
    split; [apply N; reflexivity | exact S].
  - destruct (foreign_target_not_found
                (call_logAdPerformance
                   (LogAdPerformance.mk "a3" None (Some (whole 100)) None
                      None None None None))
                (T_AdCampaigns, "c1") "u1" "u2" sampleEnv
                (mkDB sampleCampaigns
                      (AdCopy.mk "a3" "c1" "u2" None None "Theirs" None None
                         None None None 12 12 :: sampleAdCopies) [])
                eq_refl (or_intror (or_introl eq_refl)) eq_refl
                ltac:(discriminate))
      as (_ & N & _).
    apply N. reflexivity.
Defined.

(** A createAdCopy of u2 on a campaign of u1 with an empty primaryText is
    answered by the validation error of the schema, not by NOT_FOUND. *)
Lemma rejected_input_is_not_not_found :
  let o := server.createAdCopy
             (CreateAdCopy.mk "c1" None None "" None None None None None)
             (signedIn "u2") sampleEnv sampleStore in
  owner sampleStore (T_AdCampaigns, "c1") = Some "u1"
  /\ errorCode o <> Some NOT_FOUND
  /\ result o = inl (InputError [too_small "primaryText"]).
Proof.
  split; [reflexivity|]. split; [|reflexivity]. vm_compute. discriminate.
Qed.

(** ** Logging performance *)


(** The client between the handlers and the store. *)

Lemma readable_sendable (env : Env) (p : Performance.t) :
  readable env p = true -> sendable env p = true.
Proof.
  unfold readable, sendable. rewrite !forallb_forall.
  intros H x I. specialize (H x I). now destruct (carriage env x).
Qed.

Lemma reading_insert_fresh {B} (env : Env) (p : Performance.t)
    (k : list Performance.t -> M B) (d : DB) :
  existsb (fun r => String.eqb (Performance.id r) (Performance.id p))
          (AdPerformance d) = false ->
  bind (reading (readable env) (db_insert p)) k d
  = let d' := mkDB (AdCampaigns d) (AdCopies d) (AdPerformance d ++ [p]) in
    if readable env p
    then mkOutcome (result (k [p] d')) (store (k [p] d'))
                   (INSERT T_AdPerformance :: log (k [p] d'))
    else mkOutcome (inl ClientError) d' [INSERT T_AdPerformance].
Proof.
  intros F. unfold reading. unfold bind at 1 2. unfold db_insert.
  cbn [rows withRows tableName primaryKey PerformanceTable].
  rewrite F. cbn [result store log forallb].
  rewrite andb_true_r. destruct (readable env p); reflexivity.
Qed.

Lemma reading_insert_taken {B} (env : Env) (p : Performance.t)
    (k : list Performance.t -> M B) (d : DB) :
  existsb (fun r => String.eqb (Performance.id r) (Performance.id p))
          (AdPerformance d) = true ->
  bind (reading (readable env) (db_insert p)) k d
  = mkOutcome (inl (StoreError T_AdPerformance)) d [INSERT T_AdPerformance].
Proof.
  intros F. unfold reading. unfold bind at 1 2. unfold db_insert.
  cbn [rows withRows tableName primaryKey PerformanceTable].
  now rewrite F.
Qed.

Lemma reading_select {B} (env : Env) (q : Performance.t -> bool)
    (k : list Performance.t -> M B) (d : DB) :
  bind (reading (readable env) (db_select q)) k d
  = let found := filter q (AdPerformance d) in
    if forallb (readable env) found
    then mkOutcome (result (k found d)) (store (k found d))
                   (SELECT T_AdPerformance :: log (k found d))
    else mkOutcome (inl ClientError) d [SELECT T_AdPerformance].
Proof.
  unfold reading. unfold bind at 1 2. unfold db_select.
  cbn [rows tableName PerformanceTable result store log].
  destruct (forallb (readable env) (filter q (AdPerformance d))); reflexivity.
Qed.

Lemma logAdPerformance_run i u env d a :
  LogAdPerformance.input i = [] ->
  ownedAdCopy d (LogAdPerformance.adCopyId i) u = Some a ->
  ownsCampaign d (AdCopy.campaignId a) u = true ->
  existsb (fun r => String.eqb (Performance.id r) (randomUUID env))
          (AdPerformance d) = false ->
  readable env (loggedPerformance i env) = true ->
  server.logAdPerformance i (signedIn u) env d
  = mkOutcome (inr (data_performance (Some (loggedPerformance i env))))
      (mkDB (AdCampaigns d) (AdCopies d)
            (AdPerformance d ++ [loggedPerformance i env]))
      [SELECT T_AdCopies; SELECT T_AdCampaigns; INSERT T_AdPerformance].
Proof.
  intros V F O X R. enter V.
  rewrite (bind_returned _ _ _ _ _ _ (getOwnedAdCopy_found d _ _ a F)).
  destruct (getOwnedCampaign_hit d _ _ O) as (c0 & G & _).
  rewrite (bind_returned _ _ _ _ _ _ G).
  fold (orElse (LogAdPerformance.date i) (now env)).
  fold (loggedPerformance i env).
  rewrite (readable_sendable _ _ R). unfold sending.
  rewrite reading_insert_fresh by exact X.
  cbv zeta. now rewrite R.
Qed.

(** A number the client sends but cannot read back: the record is stored
    and the call then throws. *)
Lemma logAdPerformance_unreadable i u env d a :
  LogAdPerformance.input i = [] ->
  ownedAdCopy d (LogAdPerformance.adCopyId i) u = Some a ->
  ownsCampaign d (AdCopy.campaignId a) u = true ->
  existsb (fun r => String.eqb (Performance.id r) (randomUUID env))
          (AdPerformance d) = false ->
  sendable env (loggedPerformance i env) = true ->
  readable env (loggedPerformance i env) = false ->
  server.logAdPerformance i (signedIn u) env d
  = mkOutcome (inl ClientError)
      (mkDB (AdCampaigns d) (AdCopies d)
            (AdPerformance d ++ [loggedPerformance i env]))
      [SELECT T_AdCopies; SELECT T_AdCampaigns; INSERT T_AdPerformance].
Proof.
  intros V F O X S R. enter V.
  rewrite (bind_returned _ _ _ _ _ _ (getOwnedAdCopy_found d _ _ a F)).
  destruct (getOwnedCampaign_hit d _ _ O) as (c0 & G & _).
  rewrite (bind_returned _ _ _ _ _ _ G).
  fold (orElse (LogAdPerformance.date i) (now env)).
  fold (loggedPerformance i env).
  rewrite S. unfold sending.
  rewrite reading_insert_fresh by exact X.
  cbv zeta. now rewrite R.
Qed.

(** A number the client does not send: nothing reaches the store. *)
Lemma logAdPerformance_unsendable i u env d a :
  LogAdPerformance.input i = [] ->
  ownedAdCopy d (LogAdPerformance.adCopyId i) u = Some a ->
  ownsCampaign d (AdCopy.campaignId a) u = true ->
  sendable env (loggedPerformance i env) = false ->
  server.logAdPerformance i (signedIn u) env d
  = mkOutcome (inl ClientError) d [SELECT T_AdCopies; SELECT T_AdCampaigns].
Proof.
  intros V F O S. enter V.
  rewrite (bind_returned _ _ _ _ _ _ (getOwnedAdCopy_found d _ _ a F)).
  destruct (getOwnedCampaign_hit d _ _ O) as (c0 & G & _).
  rewrite (bind_returned _ _ _ _ _ _ G).
  fold (orElse (LogAdPerformance.date i) (now env)).
  fold (loggedPerformance i env).
  rewrite S. reflexivity.
Qed.

Lemma listAdPerformance_run i u env d a :
  ListAdPerformance.input i = [] ->
  ownedAdCopy d (ListAdPerformance.adCopyId i) u = Some a ->
  ownsCampaign d (AdCopy.campaignId a) u = true ->
  let items := filter (fun p => String.eqb (Performance.adCopyId p)
                                  (ListAdPerformance.adCopyId i))
                      (AdPerformance d) in
  forallb (readable env) items = true ->
  server.listAdPerformance i (signedIn u) env d
  = mkOutcome (inr (data_performances items (length items))) d
      [SELECT T_AdCopies; SELECT T_AdCampaigns; SELECT T_AdPerformance].
Proof.
  intros V F O items R. enter V.
  rewrite (bind_returned _ _ _ _ _ _ (getOwnedAdCopy_found d _ _ a F)).
  destruct (getOwnedCampaign_hit d _ _ O) as (c0 & G & _).
  rewrite (bind_returned _ _ _ _ _ _ G).
  rewrite reading_select. cbv zeta. fold items. now rewrite R.
Qed.

(** A stored record the client cannot read back makes the listing throw. *)
Lemma listAdPerformance_unreadable i u env d a :
  ListAdPerformance.input i = [] ->
  ownedAdCopy d (ListAdPerformance.adCopyId i) u = Some a ->
  ownsCampaign d (AdCopy.campaignId a) u = true ->
  forallb (readable env)
          (filter (fun p => String.eqb (Performance.adCopyId p)
                              (ListAdPerformance.adCopyId i))
                  (AdPerformance d)) = false ->
  server.listAdPerformance i (signedIn u) env d
  = mkOutcome (inl ClientError) d
      [SELECT T_AdCopies; SELECT T_AdCampaigns; SELECT T_AdPerformance].
Proof.
  intros V F O R. enter V.
  rewrite (bind_returned _ _ _ _ _ _ (getOwnedAdCopy_found d _ _ a F)).
  destruct (getOwnedCampaign_hit d _ _ O) as (c0 & G & _).
  rewrite (bind_returned _ _ _ _ _ _ G).
  rewrite reading_select. cbv zeta. now rewrite R.
Qed.




(** With the client of the examples, a record with impressions 2^53 is
    stored and the call then throws; so does every later listAdPerformance
    for the ad copy. *)
Lemma unreadable_number_is_stored_and_thrown :
  let input := LogAdPerformance.mk "a1" None
                 (Some (whole 9007199254740992)) None None None None None in
  let o := server.logAdPerformance input (signedIn "u1") sampleEnv
             sampleStore in
  result o = inl ClientError
  /\ AdPerformance (store o) = [loggedPerformance input sampleEnv]
  /\ result (server.listAdPerformance (ListAdPerformance.mk "a1")
               (signedIn "u1") sampleEnv (store o))
     = inl ClientError.
Proof. repeat split. Qed.

(** A spend of 12.5 is logged as it is. *)
Lemma fractional_spend_is_logged :
  let spend := binary_normalize 53 1024 25 (-1) false in
  let input := LogAdPerformance.mk "a1" None None None None (Some spend)
                 (Some "EUR") None in
  let o := server.logAdPerformance input (signedIn "u1") sampleEnv
             sampleStore in
  exists p,
    result o = inr (data_performance (Some p))
    /\ Performance.spend p = Some spend
    /\ Performance.impressions p = None
    /\ AdPerformance (store o) = [p].
Proof. eexists. repeat split. Qed.

(** ** The invariants are kept by every action *)

Section Keeps.
Variable Inv : DB -> Prop.
Variable env : Env.

Lemma keeps_ret {A} (a : A) : keeps Inv (ret a).
Proof. intros d H. exact H. Qed.

Lemma keeps_throw {A} (e : Failure) : keeps Inv (@throw A e).
Proof. intros d H. exact H. Qed.

Lemma keeps_bind {A B} (m : M A) (k : A -> M B) :
  keeps Inv m -> (forall a, keeps Inv (k a)) -> keeps Inv (bind m k).
Proof.
  intros Hm Hk d H. unfold bind. specialize (Hm d H).
  destruct (result (m d)) as [e|a]; simpl; [exact Hm|].
  now apply Hk.
Qed.

Lemma keeps_select {R} `{Table R} (p : R -> bool) :
  keeps Inv (db_select p).
Proof. intros d H'. exact H'. Qed.

Lemma keeps_sending {A} (sent : bool) (m : M A) :
  keeps Inv m -> keeps Inv (sending sent m).
Proof. destruct sent; [auto | intros _; apply keeps_throw]. Qed.

Lemma keeps_reading {R} `{Table R} (ok : R -> bool) (m : M (list R)) :
  keeps Inv m -> keeps Inv (reading ok m).
Proof.
  intros Hm. apply keeps_bind; [exact Hm|].
  intros l. destruct (forallb ok l); [apply keeps_ret | apply keeps_throw].
Qed.

Lemma keeps_requireUser (context : ActionAPIContext) :
  keeps Inv (requireUser context).
Proof.
  unfold requireUser. destruct (currentUser context);
    [apply keeps_ret | apply keeps_throw].
Qed.

Lemma keeps_getOwnedCampaign (campaignId userId : string) :
  keeps Inv (getOwnedCampaign campaignId userId).
Proof.
  apply keeps_bind; [apply keeps_select|].
  intros l. destruct (first l); [apply keeps_ret | apply keeps_throw].
Qed.

Lemma keeps_getOwnedAdCopy (adCopyId userId : string) :
  keeps Inv (getOwnedAdCopy adCopyId userId).
Proof.
  apply keeps_bind; [apply keeps_select|].
  intros l. destruct (first l); [apply keeps_ret | apply keeps_throw].
Qed.

(** Once the statements that write are known to keep the invariant, every
    action does. *)
Hypothesis insert_campaign :
  forall u n o p t s,
    keeps Inv (db_insert (Campaign.mk (randomUUID env) u n o p t s
                            (now env) (now env))).
Hypothesis insert_adCopy :
  forall c u p h t de ca to v ur,
    keeps Inv (db_insert (AdCopy.mk (randomUUID env) c u p h t de ca to v ur
                            (now env) (now env))).
Hypothesis insert_performance :
  forall (r : Performance.t), keeps Inv (db_insert r).
Hypothesis update_campaign :
  forall n o p t s q,
    keeps Inv (db_update (R := Campaign.t)
                 (spread "name" n ++ spread "objective" o
                  ++ spread "productName" p ++ spread "targetAudience" t
                  ++ spread "notes" s ++ [("updatedAt", VDate (now env))])
                 q).
Hypothesis update_adCopy :
  forall p h t de c to v u q,
    keeps Inv (db_update (R := AdCopy.t)
                 (spread "platform" p ++ spread "headline" h
                  ++ spread "primaryText" t ++ spread "description" de
                  ++ spread "callToAction" c ++ spread "tone" to
                  ++ spread "variantLabel" v ++ spread "url" u
                  ++ [("updatedAt", VDate (now env))]) q).
Hypothesis delete_adCopy :
  forall (q : AdCopy.t -> bool), keeps Inv (db_delete q).

Lemma keeps_invoke (c : Call) (context : ActionAPIContext) :
  keeps Inv (invoke c context env).
Proof.
  destruct c; simpl;
    unfold server.createCampaign, server.updateCampaign,
      server.listCampaigns, server.createAdCopy, server.updateAdCopy,
      server.deleteAdCopy, server.listAdCopies, server.logAdPerformance,
      server.listAdPerformance, defineAction;
    try match goal with
        | |- keeps _ (match ?s with [] => _ | _ :: _ => _ end) =>
            destruct s; [|apply keeps_throw]
        end;
    repeat first
      [ apply keeps_ret | apply keeps_throw | apply keeps_select
      | apply keeps_requireUser | apply keeps_getOwnedCampaign
      | apply keeps_getOwnedAdCopy | apply insert_campaign
      | apply insert_adCopy | apply insert_performance
      | apply update_campaign | apply update_adCopy | apply delete_adCopy
      | apply keeps_sending | apply keeps_reading
      | apply keeps_bind; [|intros ?]
      | match goal with
        | |- keeps _ (match ?x with Some _ => _ | None => _ end) =>
            destruct x
        | |- keeps _ (if ?b then _ else _) => destruct b
        end ].
Qed.
End Keeps.

(** *** Primary keys stay unique *)

Lemma distinct_snoc (l : list string) (k : string) :
  distinct l = true ->
  existsb (fun x => String.eqb x k) l = false ->
  distinct (l ++ [k]) = true.
Proof.
  induction l as [|x l IH]; simpl; [reflexivity|].
  intros D E. apply andb_prop in D. destruct D as [F D].
  apply orb_false_iff in E. destruct E as [E1 E2].
  rewrite (IH D E2), andb_true_r.
  rewrite existsb_app. simpl. rewrite orb_false_r.
  apply negb_true_iff in F. now rewrite F, E1.
Qed.

Lemma distinct_filter {A} (key : A -> string) (q : A -> bool) (l : list A) :
  distinct (map key l) = true -> distinct (map key (filter q l)) = true.
Proof.
  induction l as [|x l IH]; simpl; [reflexivity|].
  intros D. apply andb_prop in D. destruct D as [F D].
  destruct (q x); simpl; [|auto].
  rewrite (IH D), andb_true_r. apply negb_true_iff in F.
  apply negb_true_iff.
  destruct (existsb _ (map key (filter q l))) eqn:E; [|reflexivity].
  apply existsb_exists in E. destruct E as (k & Ik & Ek).
  apply in_map_iff in Ik. destruct Ik as (y & <- & Iy).
  apply filter_In in Iy. destruct Iy as [Iy _].
  assert (existsb (String.eqb (key x)) (map key l) = true); [|congruence].
  apply existsb_exists. exists (key y). split; [now apply in_map|exact Ek].
Qed.

Lemma insert_keeps_key {A} (key : A -> string) (l : list A) (r : A) :
  distinct (map key l) = true ->
  existsb (fun r' => String.eqb (key r') (key r)) l = false ->
  distinct (map key (l ++ [r])) = true.
Proof.
  intros D E. rewrite map_app. simpl. apply distinct_snoc; [exact D|].
  clear D. induction l as [|x l IH]; simpl in *; [reflexivity|].
  apply orb_false_iff in E. destruct E as [E1 E2]. now rewrite E1, IH.
Qed.

Lemma update_keeps_key {A} (key : A -> string) (q : A -> bool) (f : A -> A)
    (l : list A) :
  (forall r, key (f r) = key r) ->
  map key (map (fun r => if q r then f r else r) l) = map key l.
Proof.
  intros K. rewrite map_map. apply map_ext. intros r.
  destruct (q r); auto.
Qed.

Lemma Campaign_assign_id (col : string) (v : Value) (r : Campaign.t) :
  Campaign.id (Campaign.assign col v r) = Campaign.id r.
Proof.
  unfold Campaign.assign. destruct v;
    repeat match goal with
           | |- context [if ?b then _ else _] => destruct b
           end; reflexivity.
Qed.

Lemma AdCopy_assign_id (col : string) (v : Value) (r : AdCopy.t) :
  AdCopy.id (AdCopy.assign col v r) = AdCopy.id r.
Proof.
  unfold AdCopy.assign. destruct v;
    repeat match goal with
           | |- context [if ?b then _ else _] => destruct b
           end; reflexivity.
Qed.

Lemma applySet_id {R} `{Table R} (s : Payload) (r : R) :
  (forall col v x, primaryKey (assign col v x) = primaryKey x) ->
  primaryKey (applySet s r) = primaryKey r.
Proof.
  intros K. unfold applySet. revert r.
  induction s as [|[col v] s IH]; intros r; simpl; [reflexivity|].
  now rewrite IH, K.
Qed.

(** Every action leaves the primary keys unique. *)
Lemma invoke_keeps_primaryKeys (c : Call) (context : ActionAPIContext)
    (env : Env) :
  keeps (fun d => primaryKeysOk d = true) (invoke c context env).
Proof.
  apply keeps_invoke.
  - intros u n o p t s d K. unfold db_insert. cbn [rows primaryKey CampaignTable].
    destruct (existsb _ (AdCampaigns d)) eqn:E; [exact K|].
    destruct (primaryKeysOk_parts d K) as (K1 & K2 & K3).
    unfold primaryKeysOk. cbn. rewrite K2, K3, !andb_true_r.
    now apply insert_keeps_key.
  - intros ca u p h t de cta to v ur d K. unfold db_insert.
    cbn [rows primaryKey AdCopyTable].
    destruct (existsb _ (AdCopies d)) eqn:E; [exact K|].
    destruct (primaryKeysOk_parts d K) as (K1 & K2 & K3).
    unfold primaryKeysOk. cbn. rewrite K1, K3, !andb_true_r.
    now apply insert_keeps_key.
  - intros r d K. unfold db_insert. cbn [rows primaryKey PerformanceTable].
    destruct (existsb _ (AdPerformance d)) eqn:E; [exact K|].
    destruct (primaryKeysOk_parts d K) as (K1 & K2 & K3).
    unfold primaryKeysOk. cbn. rewrite K1, K2.
    now apply insert_keeps_key.
  - intros n o p t s q d K.
    destruct (primaryKeysOk_parts d K) as (K1 & K2 & K3).
    unfold primaryKeysOk, db_update. cbn [store rows withRows CampaignTable
      AdCampaigns AdCopies AdPerformance].
    rewrite (update_keeps_key Campaign.id), K1, K2, K3; [reflexivity|].
    intros r. apply (applySet_id (R := Campaign.t) (H := CampaignTable)).
    intros. apply Campaign_assign_id.
  - intros p h t de ca to v u q d K.
    destruct (primaryKeysOk_parts d K) as (K1 & K2 & K3).
    unfold primaryKeysOk, db_update. cbn [store rows withRows AdCopyTable
      AdCampaigns AdCopies AdPerformance].
    rewrite (update_keeps_key AdCopy.id), K1, K2, K3; [reflexivity|].
    intros r. apply (applySet_id (R := AdCopy.t) (H := AdCopyTable)).
    intros. apply AdCopy_assign_id.
  - intros q d K. destruct (primaryKeysOk_parts d K) as (K1 & K2 & K3).
    unfold db_delete. destruct (existsb _ (filter q (rows d))); [exact K|].
    unfold primaryKeysOk. cbn [store rows withRows AdCopyTable
      AdCampaigns AdCopies AdPerformance].
    now rewrite (distinct_filter AdCopy.id), K1, K3.
Qed.

(** *** Timestamps do not run ahead of the clock *)

Lemma forallb_map_if {A} (good q : A -> bool) (f : A -> A) (l : list A) :
  (forall r, good r = true -> good (f r) = true) ->
  forallb good l = true ->
  forallb good (map (fun r => if q r then f r else r) l) = true.
Proof.
  intros G. induction l as [|x l IH]; simpl; [reflexivity|].
  intros H. apply andb_prop in H. destruct H as [Hx Hl].
  rewrite (IH Hl), andb_true_r. destruct (q x); auto.
Qed.

Lemma forallb_filter {A} (good q : A -> bool) (l : list A) :
  forallb good l = true -> forallb good (filter q l) = true.
Proof.
  induction l as [|x l IH]; simpl; [reflexivity|].
  intros H. apply andb_prop in H. destruct H as [Hx Hl].
  destruct (q x); simpl; [rewrite Hx|]; auto.
Qed.

Lemma stampsUpTo_parts (n : Date) (d : DB) :
  stampsUpTo n d = true ->
  forallb (fun c => (Campaign.createdAt c <=? n) && (Campaign.updatedAt c <=? n))
          (AdCampaigns d) = true
  /\ forallb (fun a => (AdCopy.createdAt a <=? n) && (AdCopy.updatedAt a <=? n))
             (AdCopies d) = true.
Proof. unfold stampsUpTo. intros H. now apply andb_prop in H. Qed.

(** Every action run at time [now env] leaves no timestamp later than
    [now env], provided none was later before. *)
Lemma invoke_keeps_stamps (c : Call) (context : ActionAPIContext) (env : Env) :
  keeps (fun d => stampsUpTo (now env) d = true) (invoke c context env).
Proof.
  apply keeps_invoke.
  - intros u n o p t s d K. unfold db_insert. cbn [rows primaryKey CampaignTable].
    destruct (existsb _ (AdCampaigns d)); [exact K|].
    destruct (stampsUpTo_parts _ d K) as (K1 & K2).
    unfold stampsUpTo. cbn [store withRows CampaignTable AdCampaigns AdCopies].
    rewrite K2, forallb_app, K1. simpl. now rewrite Z.leb_refl.
  - intros ca u p h t de cta to v ur d K. unfold db_insert.
    cbn [rows primaryKey AdCopyTable].
    destruct (existsb _ (AdCopies d)); [exact K|].
    destruct (stampsUpTo_parts _ d K) as (K1 & K2).
    unfold stampsUpTo. cbn [store withRows AdCopyTable AdCampaigns AdCopies].
    rewrite K1, forallb_app, K2. simpl. now rewrite Z.leb_refl.
  - intros r d K. unfold db_insert. cbn [rows primaryKey PerformanceTable].
    destruct (existsb _ (AdPerformance d)); exact K.
  - intros n o p t s q d K. destruct (stampsUpTo_parts _ d K) as (K1 & K2).
    unfold stampsUpTo, db_update.
    cbn [store rows withRows CampaignTable AdCampaigns AdCopies].
    rewrite K2, andb_true_r. apply forallb_map_if; [|exact K1].
    intros r G. rewrite updateCampaign_payload. cbn.
    apply andb_prop in G. destruct G as [G _]. now rewrite G, Z.leb_refl.
  - intros p h t de ca to v u q d K.
    destruct (stampsUpTo_parts _ d K) as (K1 & K2).
    unfold stampsUpTo, db_update.
    cbn [store rows withRows AdCopyTable AdCampaigns AdCopies].
    rewrite K1. apply forallb_map_if; [|exact K2].
    intros r G. rewrite updateAdCopy_payload. cbn.
    apply andb_prop in G. destruct G as [G _]. now rewrite G, Z.leb_refl.
  - intros q d K. destruct (stampsUpTo_parts _ d K) as (K1 & K2).
    unfold db_delete. destruct (existsb _ (filter q (rows d))); [exact K|].
    unfold stampsUpTo.
    cbn [store rows withRows AdCopyTable AdCampaigns AdCopies].
    now rewrite K1, forallb_filter.
Qed.

(** A later clock reading still bounds the stored timestamps. *)
Lemma stampsUpTo_later (n n' : Date) (d : DB) :
  n <= n' -> stampsUpTo n d = true -> stampsUpTo n' d = true.
Proof.
  intros L K. destruct (stampsUpTo_parts _ d K) as (K1 & K2).
  unfold stampsUpTo. apply andb_true_intro. split.
  - rewrite forallb_forall in *. intros x I. specialize (K1 x I).
    apply andb_prop in K1. destruct K1 as [A B].
    apply Z.leb_le in A, B. apply andb_true_intro.
    split; apply Z.leb_le; lia.
  - rewrite forallb_forall in *. intros x I. specialize (K2 x I).
    apply andb_prop in K2. destruct K2 as [A B].
    apply Z.leb_le in A, B. apply andb_true_intro.
    split; apply Z.leb_le; lia.
Qed.

(** So the clock hypothesis of the sparse-update property holds on every
    store the actions produce under a clock that does not run backwards. *)
Lemma stampsUpTo_rows (n : Date) (d : DB) :
  stampsUpTo n d = true ->
  (forall c, In c (AdCampaigns d) -> Campaign.updatedAt c <= n)
  /\ (forall a, In a (AdCopies d) -> AdCopy.updatedAt a <= n).
Proof.
  intros K. destruct (stampsUpTo_parts _ d K) as (K1 & K2).
  rewrite forallb_forall in K1, K2. split; intros x I.
  - specialize (K1 x I). apply andb_prop in K1. now apply Z.leb_le.
  - specialize (K2 x I). apply andb_prop in K2. now apply Z.leb_le.
Qed.

(** * Further properties of the actions *)

(** ** Every call either leaves the store alone or makes one write *)

Lemma map_applySet_campaign (i : UpdateCampaign.t) (env : Env)
    (q : Campaign.t -> bool) (l : list Campaign.t) :
  map (fun r => if q r
                then applySet
                       (spread "name" (UpdateCampaign.name i)
                        ++ spread "objective" (UpdateCampaign.objective i)
                        ++ spread "productName" (UpdateCampaign.productName i)
                        ++ spread "targetAudience"
                             (UpdateCampaign.targetAudience i)
                        ++ spread "notes" (UpdateCampaign.notes i)
                        ++ [("updatedAt", VDate (now env))]) r
                else r) l
  = map (fun r => if q r then updatedCampaign i env r else r) l.
Proof.
  apply map_ext. intros r. destruct (q r); [|reflexivity].
  apply updateCampaign_payload.
Qed.

Lemma map_applySet_adCopy (i : UpdateAdCopy.t) (env : Env)
    (q : AdCopy.t -> bool) (l : list AdCopy.t) :
  map (fun r => if q r
                then applySet
                       (spread "platform" (UpdateAdCopy.platform i)
                        ++ spread "headline" (UpdateAdCopy.headline i)
                        ++ spread "primaryText" (UpdateAdCopy.primaryText i)
                        ++ spread "description" (UpdateAdCopy.description i)
                        ++ spread "callToAction" (UpdateAdCopy.callToAction i)
                        ++ spread "tone" (UpdateAdCopy.tone i)
                        ++ spread "variantLabel" (UpdateAdCopy.variantLabel i)
                        ++ spread "url" (UpdateAdCopy.url i)
                        ++ [("updatedAt", VDate (now env))]) r
                else r) l
  = map (fun r => if q r then updatedAdCopy i env r else r) l.
Proof.
  apply map_ext. intros r. destruct (q r); [|reflexivity].
  apply updateAdCopy_payload.
Qed.

(** The store after a successful updateCampaign, whatever the keys. *)
Lemma updateCampaign_store i u env d :
  UpdateCampaign.input i = [] ->
  ownsCampaign d (UpdateCampaign.id i) u = true ->
  (exists x, result (server.updateCampaign i (signedIn u) env d) = inr x)
  /\ store (server.updateCampaign i (signedIn u) env d)
     = mkDB (map (fun r => if String.eqb (Campaign.id r) (UpdateCampaign.id i)
                           then updatedCampaign i env r else r)
                 (AdCampaigns d))
            (AdCopies d) (AdPerformance d)
  /\ log (server.updateCampaign i (signedIn u) env d)
     = [SELECT T_AdCampaigns; UPDATE T_AdCampaigns].
Proof.
  intros V O. enter V.
  destruct (getOwnedCampaign_hit d _ _ O) as (c0 & G & _).
  rewrite (bind_returned _ _ _ _ _ _ G), bind_update.
  cbn [rows withRows tableName CampaignTable ret result store log app].
  rewrite map_applySet_campaign. eauto.
Qed.

(** The store after a successful updateAdCopy, whatever the keys. *)
Lemma updateAdCopy_store i u env d :
  UpdateAdCopy.input i = [] ->
  ownsCampaign d (UpdateAdCopy.campaignId i) u = true ->
  existsb (matchesAdCopy (UpdateAdCopy.id i) (UpdateAdCopy.campaignId i) u)
          (AdCopies d) = true ->
  (exists x, result (server.updateAdCopy i (signedIn u) env d) = inr x)
  /\ store (server.updateAdCopy i (signedIn u) env d)
     = mkDB (AdCampaigns d)
            (map (fun r => if String.eqb (AdCopy.id r) (UpdateAdCopy.id i)
                           then updatedAdCopy i env r else r)
                 (AdCopies d))
            (AdPerformance d)
  /\ log (server.updateAdCopy i (signedIn u) env d)
     = [SELECT T_AdCampaigns; SELECT T_AdCopies; UPDATE T_AdCopies].
Proof.
  intros V O X. enter V.
  destruct (getOwnedCampaign_hit d _ _ O) as (c0 & G & _).
  rewrite (bind_returned _ _ _ _ _ _ G), bind_select.
  cbn [rows withRows tableName AdCopyTable User.id].
  change (fun a0 : AdCopy.t =>
            String.eqb (AdCopy.id a0) (UpdateAdCopy.id i)
            && String.eqb (AdCopy.campaignId a0) (UpdateAdCopy.campaignId i)
            && String.eqb (AdCopy.userId a0) u)
    with (matchesAdCopy (UpdateAdCopy.id i) (UpdateAdCopy.campaignId i) u).
  destruct (filter _ (AdCopies d)) as [|existing rest] eqn:F;
    [apply filter_nil_existsb in F; congruence|].
  cbn [first]. rewrite bind_update.
  cbn [rows withRows tableName AdCopyTable ret result store log app].
  rewrite map_applySet_adCopy. eauto.
Qed.

(** The store after a successful deleteAdCopy, whatever the keys. *)
Lemma deleteAdCopy_store i u env d :
  DeleteAdCopy.input i = [] ->
  ownsCampaign d (DeleteAdCopy.campaignId i) u = true ->
  existsb (matchesAdCopy (DeleteAdCopy.id i) (DeleteAdCopy.campaignId i) u)
          (AdCopies d) = true ->
  existsb (fun a => hasPerformance d (AdCopy.id a))
          (filter (matchesAdCopy (DeleteAdCopy.id i)
                     (DeleteAdCopy.campaignId i) u) (AdCopies d)) = false ->
  result (server.deleteAdCopy i (signedIn u) env d) = inr no_data
  /\ store (server.deleteAdCopy i (signedIn u) env d)
     = mkDB (AdCampaigns d)
            (filter (fun r => negb (matchesAdCopy (DeleteAdCopy.id i)
                                      (DeleteAdCopy.campaignId i) u r))
                    (AdCopies d))
            (AdPerformance d)
  /\ log (server.deleteAdCopy i (signedIn u) env d)
     = [SELECT T_AdCampaigns; DELETE T_AdCopies].
Proof.
  intros V O X Y. enter V.
  destruct (getOwnedCampaign_hit d _ _ O) as (c0 & G & _).
  rewrite (bind_returned _ _ _ _ _ _ G).
  rewrite bind_delete by exact Y.
  cbn [rows withRows tableName AdCopyTable User.id].
  change (fun a0 : AdCopy.t =>
            String.eqb (AdCopy.id a0) (DeleteAdCopy.id i)
            && String.eqb (AdCopy.campaignId a0) (DeleteAdCopy.campaignId i)
            && String.eqb (AdCopy.userId a0) u)
    with (matchesAdCopy (DeleteAdCopy.id i) (DeleteAdCopy.campaignId i) u).
  destruct (filter _ (AdCopies d)) as [|hit rest] eqn:F;
    [apply filter_nil_existsb in F; congruence|].
  repeat split.
Qed.

(** A deleteAdCopy that would remove an ad copy a performance record refers
    to is refused by the store, whatever the keys. *)
Lemma deleteAdCopy_store_refused i u env d :
  DeleteAdCopy.input i = [] ->
  ownsCampaign d (DeleteAdCopy.campaignId i) u = true ->
  existsb (fun a => hasPerformance d (AdCopy.id a))
          (filter (matchesAdCopy (DeleteAdCopy.id i)
                     (DeleteAdCopy.campaignId i) u) (AdCopies d)) = true ->
  server.deleteAdCopy i (signedIn u) env d
  = mkOutcome (inl (StoreError T_AdCopies)) d
              [SELECT T_AdCampaigns; DELETE T_AdCopies].
Proof.
  intros V O Y. enter V.
  destruct (getOwnedCampaign_hit d _ _ O) as (c0 & G & _).
  rewrite (bind_returned _ _ _ _ _ _ G).
  now rewrite bind_delete_refused by exact Y.
Qed.

Lemma listAdCopies_not_owned i u env d :
  ListAdCopies.input i = [] ->
  ownsCampaign d (ListAdCopies.campaignId i) u = false ->
  server.listAdCopies i (signedIn u) env d
  = mkOutcome (inl (ActionError NOT_FOUND "Campaign not found.")) d
              [SELECT T_AdCampaigns].
Proof.
  intros V O. enter V.
  apply bind_thrown. now apply getOwnedCampaign_miss.
Qed.

(** A generated id that is already stored makes the insert fail in the
    store, with nothing written. *)
Lemma createCampaign_taken i u env d :
  CreateCampaign.input i = [] ->
  existsb (fun r => String.eqb (Campaign.id r) (randomUUID env))
          (AdCampaigns d) = true ->
  server.createCampaign i (signedIn u) env d
  = mkOutcome (inl (StoreError T_AdCampaigns)) d [INSERT T_AdCampaigns].
Proof. intros V F. enter V. now rewrite bind_insert_taken. Qed.

Lemma createAdCopy_taken i u env d :
  CreateAdCopy.input i = [] ->
  ownsCampaign d (CreateAdCopy.campaignId i) u = true ->
  existsb (fun r => String.eqb (AdCopy.id r) (randomUUID env))
          (AdCopies d) = true ->
  server.createAdCopy i (signedIn u) env d
  = mkOutcome (inl (StoreError T_AdCopies)) d
              [SELECT T_AdCampaigns; INSERT T_AdCopies].
Proof.
  intros V O F. enter V.
  destruct (getOwnedCampaign_hit d _ _ O) as (c0 & G & _).
  rewrite (bind_returned _ _ _ _ _ _ G).
  now rewrite bind_insert_taken.
Qed.

Lemma logAdPerformance_taken i u env d a :
  LogAdPerformance.input i = [] ->
  ownedAdCopy d (LogAdPerformance.adCopyId i) u = Some a ->
  ownsCampaign d (AdCopy.campaignId a) u = true ->
  existsb (fun r => String.eqb (Performance.id r) (randomUUID env))
          (AdPerformance d) = true ->
  sendable env (loggedPerformance i env) = true ->
  server.logAdPerformance i (signedIn u) env d
  = mkOutcome (inl (StoreError T_AdPerformance)) d
      [SELECT T_AdCopies; SELECT T_AdCampaigns; INSERT T_AdPerformance].
Proof.
  intros V F O X S. enter V.
  rewrite (bind_returned _ _ _ _ _ _ (getOwnedAdCopy_found d _ _ a F)).
  destruct (getOwnedCampaign_hit d _ _ O) as (c0 & G & _).
  rewrite (bind_returned _ _ _ _ _ _ G).
  fold (orElse (LogAdPerformance.date i) (now env)).
  fold (loggedPerformance i env).
  rewrite S. unfold sending.
  now rewrite reading_insert_taken by exact X.
Qed.

(** Closes an [Effect] goal once the outcome is known: the store is
    untouched, or the named constructor of [Write] applies. *)
Ltac untouched := split; [reflexivity | left; reflexivity].
Ltac written W :=
  split; [reflexivity | right; split; [eexists; reflexivity | apply W; auto]].

Lemma createCampaign_effect i u env d :
  CreateCampaign.input i = [] ->
  Effect u env d (server.createCampaign i (signedIn u) env d).
Proof.
  intros V.
  destruct (existsb (fun r => String.eqb (Campaign.id r) (randomUUID env))
                    (AdCampaigns d)) eqn:F.
  - rewrite createCampaign_taken by auto. untouched.
  - rewrite (createCampaign_run i u env d V F). written W_createCampaign.
Qed.

Lemma updateCampaign_effect i u env d :
  UpdateCampaign.input i = [] ->
  Effect u env d (server.updateCampaign i (signedIn u) env d).
Proof.
  intros V. destruct (ownsCampaign d (UpdateCampaign.id i) u) eqn:O.
  - destruct (updateCampaign_store i u env d V O) as (R & S & L).
    unfold Effect. rewrite S, L. split; [reflexivity|].
    right. split; [exact R | now apply W_updateCampaign].
  - rewrite updateCampaign_not_owned by auto. untouched.
Qed.

Lemma createAdCopy_effect i u env d :
  CreateAdCopy.input i = [] ->
  Effect u env d (server.createAdCopy i (signedIn u) env d).
Proof.
  intros V. destruct (ownsCampaign d (CreateAdCopy.campaignId i) u) eqn:O;
    [|rewrite createAdCopy_not_owned by auto; untouched].
  destruct (existsb (fun r => String.eqb (AdCopy.id r) (randomUUID env))
                    (AdCopies d)) eqn:F.
  - rewrite createAdCopy_taken by auto. untouched.
  - rewrite (createAdCopy_run i u env d V O F). written W_createAdCopy.
Qed.

Lemma updateAdCopy_effect i u env d :
  UpdateAdCopy.input i = [] ->
  Effect u env d (server.updateAdCopy i (signedIn u) env d).
Proof.
  intros V. destruct (ownsCampaign d (UpdateAdCopy.campaignId i) u) eqn:O;
    [|rewrite updateAdCopy_campaign_missing by auto; untouched].
  destruct (existsb (matchesAdCopy (UpdateAdCopy.id i)
                       (UpdateAdCopy.campaignId i) u) (AdCopies d)) eqn:X;
    [|rewrite updateAdCopy_adCopy_missing by auto; untouched].
  destruct (updateAdCopy_store i u env d V O X) as (R & S & L).
  unfold Effect. rewrite S, L. split; [reflexivity|].
  right. split; [exact R | now apply W_updateAdCopy].
Qed.

Lemma deleteAdCopy_effect i u env d :
  DeleteAdCopy.input i = [] ->
  Effect u env d (server.deleteAdCopy i (signedIn u) env d).
Proof.
  intros V. destruct (ownsCampaign d (DeleteAdCopy.campaignId i) u) eqn:O;
    [|rewrite deleteAdCopy_campaign_missing by auto; untouched].
  destruct (existsb (matchesAdCopy (DeleteAdCopy.id i)
                       (DeleteAdCopy.campaignId i) u) (AdCopies d)) eqn:X;
    [|rewrite deleteAdCopy_adCopy_missing by auto; untouched].
  destruct (existsb (fun a => hasPerformance d (AdCopy.id a))
              (filter (matchesAdCopy (DeleteAdCopy.id i)
                         (DeleteAdCopy.campaignId i) u) (AdCopies d))) eqn:Y;
    [rewrite deleteAdCopy_store_refused by auto; untouched|].
  destruct (deleteAdCopy_store i u env d V O X Y) as (R & S & L).
  unfold Effect. rewrite S, L. split; [reflexivity|].
  right. split; [eauto | now apply W_deleteAdCopy].
Qed.

(** logAdPerformance is the one action that can fail after its write. *)
Lemma logAdPerformance_effect i u env d :
  LogAdPerformance.input i = [] ->
  let o := server.logAdPerformance i (signedIn u) env d in
  Effect u env d o
  \/ (wellShaped (log o) = true
      /\ storedUnread env d (call_logAdPerformance i) o
      /\ Write u env d (store o)).
Proof.
  intros V o. subst o.
  destruct (ownedAdCopy d (LogAdPerformance.adCopyId i) u) as [a|] eqn:F;
    [|left; rewrite logAdPerformance_not_owned by auto using ownedAdCopy_none;
      untouched].
  destruct (ownsCampaign d (AdCopy.campaignId a) u) eqn:O;
    [|left; rewrite (logAdPerformance_campaign_missing i u env d a) by auto;
      untouched].
  destruct (sendable env (loggedPerformance i env)) eqn:S;
    [|left; rewrite (logAdPerformance_unsendable i u env d a) by auto;
      untouched].
  destruct (existsb (fun r => String.eqb (Performance.id r) (randomUUID env))
                    (AdPerformance d)) eqn:X;
    [left; rewrite (logAdPerformance_taken i u env d a) by auto; untouched|].
  destruct (readable env (loggedPerformance i env)) eqn:R.
  - left. rewrite (logAdPerformance_run i u env d a V F O X R).
    split; [reflexivity|]. right. split; [eexists; reflexivity|].
    now apply (W_logAdPerformance u env d i a).
  - right. rewrite (logAdPerformance_unreadable i u env d a V F O X S R).
    split; [reflexivity|]. split.
    + exists i. auto.
    + now apply (W_logAdPerformance u env d i a).
Qed.

Lemma listAdCopies_effect i u env d :
  ListAdCopies.input i = [] ->
  Effect u env d (server.listAdCopies i (signedIn u) env d).
Proof.
  intros V. destruct (ownsCampaign d (ListAdCopies.campaignId i) u) eqn:O.
  - rewrite (listAdCopies_run i u env d V O). untouched.
  - rewrite listAdCopies_not_owned by auto. untouched.
Qed.

Lemma listAdPerformance_effect i u env d :
  ListAdPerformance.input i = [] ->
  Effect u env d (server.listAdPerformance i (signedIn u) env d).
Proof.
  intros V.
  destruct (ownedAdCopy d (ListAdPerformance.adCopyId i) u) as [a|] eqn:F;
    [|rewrite listAdPerformance_not_owned by auto using ownedAdCopy_none;
      untouched].
  destruct (ownsCampaign d (AdCopy.campaignId a) u) eqn:O;
    [|rewrite (listAdPerformance_campaign_missing i u env d a) by auto;
      untouched].
  destruct (forallb (readable env)
              (filter (fun p => String.eqb (Performance.adCopyId p)
                                  (ListAdPerformance.adCopyId i))
                      (AdPerformance d))) eqn:R.
  - rewrite (listAdPerformance_run i u env d a V F O R). untouched.
  - rewrite (listAdPerformance_unreadable i u env d a V F O R). untouched.
Qed.

(** Every call, by anyone and with any input: its statements are well
    shaped, and it leaves the store as it was unless it is a call of a
    signed-in user that takes the store through one write; such a call
    succeeds, or it is a logAdPerformance whose stored record the client
    cannot hand back. *)
Lemma invoke_effect (c : Call) (context : ActionAPIContext) (env : Env)
    (d : DB) :
  let o := invoke c context env d in
  wellShaped (log o) = true
  /\ (store o = d
      \/ exists u,
           currentUser context = Some (User.mk u)
           /\ ((exists x, result o = inr x) \/ storedUnread env d c o)
           /\ Write u env d (store o)).
Proof.
  intros o. subst o.
  destruct (currentUser context) as [[u]|] eqn:U.
  - rewrite (signedIn_of_currentUser _ _ U). cbn [User.id].
    destruct (issues c) as [|x l] eqn:V.
    + assert (E : Effect u env d (invoke c (signedIn u) env d)
                  \/ (wellShaped (log (invoke c (signedIn u) env d)) = true
                      /\ storedUnread env d c (invoke c (signedIn u) env d)
                      /\ Write u env d
                           (store (invoke c (signedIn u) env d)))).
      { destruct c; simpl in V; cbn [invoke].
        - left. now apply createCampaign_effect.
        - left. now apply updateCampaign_effect.
        - left. rewrite listCampaigns_run. untouched.
        - left. now apply createAdCopy_effect.
        - left. now apply updateAdCopy_effect.
        - left. now apply deleteAdCopy_effect.
        - left. now apply listAdCopies_effect.
        - now apply logAdPerformance_effect.
        - left. now apply listAdPerformance_effect. }
      destruct E as [[S [E|[R W]]]|(S & N & W)]; split; auto;
        right; exists u; auto.
    + destruct c; simpl in *; try discriminate;
        unfold server.createCampaign, server.updateCampaign,
          server.createAdCopy, server.updateAdCopy, server.deleteAdCopy,
          server.listAdCopies, server.logAdPerformance,
          server.listAdPerformance, defineAction;
        rewrite V; split; auto.
  - destruct (anonymous_call_touches_nothing c context env d U)
      as (L & S & _).
    rewrite L. split; auto.
Qed.

(** X1: a call that ends in an error leaves every table exactly as it was,
    with one exception: a logAdPerformance whose record the store has taken
    and the client then cannot hand back ends in the client's error with
    that record appended and nothing else changed. *)
Theorem failed_call_changes_nothing (c : Call) (context : ActionAPIContext)
    (env : Env) (d : DB) (e : Failure) :
  result (invoke c context env d) = inl e ->
  store (invoke c context env d) = d
  \/ (e = ClientError
      /\ exists i,
           c = call_logAdPerformance i
           /\ readable env (loggedPerformance i env) = false
           /\ store (invoke c context env d)
              = mkDB (AdCampaigns d) (AdCopies d)
                     (AdPerformance d ++ [loggedPerformance i env])).
Proof.
  intros R.
  destruct (invoke_effect c context env d)
    as [_ [S|(u & _ & [[x X]|(i & C & E & N & S)] & _)]].
  - now left.
  - congruence.
  - right. split; [congruence|]. exists i. auto.
Qed.

Lemma failed_call_changes_nothing_witness :
  (store (invoke (call_createCampaign
                    (CreateCampaign.mk "Again" None None None None))
                 (signedIn "u1") (mkEnv 40 "c1") sampleStore)
   = sampleStore
   \/ (StoreError T_AdCampaigns = ClientError
       /\ exists i,
            call_createCampaign
              (CreateCampaign.mk "Again" None None None None)
            = call_logAdPerformance i
            /\ readable (mkEnv 40 "c1") (loggedPerformance i (mkEnv 40 "c1"))
               = false
            /\ store (invoke (call_createCampaign
                                (CreateCampaign.mk "Again" None None None
                                   None))
                             (signedIn "u1") (mkEnv 40 "c1") sampleStore)
               = mkDB (AdCampaigns sampleStore) (AdCopies sampleStore)
                      (AdPerformance sampleStore
                       ++ [loggedPerformance i (mkEnv 40 "c1")])))
  /\ (store (invoke (call_logAdPerformance
                       (LogAdPerformance.mk "a1" None
                          (Some (whole 9007199254740992)) None None None None
                          None))
                    (signedIn "u1") sampleEnv sampleStore)
      = sampleStore
      \/ (ClientError = ClientError
          /\ exists i,
               call_logAdPerformance
                 (LogAdPerformance.mk "a1" None
                    (Some (whole 9007199254740992)) None None None None None)
               = call_logAdPerformance i
               /\ readable sampleEnv (loggedPerformance i sampleEnv) = false
               /\ store (invoke (call_logAdPerformance
                                   (LogAdPerformance.mk "a1" None
                                      (Some (whole 9007199254740992)) None
                                      None None None None))
                                (signedIn "u1") sampleEnv sampleStore)
                  = mkDB (AdCampaigns sampleStore) (AdCopies sampleStore)
                         (AdPerformance sampleStore
                          ++ [loggedPerformance i sampleEnv]))).
Proof.
  split.
  - apply (failed_call_changes_nothing
             (call_createCampaign
                (CreateCampaign.mk "Again" None None None None))
             (signedIn "u1") (mkEnv 40 "c1") sampleStore
             (StoreError T_AdCampaigns)).
    reflexivity.
  - apply (failed_call_changes_nothing
             (call_logAdPerformance
                (LogAdPerformance.mk "a1" None
                   (Some (whole 9007199254740992)) None None None None None))
             (signedIn "u1") sampleEnv sampleStore ClientError).
    reflexivity.
Defined.

(** X2: every call sends the store at most three statements, and only the
    last of them can be an insert, update or delete: whatever precedes it is
    a select. *)
Theorem one_write_and_it_is_last (c : Call) (context : ActionAPIContext)
    (env : Env) (d : DB) :
  (length (log (invoke c context env d)) <= 3)%nat
  /\ forall s, In s (removelast (log (invoke c context env d))) ->
               isSelect s = true.
Proof.
  destruct (invoke_effect c context env d) as [W _].
  unfold wellShaped in W. apply andb_prop in W. destruct W as [L F].
  split.
  - now apply Nat.leb_le.
  - now apply forallb_forall.
Qed.

(** ** The invariants, one call at a time *)

Lemma ownsCampaign_app (d : DB) (extra : list Campaign.t) ads perf id u :
  ownsCampaign d id u = true ->
  ownsCampaign (mkDB (AdCampaigns d ++ extra) ads perf) id u = true.
Proof.
  unfold ownsCampaign. cbn [AdCampaigns]. intros O.
  rewrite existsb_app, O. reflexivity.
Qed.

Lemma ownsCampaign_map (d : DB) (g : Campaign.t -> Campaign.t) ads perf id u :
  (forall r, Campaign.id (g r) = Campaign.id r
             /\ Campaign.userId (g r) = Campaign.userId r) ->
  ownsCampaign (mkDB (map g (AdCampaigns d)) ads perf) id u
  = ownsCampaign d id u.
Proof.
  intros G. unfold ownsCampaign. cbn [AdCampaigns].
  induction (AdCampaigns d) as [|x l IH]; simpl; [reflexivity|].
  destruct (G x) as [-> ->]. now rewrite IH.
Qed.

Lemma ownsCampaign_same_campaigns (d d' : DB) id u :
  AdCampaigns d' = AdCampaigns d ->
  ownsCampaign d' id u = ownsCampaign d id u.
Proof. unfold ownsCampaign. now intros ->. Qed.

Lemma updatedCampaign_or_same (i : UpdateCampaign.t) (env : Env)
    (r : Campaign.t) :
  let g := fun r => if String.eqb (Campaign.id r) (UpdateCampaign.id i)
                    then updatedCampaign i env r else r in
  Campaign.id (g r) = Campaign.id r
  /\ Campaign.userId (g r) = Campaign.userId r.
Proof. simpl. destruct (String.eqb _ _); auto. Qed.

Lemma updatedAdCopy_or_same (i : UpdateAdCopy.t) (env : Env) (r : AdCopy.t) :
  let g := fun r => if String.eqb (AdCopy.id r) (UpdateAdCopy.id i)
                    then updatedAdCopy i env r else r in
  AdCopy.id (g r) = AdCopy.id r
  /\ AdCopy.campaignId (g r) = AdCopy.campaignId r
  /\ AdCopy.userId (g r) = AdCopy.userId r.
Proof. simpl. destruct (String.eqb _ _); auto. Qed.

(** One write keeps every ad copy under a campaign of its own owner. *)
Lemma chain_step (u : string) (env : Env) (d d' : DB) :
  Write u env d d' -> chainOk d = true -> chainOk d' = true.
Proof.
  unfold chainOk. intros W C. rewrite forallb_forall in C.
  apply forallb_forall.
  destruct W as [i V F | i V O | i V O F | i V O X | i V O X | i a V F O X];
    cbn [AdCopies]; intros a' I.
  - apply ownsCampaign_app. auto.
  - rewrite ownsCampaign_map; [auto|].
    intros r. apply (updatedCampaign_or_same i env r).
  - apply in_app_or in I. destruct I as [I|[<-|[]]].
    + rewrite (ownsCampaign_same_campaigns d); auto.
    + rewrite (ownsCampaign_same_campaigns d); auto.
  - apply in_map_iff in I. destruct I as (r & <- & I).
    destruct (updatedAdCopy_or_same i env r) as (_ & -> & ->).
    rewrite (ownsCampaign_same_campaigns d); auto.
  - apply filter_In in I. destruct I as [I _].
    rewrite (ownsCampaign_same_campaigns d); auto.
  - rewrite (ownsCampaign_same_campaigns d); auto.
Qed.

Lemma min1_accepts (field s : string) :
  min1 field s = [] -> (1 <=? String.length s)%nat = true.
Proof.
  unfold min1. destruct (String.length s <? 1)%nat eqn:L; [discriminate|].
  intros _. apply Nat.ltb_ge in L. now apply Nat.leb_le.
Qed.

(** One write keeps every campaign name non-empty. *)
Lemma names_step (u : string) (env : Env) (d d' : DB) :
  Write u env d d' -> namesOk d = true -> namesOk d' = true.
Proof.
  unfold namesOk. intros W N.
  destruct W as [i V F | i V O | i V O F | i V O X | i V O X | i a V F O X];
    cbn [AdCampaigns]; auto.
  - rewrite forallb_app, N. simpl. rewrite andb_true_r.
    now apply (min1_accepts "name").
  - rewrite forallb_forall in N. apply forallb_forall. intros c' I.
    apply in_map_iff in I. destruct I as (r & <- & I).
    destruct (String.eqb _ _); [|auto].
    unfold updatedCampaign. cbn [Campaign.name].
    unfold UpdateCampaign.input in V.
    apply app_eq_nil in V. destruct V as [_ V].
    apply app_eq_nil in V. destruct V as [V _].
    destruct (UpdateCampaign.name i) as [v|]; simpl in *; [|auto].
    now apply (min1_accepts "name").
Qed.

(** One write at the time of the clock keeps the order of the two stamps of
    every row, when no stored stamp is ahead of the clock. *)
Lemma order_step (u : string) (env : Env) (d d' : DB) :
  Write u env d d' ->
  stampsUpTo (now env) d = true ->
  stampsOrdered d = true -> stampsOrdered d' = true.
Proof.
  unfold stampsOrdered. intros W T S.
  destruct (stampsUpTo_parts _ d T) as (T1 & T2).
  apply andb_prop in S. destruct S as [S1 S2].
  destruct W as [i V F | i V O | i V O F | i V O X | i V O X | i a V F O X];
    cbn [AdCampaigns AdCopies].
  - rewrite forallb_app, S1, S2. simpl. now rewrite Z.leb_refl.
  - rewrite S2, andb_true_r.
    rewrite forallb_forall in S1, T1. apply forallb_forall. intros c' I.
    apply in_map_iff in I. destruct I as (r & <- & I).
    destruct (String.eqb _ _); [|auto].
    specialize (T1 r I). apply andb_prop in T1. tauto.
  - rewrite forallb_app, S1, S2. simpl. now rewrite Z.leb_refl.
  - rewrite S1. simpl.
    rewrite forallb_forall in S2, T2. apply forallb_forall. intros a' I.
    apply in_map_iff in I. destruct I as (r & <- & I).
    destruct (String.eqb _ _); [|auto].
    specialize (T2 r I). apply andb_prop in T2. tauto.
  - now rewrite S1, forallb_filter.
  - now rewrite S1, S2.
Qed.

(** Lifts a property of one write to a property of one call. *)
Lemma by_effect (P : DB -> Prop) (c : Call) (context : ActionAPIContext)
    (env : Env) (d : DB) :
  P d ->
  (forall u d', Write u env d d' -> P d') ->
  P (store (invoke c context env d)).
Proof.
  intros H S.
  destruct (invoke_effect c context env d) as [_ [E|(u & _ & _ & W)]].
  - now rewrite E.
  - exact (S u _ W).
Qed.

(** X3: no call, by anyone and with any input, breaks the uniqueness of the
    primary keys of the three tables. *)
Theorem primary_keys_stay_unique (c : Call) (context : ActionAPIContext)
    (env : Env) (d : DB) :
  primaryKeysOk d = true ->
  primaryKeysOk (store (invoke c context env d)) = true.
Proof. exact (invoke_keeps_primaryKeys c context env d). Qed.

Lemma primary_keys_stay_unique_witness :
  primaryKeysOk
    (store (invoke (call_createAdCopy
                      (CreateAdCopy.mk "c1" None None "Save more" None None
                         None None None))
                   (signedIn "u1") sampleEnv sampleStore)) = true.
Proof.
  apply (primary_keys_stay_unique
           (call_createAdCopy
              (CreateAdCopy.mk "c1" None None "Save more" None None None None
                 None))
           (signedIn "u1") sampleEnv sampleStore).
  reflexivity.
Defined.

(** X4: when no stored timestamp is later than the clock reading of a call
    and every row has createdAt <= updatedAt, both still hold after the
    call. *)
Theorem stamps_follow_the_clock (c : Call) (context : ActionAPIContext)
    (env : Env) (d : DB) :
  stampsUpTo (now env) d = true ->
  stampsOrdered d = true ->
  stampsUpTo (now env) (store (invoke c context env d)) = true
  /\ stampsOrdered (store (invoke c context env d)) = true.
Proof.
  intros T S. split.
  - exact (invoke_keeps_stamps c context env d T).
  - apply by_effect; [exact S|].
    intros u d' W. exact (order_step u env d d' W T S).
Qed.

Lemma stamps_follow_the_clock_witness :
  stampsUpTo 30
    (store (invoke (call_updateCampaign
                      (UpdateCampaign.mk "c1" (Some "Summer Sale") None None
                         None None))
                   (signedIn "u1") sampleEnv sampleStore)) = true
  /\ stampsOrdered
       (store (invoke (call_updateCampaign
                         (UpdateCampaign.mk "c1" (Some "Summer Sale") None
                            None None None))
                      (signedIn "u1") sampleEnv sampleStore)) = true.
Proof.
  apply (stamps_follow_the_clock
           (call_updateCampaign
              (UpdateCampaign.mk "c1" (Some "Summer Sale") None None None
                 None))
           (signedIn "u1") sampleEnv sampleStore); reflexivity.
Defined.

(** X5: when every stored ad copy sits under a stored campaign of its own
    owner, the same holds after any call. *)
Theorem adCopies_stay_under_own_campaigns (c : Call)
    (context : ActionAPIContext) (env : Env) (d : DB) :
  chainOk d = true ->
  chainOk (store (invoke c context env d)) = true.
Proof.
  intros C. apply by_effect; [exact C|].
  intros u d' W. exact (chain_step u env d d' W C).
Qed.

Lemma adCopies_stay_under_own_campaigns_witness :
  chainOk
    (store (invoke (call_createAdCopy
                      (CreateAdCopy.mk "c2" None None "Last chance" None None
                         None None None))
                   (signedIn "u2") sampleEnv sampleStore)) = true.
Proof.
  apply (adCopies_stay_under_own_campaigns
           (call_createAdCopy
              (CreateAdCopy.mk "c2" None None "Last chance" None None None
                 None None))
           (signedIn "u2") sampleEnv sampleStore).
  reflexivity.
Defined.

(** X6: when every stored campaign has a non-empty name, the same holds
    after any call: createCampaign and updateCampaign both refuse an empty
    name. *)
Theorem campaign_names_stay_nonempty (c : Call) (context : ActionAPIContext)
    (env : Env) (d : DB) :
  namesOk d = true ->
  namesOk (store (invoke c context env d)) = true.
Proof.
  intros N. apply by_effect; [exact N|].
  intros u d' W. exact (names_step u env d d' W N).
Qed.

Lemma campaign_names_stay_nonempty_witness :
  namesOk
    (store (invoke (call_updateCampaign
                      (UpdateCampaign.mk "c1" (Some "S") None None None None))
                   (signedIn "u1") sampleEnv sampleStore)) = true.
Proof.
  apply (campaign_names_stay_nonempty
           (call_updateCampaign
              (UpdateCampaign.mk "c1" (Some "S") None None None None))
           (signedIn "u1") sampleEnv sampleStore).
  reflexivity.
Defined.

(** X7: on every store the actions can produce from empty tables, whatever
    the sequence of calls, the primary keys are unique, every ad copy sits
    under a campaign of its own owner, and every campaign name is
    non-empty. *)
Theorem reachable_store_invariants (d : DB) :
  reachable d ->
  primaryKeysOk d = true /\ chainOk d = true /\ namesOk d = true.
Proof.
  induction 1 as [|d c context env R (K & C & N)].
  - repeat split.
  - split; [|split].
    + exact (invoke_keeps_primaryKeys c context env d K).
    + apply by_effect; [exact C|].
      intros u d' W. exact (chain_step u env d d' W C).
    + apply by_effect; [exact N|].
      intros u d' W. exact (names_step u env d d' W N).
Qed.

Lemma reachable_store_invariants_witness :
  let d1 := store (invoke (call_createCampaign
                             (CreateCampaign.mk "Spring Sale" None None None
                                None))
                          (signedIn "u1") (mkEnv 10 "c1") (mkDB [] [] [])) in
  let d2 := store (invoke (call_createAdCopy
                             (CreateAdCopy.mk "c1" None None "Save big" None
                                None None None None))
                          (signedIn "u1") (mkEnv 11 "a1") d1) in
  AdCopies d2 <> []
  /\ primaryKeysOk d2 = true /\ chainOk d2 = true /\ namesOk d2 = true.
Proof.
  intros d1 d2. split; [discriminate|].
  apply (reachable_store_invariants d2).
  apply reachable_call, reachable_call, reachable_empty.
Defined.

(** ** What updateAdCopy lets through that createAdCopy refuses *)

(** X8: createAdCopy refuses an empty primaryText for every caller and
    leaves the store alone, but updateAdCopy by the owner accepts
    primaryText "" and stores it: the non-empty primary text that creation
    enforces is not kept by updates. *)
Theorem primaryText_can_be_emptied_by_update :
  (forall i context env d,
     CreateAdCopy.primaryText i = "" ->
     (exists l, result (server.createAdCopy i context env d)
                = inl (InputError l)
                /\ In (too_small "primaryText") l)
     /\ store (server.createAdCopy i context env d) = d)
  /\ (forall i u env d a,
        primaryKeysOk d = true ->
        In a (AdCopies d) ->
        AdCopy.userId a = u ->
        UpdateAdCopy.id i = AdCopy.id a ->
        UpdateAdCopy.campaignId i = AdCopy.campaignId a ->
        ownsCampaign d (AdCopy.campaignId a) u = true ->
        UpdateAdCopy.input i = [] ->
        UpdateAdCopy.primaryText i = Some "" ->
        exists a',
          result (server.updateAdCopy i (signedIn u) env d)
          = inr (data_adCopy (Some a'))
          /\ AdCopy.id a' = AdCopy.id a
          /\ AdCopy.primaryText a' = ""
          /\ In a' (AdCopies (store (server.updateAdCopy i (signedIn u) env
                                       d)))).
Proof.
  split.
  - intros i context env d E.
    unfold server.createAdCopy, defineAction, CreateAdCopy.input.
    rewrite E. unfold min1 at 2. simpl.
    destruct (min1 "campaignId" (CreateAdCopy.campaignId i)) as [|x l];
      simpl; (split; [eexists; split; [reflexivity|] | reflexivity]).
    + now left.
    + right. apply in_or_app. right. now left.
  - intros i u env d a K I U E EC O V T.
    rewrite (updateAdCopy_run i u env d a K I U E EC O V).
    eexists. split; [reflexivity|]. cbn. rewrite T. repeat split.
    apply in_map_iff. exists a. now rewrite String.eqb_refl.
Qed.

Lemma primaryText_can_be_emptied_by_update_witness :
  exists a',
    result (server.updateAdCopy
              (UpdateAdCopy.mk "a1" "c1" None None (Some "") None None None
                 None None)
              (signedIn "u1") sampleEnv sampleStore)
    = inr (data_adCopy (Some a'))
    /\ AdCopy.primaryText a' = "".
Proof.
  destruct (proj2 primaryText_can_be_emptied_by_update
              (UpdateAdCopy.mk "a1" "c1" None None (Some "") None None None
                 None None)
              "u1" sampleEnv sampleStore
              (AdCopy.mk "a1" "c1" "u1" None (Some "Hello") "Save big" None
                 None None None None 11 11))
    as (a' & R & _ & T & _); try reflexivity.
  - simpl. auto.
  - exists a'. auto.
Defined.

(** ** Rows of other users *)

Lemma filter_map_fixed {A} (q : A -> bool) (g : A -> A) (l : list A) :
  (forall r, In r l -> q (g r) = q r /\ (q r = true -> g r = r)) ->
  filter q (map g l) = filter q l.
Proof.
  induction l as [|x l IH]; simpl; [reflexivity|].
  intros G. destruct (G x (or_introl eq_refl)) as [Q F].
  rewrite Q. destruct (q x) eqn:E.
  - rewrite (F eq_refl). f_equal. apply IH. intros r I. apply G. now right.
  - apply IH. intros r I. apply G. now right.
Qed.

Lemma filter_filter_implied {A} (q p : A -> bool) (l : list A) :
  (forall r, In r l -> q r = true -> p r = true) ->
  filter q (filter p l) = filter q l.
Proof.
  induction l as [|x l IH]; simpl; [reflexivity|].
  intros G. destruct (p x) eqn:P; simpl.
  - destruct (q x); [f_equal|]; apply IH; intros r I; apply G; now right.
  - destruct (q x) eqn:Q.
    + rewrite (G x (or_introl eq_refl) Q) in P. discriminate.
    + apply IH. intros r I. apply G. now right.
Qed.

Lemma ownsCampaign_row (d : DB) (id u : string) :
  ownsCampaign d id u = true ->
  exists c, In c (AdCampaigns d) /\ Campaign.id c = id
            /\ Campaign.userId c = u.
Proof.
  intros O. destruct (getOwnedCampaign_hit d id u O) as (c & _ & I & E & U).
  eauto.
Qed.

Lemma matchesAdCopy_parts (id campaignId u : string) (a : AdCopy.t) :
  matchesAdCopy id campaignId u a = true ->
  AdCopy.id a = id /\ AdCopy.campaignId a = campaignId /\ AdCopy.userId a = u.
Proof.
  unfold matchesAdCopy. intros P.
  apply andb_prop in P. destruct P as [P P3].
  apply andb_prop in P. destruct P as [P1 P2].
  apply String.eqb_eq in P1, P2, P3. auto.
Qed.

(** One write by [u] leaves the rows of every other user as they were. *)
Lemma isolation_step (u v : string) (env : Env) (d d' : DB) :
  Write u env d d' ->
  primaryKeysOk d = true ->
  u <> v ->
  filter (fun r => String.eqb (Campaign.userId r) v) (AdCampaigns d')
  = filter (fun r => String.eqb (Campaign.userId r) v) (AdCampaigns d)
  /\ filter (fun r => String.eqb (AdCopy.userId r) v) (AdCopies d')
     = filter (fun r => String.eqb (AdCopy.userId r) v) (AdCopies d).
Proof.
  intros W K N. destruct (primaryKeysOk_parts d K) as (K1 & K2 & _).
  assert (Nb : String.eqb u v = false) by now apply String.eqb_neq.
  destruct W as [i V F | i V O | i V O F | i V O X | i V O X | i a V F O X];
    cbn [AdCampaigns AdCopies]; split; try reflexivity.
  - rewrite filter_app. simpl. rewrite Nb. apply app_nil_r.
  - destruct (ownsCampaign_row d _ _ O) as (c0 & I0 & E0 & U0).
    apply filter_map_fixed. intros r I.
    destruct (String.eqb (Campaign.id r) (UpdateCampaign.id i)) eqn:E;
      [|auto].
    split; [reflexivity|]. intros Q. exfalso.
    apply String.eqb_eq in E, Q.
    assert (r = c0) by (apply (distinct_key_inj Campaign.id (AdCampaigns d));
                        auto; congruence).
    congruence.
  - rewrite filter_app. simpl. rewrite Nb. apply app_nil_r.
  - apply existsb_exists in X. destruct X as (a0 & I0 & M0).
    apply matchesAdCopy_parts in M0. destruct M0 as (E0 & _ & U0).
    apply filter_map_fixed. intros r I.
    destruct (String.eqb (AdCopy.id r) (UpdateAdCopy.id i)) eqn:E; [|auto].
    split; [reflexivity|]. intros Q. exfalso.
    apply String.eqb_eq in E, Q.
    assert (r = a0) by (apply (distinct_key_inj AdCopy.id (AdCopies d));
                        auto; congruence).
    congruence.
  - apply filter_filter_implied. intros r I Q. apply String.eqb_eq in Q.
    apply negb_true_iff.
    destruct (matchesAdCopy _ _ u r) eqn:M; [|reflexivity].
    apply matchesAdCopy_parts in M. destruct M as (_ & _ & M). congruence.
Qed.

(** X9: on a store with unique primary keys, no call changes, removes or
    adds a campaign or an ad copy owned by anyone other than the caller: for
    every user who is not the signed-in caller, the campaigns and the ad
    copies that user owns are the same before and after, in the same order.
    An anonymous or rejected call is no exception. *)
Theorem other_users_rows_untouched (c : Call) (context : ActionAPIContext)
    (env : Env) (d : DB) (v : string) :
  primaryKeysOk d = true ->
  currentUser context <> Some (User.mk v) ->
  filter (fun r => String.eqb (Campaign.userId r) v)
         (AdCampaigns (store (invoke c context env d)))
  = filter (fun r => String.eqb (Campaign.userId r) v) (AdCampaigns d)
  /\ filter (fun r => String.eqb (AdCopy.userId r) v)
            (AdCopies (store (invoke c context env d)))
     = filter (fun r => String.eqb (AdCopy.userId r) v) (AdCopies d).
Proof.
  intros K N.
  destruct (invoke_effect c context env d) as [_ [E|(u & U & _ & W)]].
  - now rewrite E.
  - apply (isolation_step u v env d _ W K). congruence.
Qed.

Lemma other_users_rows_untouched_witness :
  filter (fun r => String.eqb (Campaign.userId r) "u1")
         (AdCampaigns
            (store (invoke (call_updateCampaign
                              (UpdateCampaign.mk "c2" (Some "Renamed") None
                                 None None None))
                           (signedIn "u2") sampleEnv sampleStore)))
  = filter (fun r => String.eqb (Campaign.userId r) "u1") sampleCampaigns
  /\ filter (fun r => String.eqb (AdCopy.userId r) "u1")
            (AdCopies
               (store (invoke (call_updateCampaign
                                 (UpdateCampaign.mk "c2" (Some "Renamed")
                                    None None None None))
                              (signedIn "u2") sampleEnv sampleStore)))
     = filter (fun r => String.eqb (AdCopy.userId r) "u1") sampleAdCopies.
Proof.
  apply (other_users_rows_untouched
           (call_updateCampaign
              (UpdateCampaign.mk "c2" (Some "Renamed") None None None None))
           (signedIn "u2") sampleEnv sampleStore "u1").
  - reflexivity.
  - discriminate.
Defined.

(** ** What no action does to a stored row *)

Lemma orKeep_stays_set {A} (supplied stored : option A) :
  stored <> None -> orKeep supplied stored <> None.
Proof. destruct supplied; simpl; [discriminate|auto]. Qed.

Lemma campaigns_step (u : string) (env : Env) (d d' : DB) :
  Write u env d d' ->
  (exists extra,
     map campaignIdentity (AdCampaigns d')
     = map campaignIdentity (AdCampaigns d) ++ extra
     /\ (length extra <= 1)%nat)
  /\ (forall r, In r (AdCampaigns d) ->
        exists r',
          In r' (AdCampaigns d')
          /\ campaignIdentity r' = campaignIdentity r
          /\ (Campaign.objective r <> None -> Campaign.objective r' <> None)
          /\ (Campaign.productName r <> None ->
              Campaign.productName r' <> None)
          /\ (Campaign.targetAudience r <> None ->
              Campaign.targetAudience r' <> None)
          /\ (Campaign.notes r <> None -> Campaign.notes r' <> None)).
Proof.
  intros W.
  destruct W as [i V F | i V O | i V O F | i V O X | i V O X | i a V F O X];
    cbn [AdCampaigns];
    try solve [split; [exists []; rewrite app_nil_r; auto
                      | intros r I; exists r; auto 10]].
  - split.
    + eexists. rewrite map_app. split; [reflexivity|]. simpl. lia.
    + intros r I. exists r. rewrite in_app_iff. auto 10.
  - split.
    + exists []. rewrite app_nil_r, map_map. split; [|auto].
      apply map_ext. intros r. now destruct (String.eqb _ _).
    + intros r I.
      eexists. split; [apply in_map; exact I|]. cbv beta.
      destruct (String.eqb _ _); [|auto 10].
      unfold updatedCampaign, campaignIdentity. cbn.
      auto 10 using orKeep_stays_set.
Qed.

(** X10: no call removes a campaign, reorders the campaigns, or changes the
    id, the owner or the creation time of one: the stored campaigns keep
    these columns, in order, and at most one campaign is added after them.
    Nor does any call unset an optional column of a campaign that was
    set. *)
Theorem campaigns_persist (c : Call) (context : ActionAPIContext) (env : Env)
    (d : DB) :
  (exists extra,
     map campaignIdentity (AdCampaigns (store (invoke c context env d)))
     = map campaignIdentity (AdCampaigns d) ++ extra
     /\ (length extra <= 1)%nat)
  /\ (forall r, In r (AdCampaigns d) ->
        exists r',
          In r' (AdCampaigns (store (invoke c context env d)))
          /\ campaignIdentity r' = campaignIdentity r
          /\ (Campaign.objective r <> None -> Campaign.objective r' <> None)
          /\ (Campaign.productName r <> None ->
              Campaign.productName r' <> None)
          /\ (Campaign.targetAudience r <> None ->
              Campaign.targetAudience r' <> None)
          /\ (Campaign.notes r <> None -> Campaign.notes r' <> None)).
Proof.
  destruct (invoke_effect c context env d) as [_ [E|(u & _ & _ & W)]].
  - rewrite E. split.
    + exists []. rewrite app_nil_r. auto.
    + intros r I. exists r. auto 10.
  - exact (campaigns_step u env d _ W).
Qed.

Lemma adCopies_step (u : string) (env : Env) (d d' : DB) (a' : AdCopy.t) :
  Write u env d d' ->
  In a' (AdCopies d') ->
  (exists a,
     In a (AdCopies d)
     /\ AdCopy.id a' = AdCopy.id a
     /\ AdCopy.campaignId a' = AdCopy.campaignId a
     /\ AdCopy.userId a' = AdCopy.userId a
     /\ AdCopy.createdAt a' = AdCopy.createdAt a)
  \/ (AdCopy.id a' = randomUUID env
      /\ AdCopy.userId a' = u
      /\ ownsCampaign d (AdCopy.campaignId a') u = true).
Proof.
  intros W.
  destruct W as [i V F | i V O | i V O F | i V O X | i V O X | i a V F O X];
    cbn [AdCopies]; intros I; try (left; exists a'; auto 10; fail).
  - apply in_app_or in I. destruct I as [I|[<-|[]]].
    + left. exists a'. auto 10.
    + right. auto.
  - apply in_map_iff in I. destruct I as (r & <- & I).
    left. exists r. split; [exact I|].
    destruct (String.eqb _ _); auto.
  - apply filter_In in I. destruct I as [I _]. left. exists a'. auto 10.
Qed.

(** X11: no call moves an ad copy to another campaign or to another owner,
    or changes its id or creation time.  Every ad copy stored after a call
    either continues a stored one with these columns unchanged, or is the
    one just created: it carries the generated id, belongs to the
    signed-in caller, and sits under a campaign that caller owns. *)
Theorem adCopies_keep_their_place (c : Call) (context : ActionAPIContext)
    (env : Env) (d : DB) (a' : AdCopy.t) :
  In a' (AdCopies (store (invoke c context env d))) ->
  (exists a,
     In a (AdCopies d)
     /\ AdCopy.id a' = AdCopy.id a
     /\ AdCopy.campaignId a' = AdCopy.campaignId a
     /\ AdCopy.userId a' = AdCopy.userId a
     /\ AdCopy.createdAt a' = AdCopy.createdAt a)
  \/ (AdCopy.id a' = randomUUID env
      /\ currentUser context = Some (User.mk (AdCopy.userId a'))
      /\ ownsCampaign d (AdCopy.campaignId a') (AdCopy.userId a') = true).
Proof.
  intros I.
  destruct (invoke_effect c context env d) as [_ [E|(u & U & _ & W)]].
  - rewrite E in I. left. exists a'. auto 10.
  - destruct (adCopies_step u env d _ a' W I) as [L|(E1 & E2 & O)];
      [now left|].
    right. rewrite E2. auto.
Qed.

Lemma adCopies_keep_their_place_witness :
  let new := AdCopy.mk "fresh-id" "c1" "u1" None None "Save more" None None
               None None None 30 30 in
  (exists a,
     In a sampleAdCopies
     /\ AdCopy.id new = AdCopy.id a
     /\ AdCopy.campaignId new = AdCopy.campaignId a
     /\ AdCopy.userId new = AdCopy.userId a
     /\ AdCopy.createdAt new = AdCopy.createdAt a)
  \/ (AdCopy.id new = "fresh-id"
      /\ currentUser (signedIn "u1") = Some (User.mk (AdCopy.userId new))
      /\ ownsCampaign sampleStore (AdCopy.campaignId new) (AdCopy.userId new)
         = true).
Proof.
  intros new.
  apply (adCopies_keep_their_place
           (call_createAdCopy
              (CreateAdCopy.mk "c1" None None "Save more" None None None None
                 None))
           (signedIn "u1") sampleEnv sampleStore new).
  simpl. auto.
Defined.

(** X12: performance records are only ever appended.  After any call the
    performance table is the former table followed by at most one record,
    and that record carries the generated id and belongs to an ad copy the
    signed-in caller owns. *)
Theorem performance_is_append_only (c : Call) (context : ActionAPIContext)
    (env : Env) (d : DB) :
  exists extra,
    AdPerformance (store (invoke c context env d)) = AdPerformance d ++ extra
    /\ (length extra <= 1)%nat
    /\ forall p, In p extra ->
         Performance.id p = randomUUID env
         /\ exists u, currentUser context = Some (User.mk u)
                      /\ ownsAdCopy d (Performance.adCopyId p) u = true.
Proof.
  destruct (invoke_effect c context env d) as [_ [E|(u & U & _ & W)]].
  - rewrite E. exists []. rewrite app_nil_r.
    split; [reflexivity | split; [simpl; lia | intros p []]].
  - destruct W as [i V F | i V O | i V O F | i V O X | i V O X | i a V F O X];
      cbn [AdPerformance];
      try solve [exists []; rewrite app_nil_r;
                 split; [reflexivity | split; [simpl; lia | intros p []]]].
    eexists. split; [reflexivity|]. split; [simpl; lia|].
    intros p [<-|[]]. split; [reflexivity|].
    exists u. split; [exact U|]. cbn.
    now apply (ownedAdCopy_owns d _ u a).
Qed.

(** ** Creating, then listing *)

(** X13: a campaign just created by u is what listCampaigns then returns to
    u after the campaigns u already had, the total growing by one, while
    every other user is returned what they were returned before; and an ad
    copy just created is what listAdCopies for its campaign then returns
    after the ad copies already there. *)
Theorem created_rows_are_listed :
  (forall i li u env env' d,
     CreateCampaign.input i = [] ->
     existsb (fun r => String.eqb (Campaign.id r) (randomUUID env))
             (AdCampaigns d) = false ->
     let d' := store (server.createCampaign i (signedIn u) env d) in
     let before := filter (fun c => String.eqb (Campaign.userId c) u)
                          (AdCampaigns d) in
     result (server.listCampaigns li (signedIn u) env' d')
     = inr (data_campaigns (before ++ [createdCampaign i u env])
                           (S (length before)))
     /\ forall v, v <> u ->
          result (server.listCampaigns li (signedIn v) env' d')
          = result (server.listCampaigns li (signedIn v) env' d))
  /\ (forall i u env env' d,
        CreateAdCopy.input i = [] ->
        ownsCampaign d (CreateAdCopy.campaignId i) u = true ->
        existsb (fun r => String.eqb (AdCopy.id r) (randomUUID env))
                (AdCopies d) = false ->
        let d' := store (server.createAdCopy i (signedIn u) env d) in
        let before := filter (fun a =>
                        String.eqb (AdCopy.campaignId a)
                                   (CreateAdCopy.campaignId i)
                        && String.eqb (AdCopy.userId a) u) (AdCopies d) in
        result (server.listAdCopies
                  (ListAdCopies.mk (CreateAdCopy.campaignId i))
                  (signedIn u) env' d')
        = inr (data_adCopies (before ++ [createdAdCopy i u env])
                             (S (length before)))).
Proof.
  split.
  - intros i li u env env' d V F d' before. subst d'.
    rewrite (createCampaign_run i u env d V F). cbn [store]. split.
    + rewrite listCampaigns_run. cbn [result AdCampaigns].
      rewrite filter_app. cbn [filter Campaign.userId].
      rewrite String.eqb_refl. fold before.
      now rewrite length_app, Nat.add_1_r.
    + intros v N. rewrite !listCampaigns_run. cbn [result AdCampaigns].
      rewrite filter_app. cbn [filter Campaign.userId].
      apply not_eq_sym in N. apply String.eqb_neq in N. rewrite N.
      now rewrite app_nil_r.
  - intros i u env env' d V O F d' before. subst d'.
    rewrite (createAdCopy_run i u env d V O F). cbn [store].
    assert (VL : ListAdCopies.input
                   (ListAdCopies.mk (CreateAdCopy.campaignId i)) = []).
    { unfold CreateAdCopy.input in V. apply app_eq_nil in V. tauto. }
    pose proof (listAdCopies_run _ u env'
                  (mkDB (AdCampaigns d)
                        (AdCopies d
                         ++ [AdCopy.mk (randomUUID env)
                               (CreateAdCopy.campaignId i) u
                               (CreateAdCopy.platform i)
                               (CreateAdCopy.headline i)
                               (CreateAdCopy.primaryText i)
                               (CreateAdCopy.description i)
                               (CreateAdCopy.callToAction i)
                               (CreateAdCopy.tone i)
                               (CreateAdCopy.variantLabel i)
                               (CreateAdCopy.url i) (now env) (now env)])
                        (AdPerformance d)) VL O) as L.
    cbv zeta in L. rewrite L.
    cbn [result AdCopies ListAdCopies.campaignId].
    rewrite filter_app. cbn [filter AdCopy.campaignId AdCopy.userId].
    rewrite !String.eqb_refl. cbn [andb]. fold before.
    now rewrite length_app, Nat.add_1_r.
Qed.

Lemma created_rows_are_listed_witness :
  result (server.listCampaigns None (signedIn "u1") sampleEnv
            (store (server.createCampaign
                      (CreateCampaign.mk "Autumn Sale" None None None None)
                      (signedIn "u1") sampleEnv sampleStore)))
  = inr (data_campaigns
           [Campaign.mk "c1" "u1" "Spring Sale" None None None (Some "draft")
              10 10;
            Campaign.mk "fresh-id" "u1" "Autumn Sale" None None None None 30
              30] 2)
  /\ result (server.listAdCopies (ListAdCopies.mk "c1") (signedIn "u1")
               sampleEnv
               (store (server.createAdCopy
                         (CreateAdCopy.mk "c1" None None "Save more" None
                            None None None None)
                         (signedIn "u1") sampleEnv sampleStore)))
     = inr (data_adCopies
              [AdCopy.mk "a1" "c1" "u1" None (Some "Hello") "Save big" None
                 None None None None 11 11;
               AdCopy.mk "fresh-id" "c1" "u1" None None "Save more" None None
                 None None None 30 30] 2).
Proof.
  split.
  - apply (proj1 created_rows_are_listed
             (CreateCampaign.mk "Autumn Sale" None None None None) None "u1"
             sampleEnv sampleEnv sampleStore); reflexivity.
  - apply (proj2 created_rows_are_listed
             (CreateAdCopy.mk "c1" None None "Save more" None None None None
                None)
             "u1" sampleEnv sampleEnv sampleStore); reflexivity.
Defined.

(** ** After a delete *)

Lemma find_unmatched {A} (p : A -> bool) (l : list A) :
  (forall x, In x l -> p x = false) -> find p l = None.
Proof.
  induction l as [|x l IH]; simpl; [reflexivity|].
  intros H. rewrite (H x (or_introl eq_refl)). apply IH.
  intros y I. apply H. now right.
Qed.

(** X14: once deleteAdCopy has succeeded, no ad copy with that id is stored
    and no performance record refers to it, the performance table being as
    it was: updateAdCopy, deleteAdCopy, logAdPerformance and
    listAdPerformance aimed at the id fail with NOT_FOUND for every caller
    and change nothing. *)
Theorem deleted_adCopy_is_gone (i : DeleteAdCopy.t) (u : string) (env : Env)
    (d : DB) :
  primaryKeysOk d = true ->
  DeleteAdCopy.input i = [] ->
  result (server.deleteAdCopy i (signedIn u) env d) = inr no_data ->
  let d' := store (server.deleteAdCopy i (signedIn u) env d) in
  owner d' (T_AdCopies, DeleteAdCopy.id i) = None
  /\ hasPerformance d' (DeleteAdCopy.id i) = false
  /\ AdPerformance d' = AdPerformance d
  /\ forall c v env',
       issues c = [] ->
       In (T_AdCopies, DeleteAdCopy.id i) (targets c)
       \/ performanceKey c = Some (DeleteAdCopy.id i) ->
       errorCode (invoke c (signedIn v) env' d') = Some NOT_FOUND
       /\ store (invoke c (signedIn v) env' d') = d'.
Proof.
  intros K V R0 d'.
  destruct (ownsCampaign d (DeleteAdCopy.campaignId i) u) eqn:O;
    [|rewrite deleteAdCopy_campaign_missing in R0 by auto; discriminate].
  pose proof (deleteAdCopy_by_rowsAffected i u env d V O) as B.
  rewrite R0 in B.
  destruct (existsb (matchesAdCopy _ _ _) (AdCopies d)) eqn:X;
    [|discriminate].
  destruct (existsb _ (filter _ (AdCopies d))) eqn:Y; [discriminate|].
  clear B. apply existsb_exists in X. destruct X as (a & I & M).
  destruct (matchesAdCopy_parts _ _ _ a M) as (E & EC & U).
  assert (P : hasPerformance d (DeleteAdCopy.id i) = false).
  { rewrite <- E. destruct (hasPerformance d (AdCopy.id a)) eqn:H;
      [|reflexivity].
    assert (T : existsb (fun a0 => hasPerformance d (AdCopy.id a0))
                  (filter (matchesAdCopy (DeleteAdCopy.id i)
                             (DeleteAdCopy.campaignId i) u) (AdCopies d))
                = true)
      by (apply existsb_exists; exists a; split;
          [apply filter_In; auto | exact H]).
    congruence. }
  destruct (deleteAdCopy_run i u env d a K I E EC U O V P) as [R F].
  destruct (primaryKeysOk_parts d K) as (_ & K2 & _).
  assert (G : owner d' (T_AdCopies, DeleteAdCopy.id i) = None).
  { subst d'. rewrite R. unfold owner. cbn [fst snd store AdCopies].
    rewrite find_unmatched; [reflexivity|].
    intros x J. apply filter_In in J. destruct J as [J N].
    apply String.eqb_neq. intros Ex.
    assert (x = a) by (apply (distinct_key_inj AdCopy.id (AdCopies d)); auto;
                       congruence).
    subst x. now rewrite matchesAdCopy_row in N. }
  split; [exact G|]. split; [subst d'; now rewrite R|].
  split; [subst d'; now rewrite R|].
  intros c v env' Vc [T|Q].
  - apply (unowned_target_not_found c (T_AdCopies, DeleteAdCopy.id i));
      auto.
    cbn [fst snd]. now apply absent_no_adCopy.
  - destruct c; simpl in Q; try discriminate; injection Q as Q.
    + apply (unowned_target_not_found (call_logAdPerformance input)
               (T_AdCopies, DeleteAdCopy.id i)); auto.
      * simpl. left. now rewrite Q.
      * cbn [fst snd]. now apply absent_no_adCopy.
    + simpl in *. rewrite listAdPerformance_not_owned; auto.
      rewrite Q. now apply absent_no_adCopy.
Qed.

Lemma deleted_adCopy_is_gone_witness :
  let d' := store (server.deleteAdCopy (DeleteAdCopy.mk "a1" "c1")
                     (signedIn "u1") sampleEnv sampleStore) in
  owner d' (T_AdCopies, "a1") = None
  /\ errorCode (invoke (call_logAdPerformance
                          (LogAdPerformance.mk "a1" None (Some (whole 5))
                             None None None None None))
                       (signedIn "u1") sampleEnv d') = Some NOT_FOUND.
Proof.
  intros d'.
  destruct (deleted_adCopy_is_gone (DeleteAdCopy.mk "a1" "c1") "u1" sampleEnv
              sampleStore eq_refl eq_refl eq_refl)
    as (G & _ & _ & N).
  split; [exact G|].
  apply (N (call_logAdPerformance
              (LogAdPerformance.mk "a1" None (Some (whole 5)) None None None
                 None None)) "u1" sampleEnv); [reflexivity|].
  right. reflexivity.
Defined.

(** ** The performance actions on a consistent store *)

Lemma chain_owned_campaign (d : DB) (adCopyId u : string) :
  chainOk d = true ->
  ownsAdCopy d adCopyId u = true ->
  exists a,
    ownedAdCopy d adCopyId u = Some a
    /\ ownsCampaign d (AdCopy.campaignId a) u = true.
Proof.
  intros C O.
  destruct (ownedAdCopy d adCopyId u) as [a|] eqn:F;
    [|apply ownedAdCopy_none in F; congruence].
  exists a. split; [reflexivity|].
  destruct (ownedAdCopy_owns d _ _ a F) as (_ & I & _ & U).
  unfold chainOk in C. rewrite forallb_forall in C.
  rewrite <- U. now apply C.
Qed.

(** X15: on a store where every ad copy sits under a campaign of its own
    owner, the second guard of the performance actions never fails.
    listAdPerformance called by the owner of the ad copy returns every
    record stored for the ad copy, in storage order, with their count as
    total, and changes nothing, provided the client can hand each of them
    back; logAdPerformance by the owner succeeds whenever the generated id
    is not yet stored and the client can hand the new record back, and
    appends its record. *)
Theorem owner_reaches_performance :
  (forall i u env d,
     chainOk d = true ->
     ListAdPerformance.input i = [] ->
     ownsAdCopy d (ListAdPerformance.adCopyId i) u = true ->
     let items := filter (fun p => String.eqb (Performance.adCopyId p)
                                     (ListAdPerformance.adCopyId i))
                         (AdPerformance d) in
     forallb (readable env) items = true ->
     result (server.listAdPerformance i (signedIn u) env d)
     = inr (data_performances items (length items))
     /\ store (server.listAdPerformance i (signedIn u) env d) = d)
  /\ (forall i u env d,
        chainOk d = true ->
        LogAdPerformance.input i = [] ->
        ownsAdCopy d (LogAdPerformance.adCopyId i) u = true ->
        existsb (fun r => String.eqb (Performance.id r) (randomUUID env))
                (AdPerformance d) = false ->
        readable env (loggedPerformance i env) = true ->
        result (server.logAdPerformance i (signedIn u) env d)
        = inr (data_performance (Some (loggedPerformance i env)))
        /\ store (server.logAdPerformance i (signedIn u) env d)
           = mkDB (AdCampaigns d) (AdCopies d)
                  (AdPerformance d ++ [loggedPerformance i env])).
Proof.
  split.
  - intros i u env d C V O items R.
    destruct (chain_owned_campaign d _ u C O) as (a & F & OC).
    rewrite (listAdPerformance_run i u env d a V F OC R). split; reflexivity.
  - intros i u env d C V O X R.
    destruct (chain_owned_campaign d _ u C O) as (a & F & OC).
    rewrite (logAdPerformance_run i u env d a V F OC X R).
    split; reflexivity.
Qed.

Lemma owner_reaches_performance_witness :
  result (server.listAdPerformance (ListAdPerformance.mk "a1") (signedIn "u1")
            sampleEnv sampleLogged)
  = inr (data_performances
           [Performance.mk "p1" "a1" (Some 15) (Some (whole 100)) None None
              None None None] 1)
  /\ result (server.logAdPerformance
               (LogAdPerformance.mk "a2" (Some 7) None (Some (whole 3)) None
                  None (Some "EUR") None)
               (signedIn "u2") sampleEnv sampleStore)
     = inr (data_performance
              (Some (Performance.mk "fresh-id" "a2" (Some 7) None
                       (Some (whole 3)) None None (Some "EUR") None))).
Proof.
  split.
  - apply (proj1 owner_reaches_performance (ListAdPerformance.mk "a1") "u1"
             sampleEnv sampleLogged); reflexivity.
  - apply (proj2 owner_reaches_performance
             (LogAdPerformance.mk "a2" (Some 7) None (Some (whole 3)) None
                None (Some "EUR") None)
             "u2" sampleEnv sampleStore); reflexivity.
Defined.

(** ** Listing ad copies *)

(** X16: listAdCopies, called with an accepted input by a user who owns the
    campaign, returns exactly the stored ad copies that have this campaign
    id and this owner (none at all being a success with total 0), with
    their count as total, and changes nothing; called by a user who does
    not own the campaign it fails with NOT_FOUND whatever ad copies are
    stored under the campaign. *)
Theorem listAdCopies_scoped (i : ListAdCopies.t) (u : string) (env : Env)
    (d : DB) :
  ListAdCopies.input i = [] ->
  (ownsCampaign d (ListAdCopies.campaignId i) u = true ->
   exists items,
     result (server.listAdCopies i (signedIn u) env d)
     = inr (data_adCopies items (length items))
     /\ (forall a, In a items <->
                   In a (AdCopies d)
                   /\ AdCopy.campaignId a = ListAdCopies.campaignId i
                   /\ AdCopy.userId a = u)
     /\ store (server.listAdCopies i (signedIn u) env d) = d)
  /\ (ownsCampaign d (ListAdCopies.campaignId i) u = false ->
      result (server.listAdCopies i (signedIn u) env d)
      = inl (ActionError NOT_FOUND "Campaign not found.")
      /\ store (server.listAdCopies i (signedIn u) env d) = d).
Proof.
  intros V. split; intros O.
  - rewrite (listAdCopies_run i u env d V O).
    eexists. split; [reflexivity|]. split; [|reflexivity].
    intros a. rewrite filter_In, andb_true_iff, !String.eqb_eq. tauto.
  - now rewrite listAdCopies_not_owned.
Qed.

Lemma listAdCopies_scoped_witness :
  (exists items,
     result (server.listAdCopies (ListAdCopies.mk "c1") (signedIn "u1")
               sampleEnv sampleStore)
     = inr (data_adCopies items (length items))
     /\ length items = 1%nat)
  /\ result (server.listAdCopies (ListAdCopies.mk "c1") (signedIn "u2")
               sampleEnv sampleStore)
     = inl (ActionError NOT_FOUND "Campaign not found.").
Proof.
  split.
  - destruct (proj1 (listAdCopies_scoped (ListAdCopies.mk "c1") "u1"
                       sampleEnv sampleStore eq_refl) eq_refl)
      as (items & R & _ & _).
    exists items. split; [exact R|].
    simpl in R. injection R as <- _. reflexivity.
  - apply (proj2 (listAdCopies_scoped (ListAdCopies.mk "c1") "u2" sampleEnv
                    sampleStore eq_refl) eq_refl).
Defined.

(** ** The list actions only read *)

(** X17: listCampaigns, listAdCopies and listAdPerformance never change the
    store and send it nothing but selects, whoever calls them, with whatever
    input and whether they succeed or fail. *)
Theorem list_calls_only_read (c : Call) (context : ActionAPIContext)
    (env : Env) (d : DB) :
  isList c = true ->
  store (invoke c context env d) = d
  /\ forall s, In s (log (invoke c context env d)) -> isSelect s = true.
Proof.
  intros L.
  assert (G : store (invoke c context env d) = d
              /\ forallb isSelect (log (invoke c context env d)) = true);
    [|destruct G as [S F]; split; [exact S | now apply forallb_forall]].
  destruct (currentUser context) as [[u]|] eqn:U.
  - rewrite (signedIn_of_currentUser _ _ U). cbn [User.id].
    destruct c; try discriminate; cbn [invoke].
    + rewrite listCampaigns_run. split; reflexivity.
    + destruct (ListAdCopies.input input) as [|x l] eqn:V;
        [|unfold server.listAdCopies, defineAction; rewrite V;
          split; reflexivity].
      destruct (ownsCampaign d (ListAdCopies.campaignId input) u) eqn:O.
      * rewrite (listAdCopies_run input u env d V O). split; reflexivity.
      * rewrite listAdCopies_not_owned by auto. split; reflexivity.
    + destruct (ListAdPerformance.input input) as [|x l] eqn:V;
        [|unfold server.listAdPerformance, defineAction; rewrite V;
          split; reflexivity].
      destruct (ownedAdCopy d (ListAdPerformance.adCopyId input) u)
        as [a|] eqn:F;
        [|rewrite listAdPerformance_not_owned
            by auto using ownedAdCopy_none; split; reflexivity].
      destruct (ownsCampaign d (AdCopy.campaignId a) u) eqn:O;
        [|rewrite (listAdPerformance_campaign_missing input u env d a)
            by auto; split; reflexivity].
      destruct (forallb (readable env)
                  (filter (fun p => String.eqb (Performance.adCopyId p)
                                      (ListAdPerformance.adCopyId input))
                          (AdPerformance d))) eqn:R.
      * rewrite (listAdPerformance_run input u env d a V F O R).
        split; reflexivity.
      * rewrite (listAdPerformance_unreadable input u env d a V F O R).
        split; reflexivity.
  - destruct (anonymous_call_touches_nothing c context env d U)
      as (E & S & _).
    rewrite E. split; [exact S | reflexivity].
Qed.

Lemma list_calls_only_read_witness :
  store (invoke (call_listAdPerformance (ListAdPerformance.mk "a1"))
                (signedIn "u1") sampleEnv sampleStore) = sampleStore
  /\ forall s,
       In s (log (invoke (call_listAdPerformance (ListAdPerformance.mk "a1"))
                         (signedIn "u1") sampleEnv sampleStore)) ->
       isSelect s = true.
Proof.
  apply (list_calls_only_read
           (call_listAdPerformance (ListAdPerformance.mk "a1"))
           (signedIn "u1") sampleEnv sampleStore).
  reflexivity.
Defined.

(** ** When the writes succeed *)

Lemma rejected_input {I} (schema : I -> list Issue) handler (i : I)
    (context : ActionAPIContext) (env : Env) (d : DB) :
  schema i <> [] ->
  defineAction schema handler i context env d
  = mkOutcome (inl (InputError (schema i))) d [].
Proof.
  intros N. unfold defineAction. destruct (schema i); [congruence|reflexivity].
Qed.

Lemma anonymous_fails (c : Call) (context : ActionAPIContext) (env : Env)
    (d : DB) x :
  currentUser context = None ->
  result (invoke c context env d) = inr x -> False.
Proof.
  intros U R.
  destruct (anonymous_call_touches_nothing c context env d U)
    as (_ & _ & e & E).
  congruence.
Qed.

(** X18: createCampaign succeeds exactly when its input passes the schema,
    the context carries a user and the generated id is not the id of a
    stored campaign; createAdCopy succeeds exactly when, in addition, that
    user owns the supplied campaign.  A generated id that is already stored
    makes the call fail with the store's own error. *)
Theorem creates_succeed_exactly_when :
  (forall i context env d,
     (exists x, result (server.createCampaign i context env d) = inr x)
     <-> CreateCampaign.input i = []
         /\ (exists u, currentUser context = Some (User.mk u))
         /\ existsb (fun r => String.eqb (Campaign.id r) (randomUUID env))
                    (AdCampaigns d) = false)
  /\ (forall i context env d,
        (exists x, result (server.createAdCopy i context env d) = inr x)
        <-> CreateAdCopy.input i = []
            /\ (exists u, currentUser context = Some (User.mk u)
                          /\ ownsCampaign d (CreateAdCopy.campaignId i) u
                             = true)
            /\ existsb (fun r => String.eqb (AdCopy.id r) (randomUUID env))
                       (AdCopies d) = false)
  /\ (forall i u env d,
        CreateCampaign.input i = [] ->
        existsb (fun r => String.eqb (Campaign.id r) (randomUUID env))
                (AdCampaigns d) = true ->
        result (server.createCampaign i (signedIn u) env d)
        = inl (StoreError T_AdCampaigns)).
Proof.
  split; [|split].
  - intros i context env d. split.
    + intros [x R].
      destruct (CreateCampaign.input i) as [|y l] eqn:V;
        [|unfold server.createCampaign in R;
          rewrite rejected_input in R by (rewrite V; discriminate);
          discriminate].
      destruct (currentUser context) as [[u]|] eqn:U;
        [|destruct (anonymous_fails (call_createCampaign i) _ _ _ _ U R)].
      rewrite (signedIn_of_currentUser _ _ U) in R. cbn [User.id] in R.
      destruct (existsb _ (AdCampaigns d)) eqn:F;
        [rewrite createCampaign_taken in R by auto; discriminate|].
      split; [reflexivity | split; [eauto | reflexivity]].
    + intros (V & (u & U) & F).
      rewrite (signedIn_of_currentUser _ _ U). cbn [User.id].
      rewrite (createCampaign_run i u env d V F). eexists. reflexivity.
  - intros i context env d. split.
    + intros [x R].
      destruct (CreateAdCopy.input i) as [|y l] eqn:V;
        [|unfold server.createAdCopy in R;
          rewrite rejected_input in R by (rewrite V; discriminate);
          discriminate].
      destruct (currentUser context) as [[u]|] eqn:U;
        [|destruct (anonymous_fails (call_createAdCopy i) _ _ _ _ U R)].
      rewrite (signedIn_of_currentUser _ _ U) in R. cbn [User.id] in R.
      destruct (ownsCampaign d (CreateAdCopy.campaignId i) u) eqn:O;
        [|rewrite createAdCopy_not_owned in R by auto; discriminate].
      destruct (existsb _ (AdCopies d)) eqn:F;
        [rewrite createAdCopy_taken in R by auto; discriminate|].
      split; [reflexivity | split; [eauto | reflexivity]].
    + intros (V & (u & U & O) & F).
      rewrite (signedIn_of_currentUser _ _ U). cbn [User.id].
      rewrite (createAdCopy_run i u env d V O F). eexists. reflexivity.
  - intros i u env d V F. now rewrite createCampaign_taken.
Qed.

(** X19: updateCampaign succeeds exactly when its input passes the schema
    and the context carries a user who owns the campaign; updateAdCopy
    succeeds exactly when its input passes the schema and the context
    carries a user who owns the supplied campaign and an ad copy stored with
    the supplied id under that campaign. *)
Theorem updates_succeed_exactly_when :
  (forall i context env d,
     (exists x, result (server.updateCampaign i context env d) = inr x)
     <-> UpdateCampaign.input i = []
         /\ exists u, currentUser context = Some (User.mk u)
                      /\ ownsCampaign d (UpdateCampaign.id i) u = true)
  /\ (forall i context env d,
        (exists x, result (server.updateAdCopy i context env d) = inr x)
        <-> UpdateAdCopy.input i = []
            /\ exists u,
                 currentUser context = Some (User.mk u)
                 /\ ownsCampaign d (UpdateAdCopy.campaignId i) u = true
                 /\ existsb (matchesAdCopy (UpdateAdCopy.id i)
                               (UpdateAdCopy.campaignId i) u)
                            (AdCopies d) = true).
Proof.
  split.
  - intros i context env d. split.
    + intros [x R].
      destruct (UpdateCampaign.input i) as [|y l] eqn:V;
        [|unfold server.updateCampaign in R;
          rewrite rejected_input in R by (rewrite V; discriminate);
          discriminate].
      destruct (currentUser context) as [[u]|] eqn:U;
        [|destruct (anonymous_fails (call_updateCampaign i) _ _ _ _ U R)].
      rewrite (signedIn_of_currentUser _ _ U) in R. cbn [User.id] in R.
      destruct (ownsCampaign d (UpdateCampaign.id i) u) eqn:O;
        [|rewrite updateCampaign_not_owned in R by auto; discriminate].
      split; [reflexivity | eauto].
    + intros (V & u & U & O).
      rewrite (signedIn_of_currentUser _ _ U). cbn [User.id].
      apply (updateCampaign_store i u env d V O).
  - intros i context env d. split.
    + intros [x R].
      destruct (UpdateAdCopy.input i) as [|y l] eqn:V;
        [|unfold server.updateAdCopy in R;
          rewrite rejected_input in R by (rewrite V; discriminate);
          discriminate].
      destruct (currentUser context) as [[u]|] eqn:U;
        [|destruct (anonymous_fails (call_updateAdCopy i) _ _ _ _ U R)].
      rewrite (signedIn_of_currentUser _ _ U) in R. cbn [User.id] in R.
      destruct (ownsCampaign d (UpdateAdCopy.campaignId i) u) eqn:O;
        [|rewrite updateAdCopy_campaign_missing in R by auto; discriminate].
      destruct (existsb (matchesAdCopy (UpdateAdCopy.id i)
                           (UpdateAdCopy.campaignId i) u) (AdCopies d)) eqn:X;
        [|rewrite updateAdCopy_adCopy_missing in R by auto; discriminate].
      split; [reflexivity | eauto].
    + intros (V & u & U & O & X).
      rewrite (signedIn_of_currentUser _ _ U). cbn [User.id].
      apply (updateAdCopy_store i u env d V O X).
Qed.

(** ** The guards themselves *)

(** X20: getOwnedCampaign and getOwnedAdCopy send one select and never
    change the store.  Each returns a row only if that row is stored with
    the given id and the given owner, and otherwise throws NOT_FOUND, which
    it does exactly when no stored row has both. *)
Theorem guards_return_owned_rows :
  (forall id u d,
     store (getOwnedCampaign id u d) = d
     /\ log (getOwnedCampaign id u d) = [SELECT T_AdCampaigns]
     /\ match result (getOwnedCampaign id u d) with
        | inr c =>
            In c (AdCampaigns d) /\ Campaign.id c = id
            /\ Campaign.userId c = u
        | inl e =>
            e = ActionError NOT_FOUND "Campaign not found."
            /\ forall c, In c (AdCampaigns d) ->
                         ~ (Campaign.id c = id /\ Campaign.userId c = u)
        end)
  /\ (forall id u d,
        store (getOwnedAdCopy id u d) = d
        /\ log (getOwnedAdCopy id u d) = [SELECT T_AdCopies]
        /\ match result (getOwnedAdCopy id u d) with
           | inr a =>
               In a (AdCopies d) /\ AdCopy.id a = id /\ AdCopy.userId a = u
           | inl e =>
               e = ActionError NOT_FOUND "Ad copy not found."
               /\ forall a, In a (AdCopies d) ->
                            ~ (AdCopy.id a = id /\ AdCopy.userId a = u)
           end).
Proof.
  split; intros id u d.
  - destruct (ownsCampaign d id u) eqn:O.
    + destruct (getOwnedCampaign_hit d id u O) as (c & G & P).
      rewrite G. auto.
    + rewrite (getOwnedCampaign_miss d id u O). repeat split.
      intros c I [E U]. unfold ownsCampaign in O.
      pose proof (existsb_false_In _ _ c O I) as F. cbv beta in F.
      now rewrite E, U, !String.eqb_refl in F.
  - destruct (ownsAdCopy d id u) eqn:O.
    + destruct (getOwnedAdCopy_hit d id u O) as (a & G & P).
      rewrite G. auto.
    + rewrite (getOwnedAdCopy_miss d id u O). repeat split.
      intros a I [E U]. unfold ownsAdCopy in O.
      pose proof (existsb_false_In _ _ a O I) as F. cbv beta in F.
      now rewrite E, U, !String.eqb_refl in F.
Qed.

(** ** Calls in sequence *)

Lemma updatedCampaign_twice (i : UpdateCampaign.t) (env1 env2 : Env)
    (r : Campaign.t) :
  updatedCampaign i env2 (updatedCampaign i env1 r) = updatedCampaign i env2 r.
Proof.
  unfold updatedCampaign. cbn.
  destruct (UpdateCampaign.name i), (UpdateCampaign.objective i),
    (UpdateCampaign.productName i), (UpdateCampaign.targetAudience i),
    (UpdateCampaign.notes i); reflexivity.
Qed.

Lemma updatedAdCopy_twice (i : UpdateAdCopy.t) (env1 env2 : Env)
    (r : AdCopy.t) :
  updatedAdCopy i env2 (updatedAdCopy i env1 r) = updatedAdCopy i env2 r.
Proof.
  unfold updatedAdCopy. cbn. f_equal;
    match goal with
    | |- context [orKeep ?x] => destruct x; reflexivity
    | |- context [orElse ?x] => destruct x; reflexivity
    end.
Qed.

(** X21: repeating an update changes nothing but the update time.  When an
    updateCampaign (resp. updateAdCopy) call has succeeded, the same call
    made again at a later clock reading leaves the store exactly as a single
    call at that later reading would have left it. *)
Theorem repeated_update_only_restamps :
  (forall i u env1 env2 d,
     UpdateCampaign.input i = [] ->
     ownsCampaign d (UpdateCampaign.id i) u = true ->
     let d1 := store (server.updateCampaign i (signedIn u) env1 d) in
     (exists x, result (server.updateCampaign i (signedIn u) env2 d1) = inr x)
     /\ store (server.updateCampaign i (signedIn u) env2 d1)
        = store (server.updateCampaign i (signedIn u) env2 d))
  /\ (forall i u env1 env2 d,
        UpdateAdCopy.input i = [] ->
        ownsCampaign d (UpdateAdCopy.campaignId i) u = true ->
        existsb (matchesAdCopy (UpdateAdCopy.id i)
                   (UpdateAdCopy.campaignId i) u) (AdCopies d) = true ->
        let d1 := store (server.updateAdCopy i (signedIn u) env1 d) in
        (exists x, result (server.updateAdCopy i (signedIn u) env2 d1)
                   = inr x)
        /\ store (server.updateAdCopy i (signedIn u) env2 d1)
           = store (server.updateAdCopy i (signedIn u) env2 d)).
Proof.
  split.
  - intros i u env1 env2 d V O d1.
    destruct (updateCampaign_store i u env1 d V O) as (_ & S1 & _).
    destruct (updateCampaign_store i u env2 d V O) as (_ & S2 & _).
    assert (O1 : ownsCampaign d1 (UpdateCampaign.id i) u = true).
    { subst d1. rewrite S1, ownsCampaign_map; [exact O|].
      intros r. apply (updatedCampaign_or_same i env1 r). }
    destruct (updateCampaign_store i u env2 d1 V O1) as (R & S & _).
    split; [exact R|]. rewrite S, S2. subst d1. rewrite S1.
    cbn [AdCampaigns AdCopies AdPerformance]. f_equal.
    rewrite map_map. apply map_ext. intros r.
    destruct (String.eqb (Campaign.id r) (UpdateCampaign.id i)) eqn:E.
    + cbn [updatedCampaign Campaign.id]. rewrite E.
      apply updatedCampaign_twice.
    + now rewrite E.
  - intros i u env1 env2 d V O X d1.
    destruct (updateAdCopy_store i u env1 d V O X) as (_ & S1 & _).
    destruct (updateAdCopy_store i u env2 d V O X) as (_ & S2 & _).
    assert (O1 : ownsCampaign d1 (UpdateAdCopy.campaignId i) u = true).
    { subst d1. rewrite S1. now rewrite (ownsCampaign_same_campaigns d). }
    assert (X1 : existsb (matchesAdCopy (UpdateAdCopy.id i)
                            (UpdateAdCopy.campaignId i) u) (AdCopies d1)
                 = true).
    { subst d1. rewrite S1. cbn [AdCopies].
      apply existsb_exists in X. destruct X as (a0 & I0 & M0).
      apply existsb_exists. eexists. split; [apply in_map; exact I0|].
      cbv beta. unfold matchesAdCopy in *.
      destruct (updatedAdCopy_or_same i env1 a0) as (-> & -> & ->).
      exact M0. }
    destruct (updateAdCopy_store i u env2 d1 V O1 X1) as (R & S & _).
    split; [exact R|]. rewrite S, S2. subst d1. rewrite S1.
    cbn [AdCampaigns AdCopies AdPerformance]. f_equal.
    rewrite map_map. apply map_ext. intros r.
    destruct (String.eqb (AdCopy.id r) (UpdateAdCopy.id i)) eqn:E.
    + cbn [updatedAdCopy AdCopy.id]. rewrite E.
      apply updatedAdCopy_twice.
    + now rewrite E.
Qed.

Lemma repeated_update_only_restamps_witness :
  store (server.updateCampaign
           (UpdateCampaign.mk "c1" None (Some "leads") None None None)
           (signedIn "u1") (mkEnv 50 "y")
           (store (server.updateCampaign
                     (UpdateCampaign.mk "c1" None (Some "leads") None None
                        None)
                     (signedIn "u1") (mkEnv 40 "x") sampleStore)))
  = store (server.updateCampaign
             (UpdateCampaign.mk "c1" None (Some "leads") None None None)
             (signedIn "u1") (mkEnv 50 "y") sampleStore).
Proof.
  apply (proj1 repeated_update_only_restamps
           (UpdateCampaign.mk "c1" None (Some "leads") None None None) "u1"
           (mkEnv 40 "x") (mkEnv 50 "y") sampleStore); reflexivity.
Defined.

Lemma min1_of_length (field s : string) :
  (1 <=? String.length s)%nat = true -> min1 field s = [].
Proof.
  unfold min1. intros L. apply Nat.leb_le in L.
  destruct (String.length s <? 1)%nat eqn:B; [|reflexivity].
  apply Nat.ltb_lt in B. lia.
Qed.

(** X22: deleting an ad copy that was just created puts the store back.
    When createAdCopy has succeeded with a non-empty generated id that no
    stored performance record refers to, deleteAdCopy called by the same
    user with that id and the same campaign succeeds, and the store is then
    exactly what it was before the ad copy was created. *)
Theorem create_then_delete_restores (i : CreateAdCopy.t) (u : string)
    (env env' : Env) (d : DB) :
  CreateAdCopy.input i = [] ->
  ownsCampaign d (CreateAdCopy.campaignId i) u = true ->
  existsb (fun r => String.eqb (AdCopy.id r) (randomUUID env)) (AdCopies d)
  = false ->
  (1 <=? String.length (randomUUID env))%nat = true ->
  hasPerformance d (randomUUID env) = false ->
  let d1 := store (server.createAdCopy i (signedIn u) env d) in
  let delete := server.deleteAdCopy
                  (DeleteAdCopy.mk (randomUUID env)
                     (CreateAdCopy.campaignId i))
                  (signedIn u) env' in
  result (delete d1) = inr no_data /\ store (delete d1) = d.
Proof.
  intros V O F L NP d1 delete. subst d1 delete.
  rewrite (createAdCopy_run i u env d V O F). cbn [store].
  set (new := AdCopy.mk _ _ _ _ _ _ _ _ _ _ _ _ _).
  set (d1 := mkDB _ _ _).
  assert (VD : DeleteAdCopy.input
                 (DeleteAdCopy.mk (randomUUID env)
                    (CreateAdCopy.campaignId i)) = []).
  { unfold DeleteAdCopy.input. cbn.
    rewrite (min1_of_length "id" _ L). unfold CreateAdCopy.input in V.
    apply app_eq_nil in V. tauto. }
  assert (O1 : ownsCampaign d1 (CreateAdCopy.campaignId i) u = true)
    by now rewrite (ownsCampaign_same_campaigns d).
  assert (M : matchesAdCopy (randomUUID env) (CreateAdCopy.campaignId i) u
                new = true)
    by (unfold matchesAdCopy, new; cbn; now rewrite !String.eqb_refl).
  assert (X : existsb (matchesAdCopy (randomUUID env)
                         (CreateAdCopy.campaignId i) u) (AdCopies d1) = true).
  { subst d1. cbn [AdCopies]. rewrite existsb_app. cbn [existsb].
    rewrite M. now rewrite orb_true_r. }
  assert (Y : existsb (fun a => hasPerformance d1 (AdCopy.id a))
                (filter (matchesAdCopy (randomUUID env)
                           (CreateAdCopy.campaignId i) u) (AdCopies d1))
              = false).
  { destruct (existsb _ (filter _ (AdCopies d1))) eqn:Y; [|reflexivity].
    apply existsb_exists in Y. destruct Y as (a & I & H).
    apply filter_In in I. destruct I as [_ I].
    apply matchesAdCopy_id in I. rewrite I in H. unfold hasPerformance, d1 in H. cbn [AdPerformance] in H.
    unfold hasPerformance in NP. congruence. }
  destruct (deleteAdCopy_store _ u env' d1 VD O1 X Y) as (R & S & _).
  cbn [DeleteAdCopy.id DeleteAdCopy.campaignId] in S.
  split; [exact R|]. rewrite S. subst d1. cbn [AdCampaigns AdCopies
    AdPerformance].
  rewrite filter_app. cbn [filter]. rewrite M. cbn [negb].
  rewrite app_nil_r, filter_negb_unmatched; [now destruct d|].
  revert F. apply existsb_weaken. intros a P.
  apply matchesAdCopy_id in P. now apply String.eqb_eq.
Qed.

Lemma create_then_delete_restores_witness :
  result (server.deleteAdCopy (DeleteAdCopy.mk "fresh-id" "c1")
            (signedIn "u1") sampleEnv
            (store (server.createAdCopy
                      (CreateAdCopy.mk "c1" None None "Save more" None None
                         None None None)
                      (signedIn "u1") sampleEnv sampleStore)))
  = inr no_data
  /\ store (server.deleteAdCopy (DeleteAdCopy.mk "fresh-id" "c1")
              (signedIn "u1") sampleEnv
              (store (server.createAdCopy
                        (CreateAdCopy.mk "c1" None None "Save more" None None
                           None None None)
                        (signedIn "u1") sampleEnv sampleStore)))
     = sampleStore.
Proof.
  apply (create_then_delete_restores
           (CreateAdCopy.mk "c1" None None "Save more" None None None None
              None)
           "u1" sampleEnv sampleEnv sampleStore); reflexivity.
Defined.

(** ** The properties without a precondition, on the example store *)

Lemma one_write_and_it_is_last_witness :
  (length (log (invoke (call_updateAdCopy
                          (UpdateAdCopy.mk "a1" "c1" None (Some "Hi") None
                             None None None None None))
                       (signedIn "u1") sampleEnv sampleStore)) <= 3)%nat
  /\ forall s,
       In s (removelast
               (log (invoke (call_updateAdCopy
                               (UpdateAdCopy.mk "a1" "c1" None (Some "Hi")
                                  None None None None None None))
                            (signedIn "u1") sampleEnv sampleStore))) ->
       isSelect s = true.
Proof.
  exact (one_write_and_it_is_last
           (call_updateAdCopy
              (UpdateAdCopy.mk "a1" "c1" None (Some "Hi") None None None None
                 None None))
           (signedIn "u1") sampleEnv sampleStore).
Defined.

Lemma campaigns_persist_witness :
  exists r',
    In r' (AdCampaigns
             (store (invoke (call_updateCampaign
                               (UpdateCampaign.mk "c1" (Some "Renamed") None
                                  None None None))
                            (signedIn "u1") sampleEnv sampleStore)))
    /\ Campaign.id r' = "c1" /\ Campaign.userId r' = "u1"
    /\ Campaign.notes r' <> None.
Proof.
  destruct (proj2 (campaigns_persist
                     (call_updateCampaign
                        (UpdateCampaign.mk "c1" (Some "Renamed") None None
                           None None))
                     (signedIn "u1") sampleEnv sampleStore)
              (Campaign.mk "c1" "u1" "Spring Sale" None None None
                 (Some "draft") 10 10))
    as (r' & I & E & _ & _ & _ & N).
  - simpl. auto.
  - exists r'. unfold campaignIdentity in E. injection E as E1 E2 _.
    repeat split; auto. apply N. discriminate.
Defined.

Lemma performance_is_append_only_witness :
  exists extra,
    AdPerformance
      (store (invoke (call_logAdPerformance
                        (LogAdPerformance.mk "a1" None (Some (whole 100)) None None
                           None None None))
                     (signedIn "u1") sampleEnv sampleStore))
    = AdPerformance sampleStore ++ extra
    /\ (length extra <= 1)%nat.
Proof.
  destruct (performance_is_append_only
              (call_logAdPerformance
                 (LogAdPerformance.mk "a1" None (Some (whole 100)) None None None
                    None None))
              (signedIn "u1") sampleEnv sampleStore)
    as (extra & E & L & _).
  exists extra. auto.
Defined.

Lemma creates_succeed_exactly_when_witness :
  (exists x,
     result (server.createCampaign
               (CreateCampaign.mk "Autumn Sale" None None None None)
               (signedIn "u2") sampleEnv sampleStore) = inr x)
  /\ result (server.createCampaign
               (CreateCampaign.mk "Autumn Sale" None None None None)
               (signedIn "u2") (mkEnv 31 "c2") sampleStore)
     = inl (StoreError T_AdCampaigns).
Proof.
  destruct creates_succeed_exactly_when as (C & _ & T). split.
  - apply C. split; [reflexivity|]. split; [|reflexivity].
    exists "u2". reflexivity.
  - apply T; reflexivity.
Defined.

Lemma updates_succeed_exactly_when_witness :
  (exists x,
     result (server.updateCampaign
               (UpdateCampaign.mk "c2" None None None None (Some "checked"))
               (signedIn "u2") sampleEnv sampleStore) = inr x)
  /\ ~ (exists x,
          result (server.updateAdCopy
                    (UpdateAdCopy.mk "a2" "c1" None None None None None None
                       None (Some "https://example.org"))
                    (signedIn "u2") sampleEnv sampleStore) = inr x).
Proof.
  destruct updates_succeed_exactly_when as (C & A). split.
  - apply C. split; [reflexivity|]. exists "u2". split; reflexivity.
  - intros S. apply A in S. destruct S as (_ & u & U & O & _).
    injection U as <-. discriminate O.
Defined.

Lemma guards_return_owned_rows_witness :
  result (getOwnedAdCopy "a1" "u1" sampleStore)
  = inr (AdCopy.mk "a1" "c1" "u1" None (Some "Hello") "Save big" None None
           None None None 11 11)
  /\ store (getOwnedAdCopy "a1" "u2" sampleStore) = sampleStore.
Proof.
  split; [reflexivity|].
  apply (proj2 guards_return_owned_rows "a1" "u2" sampleStore).
Defined.
